(** * CML to PHP: the model parser and the code generator

    A shallow embedding of [src/lib/cml-parser.ts] ([parseCML],
    [parseProperty]) and of [src/lib/php-generator.ts] ([generatePHP] and
    the functions it drives), followed by the properties the design document
    states about them.

    Strings.  A JavaScript string is modelled as a [string] whose characters
    are code units in the range 0..255.  The regular expressions of the
    source are all fixed, so each one is translated by hand into the
    function that performs the same leftmost, greedy match.

    Objects.  The parser mutates the objects it has already pushed into
    their parents; the embedding keeps them in stores and lets the cursors
    and the parents hold references (indices) into the stores.

    The library.  The generator builds and prints its files with
    [js-php-generator], which is not part of the repository and whose calls
    may throw.  The embedding records the calls the generator makes and
    takes what the library accepts as a parameter ([PhpBuilder]); a
    generating function returns a value or throws ([Outcome]). *)

From Stdlib Require Import String Ascii List Bool Arith Lia.
From stdpp Require Import base option list strings.
Import ListNotations.
Local Open Scope string_scope.
Local Open Scope list_scope.
Local Open Scope nat_scope.

(** ** JavaScript string primitives *)

Module Js.

(** [\s] of ECMAScript, which is also what [String.prototype.trim] removes,
    restricted to code units below 256: TAB, LF, VT, FF, CR, SP, NBSP. *)
Definition isSpace (c : ascii) : bool :=
  let n := nat_of_ascii c in
  ((9 <=? n) && (n <=? 13)) || (n =? 32) || (n =? 160).

(** [\w], that is [[A-Za-z0-9_]]. *)
Definition isWord (c : ascii) : bool :=
  let n := nat_of_ascii c in
  ((48 <=? n) && (n <=? 57)) || ((65 <=? n) && (n <=? 90))
  || ((97 <=? n) && (n <=? 122)) || (n =? 95).

(** A line terminator, the only thing [.] does not match. *)
Definition isLineTerminator (c : ascii) : bool :=
  let n := nat_of_ascii c in (n =? 10) || (n =? 13).

(** [toUpperCase] on one code unit: the letters a-z, and the Latin-1 letters
    224..254 without the division sign.  Exact on every code unit below 256
    but 181, 223 and 255, whose upper case lies outside that range. *)
Definition toUpperChar (c : ascii) : ascii :=
  let n := nat_of_ascii c in
  if ((97 <=? n) && (n <=? 122))
     || ((224 <=? n) && (n <=? 254) && negb (n =? 247))
  then ascii_of_nat (n - 32) else c.

(** [toLowerCase] on one code unit, exact below 256. *)
Definition toLowerChar (c : ascii) : ascii :=
  let n := nat_of_ascii c in
  if ((65 <=? n) && (n <=? 90))
     || ((192 <=? n) && (n <=? 222) && negb (n =? 215))
  then ascii_of_nat (n + 32) else c.

Fixpoint mapChars (f : ascii -> ascii) (s : string) : string :=
  match s with
  | EmptyString => EmptyString
  | String c s' => String (f c) (mapChars f s')
  end.

Definition toUpperCase (s : string) : string := mapChars toUpperChar s.
Definition toLowerCase (s : string) : string := mapChars toLowerChar s.

Fixpoint allChars (p : ascii -> bool) (s : string) : bool :=
  match s with
  | EmptyString => true
  | String c s' => p c && allChars p s'
  end.

Fixpoint anyChar (p : ascii -> bool) (s : string) : bool :=
  match s with
  | EmptyString => false
  | String c s' => p c || anyChar p s'
  end.

Fixpoint filterChars (p : ascii -> bool) (s : string) : string :=
  match s with
  | EmptyString => EmptyString
  | String c s' => if p c then String c (filterChars p s') else filterChars p s'
  end.

(** The truthiness of a string: non-empty. *)
Definition truthy (s : string) : bool :=
  match s with EmptyString => false | _ => true end.

(** [a || b] on strings. *)
Definition orElse (a b : string) : string := if truthy a then a else b.

Fixpoint startsWith (p s : string) : bool :=
  match p with
  | EmptyString => true
  | String a p' =>
      match s with
      | String b s' => Ascii.eqb a b && startsWith p' s'
      | EmptyString => false
      end
  end.

Fixpoint includes (sub s : string) : bool :=
  startsWith sub s ||
  match s with
  | EmptyString => false
  | String _ s' => includes sub s'
  end.

(** [s.endsWith(c)] for a one-character string. *)
Fixpoint endsWithChar (c : ascii) (s : string) : bool :=
  match s with
  | EmptyString => false
  | String d EmptyString => Ascii.eqb c d
  | String _ s' => endsWithChar c s'
  end.

Fixpoint dropWhile (p : ascii -> bool) (s : string) : string :=
  match s with
  | EmptyString => EmptyString
  | String c s' => if p c then dropWhile p s' else s
  end.

Fixpoint takeWhile (p : ascii -> bool) (s : string) : string :=
  match s with
  | EmptyString => EmptyString
  | String c s' => if p c then String c (takeWhile p s') else EmptyString
  end.

(** Removes the longest run of white space at the end. *)
Fixpoint trimEnd (s : string) : string :=
  match s with
  | EmptyString => EmptyString
  | String c s' =>
      match trimEnd s' with
      | EmptyString => if isSpace c then EmptyString else String c EmptyString
      | t => String c t
      end
  end.

Definition trim (s : string) : string := trimEnd (dropWhile isSpace s).

(** [s.split(c)] for a one-character separator: never an empty array. *)
Fixpoint splitChar (sep : ascii) (s : string) : list string :=
  match s with
  | EmptyString => [EmptyString]
  | String c s' =>
      if Ascii.eqb c sep then EmptyString :: splitChar sep s'
      else match splitChar sep s' with
           | [] => [String c EmptyString]
           | w :: ws => String c w :: ws
           end
  end.

(** [s.split(/\s+/).filter(p => p)]: the maximal runs without white space. *)
Fixpoint wordsAcc (cur : string) (s : string) : list string :=
  match s with
  | EmptyString => if truthy cur then [cur] else []
  | String c s' =>
      if isSpace c
      then (if truthy cur then [cur] else []) ++ wordsAcc EmptyString s'
      else wordsAcc (cur +:+ String c EmptyString) s'
  end.

Definition splitWhitespace (s : string) : list string := wordsAcc EmptyString s.

(** [s.replace(re, r)] for a regular expression without the [g] flag whose
    match at a position is given by [m]: the length of the match that starts
    at the head of its argument, if there is one.  The first position that
    matches is replaced. *)
Fixpoint replaceFirst (m : string -> option nat) (r : string) (s : string)
  : string :=
  match m s with
  | Some k => r +:+ substring k (String.length s - k) s
  | None =>
      match s with
      | EmptyString => EmptyString
      | String c s' => String c (replaceFirst m r s')
      end
  end.

(** [s.replace(re, r)] with the [g] flag, for a regular expression that
    matches no empty string: after a match the search resumes behind it.
    [skip] counts the characters of the current match still to be dropped. *)
Fixpoint replaceAllFrom (m : string -> option nat) (r : string) (skip : nat)
  (s : string) : string :=
  match s with
  | EmptyString => EmptyString
  | String c s' =>
      match skip with
      | S k => replaceAllFrom m r k s'
      | O =>
          match m s with
          | Some (S k) => r +:+ replaceAllFrom m r k s'
          | _ => String c (replaceAllFrom m r 0 s')
          end
      end
  end.

Definition replaceAll (m : string -> option nat) (r s : string) : string :=
  replaceAllFrom m r 0 s.

(** [s.match(re)?.[1]] for an unanchored regular expression with one group:
    [m] gives the group of the match that starts at the head, if any. *)
Fixpoint searchGroup (m : string -> option string) (s : string)
  : option string :=
  match m s with
  | Some g => Some g
  | None =>
      match s with
      | EmptyString => None
      | String _ s' => searchGroup m s'
      end
  end.

(** What is left of [s] behind the prefix [p]. *)
Fixpoint stripPrefix (p s : string) : option string :=
  match p with
  | EmptyString => Some s
  | String a p' =>
      match s with
      | String b s' => if Ascii.eqb a b then stripPrefix p' s' else None
      | EmptyString => None
      end
  end.

(** [parts.join(sep)]. *)
Fixpoint join (sep : string) (parts : list string) : string :=
  match parts with
  | [] => EmptyString
  | [x] => x
  | x :: rest => x +:+ sep +:+ join sep rest
  end.

(** ["true"] or ["false"], as a template literal prints a boolean. *)
Definition showBool (b : bool) : string := if b then "true" else "false".

End Js.

(** ** The intermediate model ([cml-parser.ts], lines 3-42) *)

Record CMLProperty := {
  prop_name : string;
  prop_type : string;
  prop_nullable : bool;
  prop_isRelation : bool;
  prop_isCollection : bool;
  prop_isEnum : bool
}.

Record CMLEnum := {
  enum_name : string;
  enum_values : list string
}.

Record CMLValueObject := {
  vo_name : string;
  vo_properties : list CMLProperty
}.

Record CMLEntity := {
  ent_name : string;
  ent_isAggregateRoot : bool;
  ent_properties : list CMLProperty
}.

Record CMLAggregate := {
  agg_name : string;
  agg_entities : list CMLEntity;
  agg_valueObjects : list CMLValueObject;
  agg_enums : list CMLEnum
}.

Record CMLBoundedContext := {
  bc_name : string;
  bc_aggregates : list CMLAggregate
}.

Record CMLModel := {
  boundedContexts : list CMLBoundedContext
}.

(** ** The model parser ([cml-parser.ts], lines 45-236) *)

Module CmlParser.

Import Js.

(** *** The hand-translated regular expressions *)

(** [/\/\/.*$/] at the head of [s]: the two slashes and the rest of the
    input, which must hold no line terminator. *)
Definition matchComment (s : string) : option nat :=
  match stripPrefix "//" s with
  | Some rest =>
      if anyChar isLineTerminator rest then None else Some (String.length s)
  | None => None
  end.

(** [line.replace(/\/\/.*$/, '')]. *)
Definition stripComment (s : string) : string := replaceFirst matchComment "" s.

(** [/[;,\/\/].*$/] at the head of [s]. *)
Definition matchSeparatorTail (s : string) : option nat :=
  match s with
  | String c rest =>
      if (Ascii.eqb c ";" || Ascii.eqb c "," || Ascii.eqb c "/")
         && negb (anyChar isLineTerminator rest)
      then Some (String.length s) else None
  | EmptyString => None
  end.

(** [v.replace(/[;,\/\/].*$/, '')]. *)
Definition stripSeparatorTail (s : string) : string :=
  replaceFirst matchSeparatorTail "" s.

(** [/<kw>\s+(\w+)/] at the head of [s], for a keyword [kw]: both runs are
    greedy, and giving back white space or word characters never helps. *)
Definition matchKeywordName (kw : string) (s : string) : option string :=
  match stripPrefix kw s with
  | Some rest =>
      let rest' := dropWhile isSpace rest in
      if String.length rest' <? String.length rest then
        let w := takeWhile isWord rest' in
        if truthy w then Some w else None
      else None
  | None => None
  end.

(** [line.match(/<kw>\s+(\w+)/)?.[1] || '']. *)
Definition declaredName (kw : string) (line : string) : string :=
  match searchGroup (matchKeywordName kw) line with
  | Some w => orElse w ""
  | None => ""
  end.

(** [/<open>(\w+)>/] at the head of [s], where [open] is ["Set<"] or
    ["List<"]: the captured word and the length of the whole match. *)
Definition matchGenericAt (open : string) (s : string)
  : option (string * nat) :=
  match stripPrefix open s with
  | Some rest =>
      let w := takeWhile isWord rest in
      if truthy w && startsWith ">" (dropWhile isWord rest)
      then Some (w, String.length open + String.length w + 1)
      else None
  | None => None
  end.

(** [/(?:Set|List)<(\w+)>/] at the head of [s]. *)
Definition matchCollection (s : string) : option string :=
  match matchGenericAt "Set<" s with
  | Some (w, _) => Some w
  | None => match matchGenericAt "List<" s with
            | Some (w, _) => Some w
            | None => None
            end
  end.

(** [/Set<\w+>/] and [/List<\w+>/] at the head of [s]. *)
Definition matchGeneric (open : string) (s : string) : option nat :=
  match matchGenericAt open s with
  | Some (_, k) => Some k
  | None => None
  end.

(** [/\s*nullable\s*/] at the head of [s]. *)
Definition matchNullable (s : string) : option nat :=
  let s1 := dropWhile isSpace s in
  match stripPrefix "nullable" s1 with
  | Some rest =>
      Some (String.length s - String.length (dropWhile isSpace rest))
  | None => None
  end.

(** [.replace(/\s*nullable\s*/g, '')]. *)
Definition removeNullable (s : string) : string := replaceAll matchNullable "" s.

(** [.replace(/^-/, '')]. *)
Definition removeLeadingDash (s : string) : string :=
  match s with
  | String c rest => if Ascii.eqb c "-" then rest else s
  | EmptyString => s
  end.

(** [/[;,]/] at the head of [s]. *)
Definition matchSemicolonOrComma (s : string) : option nat :=
  match s with
  | String c _ => if Ascii.eqb c ";" || Ascii.eqb c "," then Some 1 else None
  | EmptyString => None
  end.

(** *** [parseProperty] (lines 188-236) *)

Definition parseProperty (line0 : string) : option CMLProperty :=
  let line := trim (stripComment line0) in
  if negb (truthy line) || String.eqb line "{" || String.eqb line "}"
     || String.eqb line "aggregateRoot"
  then None
  else
    let nullable := includes "nullable" line in
    let isRelation := startsWith "-" line in
    let isCollection := includes "Set<" line || includes "List<" line in
    let hasEnumMarker := includes "^" line in
    let collectionType :=
      if isCollection
      then match searchGroup matchCollection line with
           | Some w => w
           | None => ""
           end
      else "" in
    let cleanLine :=
      trim (removeLeadingDash
              (replaceAll (matchGeneric "List<") (orElse collectionType "")
                 (replaceAll (matchGeneric "Set<") (orElse collectionType "")
                    (removeNullable line)))) in
    let cleanLine := filterChars (fun c => negb (Ascii.eqb c "^")) cleanLine in
    let parts := splitWhitespace cleanLine in
    match parts with
    | type :: name0 :: _ =>
        let name := replaceFirst matchSemicolonOrComma "" name0 in
        let finalType :=
          if isCollection && truthy collectionType then collectionType
          else type in
        Some {| prop_name := name;
                prop_type := finalType;
                prop_nullable := nullable;
                prop_isRelation := isRelation;
                prop_isCollection := isCollection;
                prop_isEnum := hasEnumMarker |}
    | _ => None
    end.

(** *** The objects under construction

    [parseCML] builds the tree by mutation: an object is created, pushed
    into its parent if a parent is open, and filled in afterwards through
    the cursor.  An aggregate created while no context is open, or an
    entity, value object or enumeration created while no aggregate is open,
    is still created and still becomes the cursor, but nothing refers to it.
    The stores below hold every object ever created; a reference is the
    index of the object in its store.  Property objects and value labels are
    never changed once pushed, so they are stored by value. *)

Abbreviation ref := nat.

Record ContextObj := {
  co_name : string;
  co_aggregates : list ref
}.

Record AggregateObj := {
  ao_name : string;
  ao_entities : list ref;
  ao_valueObjects : list ref;
  ao_enums : list ref
}.

Record ParserState := {
  st_boundedContexts : list ContextObj;
  heapAggregates : list AggregateObj;
  heapEntities : list CMLEntity;
  heapValueObjects : list CMLValueObject;
  heapEnums : list CMLEnum;
  currentBoundedContext : option ref;
  currentAggregate : option ref;
  currentEntity : option ref;
  currentValueObject : option ref;
  currentEnum : option ref
}.

Definition initialState : ParserState :=
  {| st_boundedContexts := [];
     heapAggregates := []; heapEntities := [];
     heapValueObjects := []; heapEnums := [];
     currentBoundedContext := None; currentAggregate := None;
     currentEntity := None; currentValueObject := None;
     currentEnum := None |}.

(** [obj.aggregates.push(a)] and its siblings. *)
Definition pushAggregate (a : ref) (c : ContextObj) : ContextObj :=
  {| co_name := co_name c; co_aggregates := co_aggregates c ++ [a] |}.

Definition pushEntity (e : ref) (a : AggregateObj) : AggregateObj :=
  {| ao_name := ao_name a; ao_entities := ao_entities a ++ [e];
     ao_valueObjects := ao_valueObjects a; ao_enums := ao_enums a |}.

Definition pushValueObject (v : ref) (a : AggregateObj) : AggregateObj :=
  {| ao_name := ao_name a; ao_entities := ao_entities a;
     ao_valueObjects := ao_valueObjects a ++ [v]; ao_enums := ao_enums a |}.

Definition pushEnum (n : ref) (a : AggregateObj) : AggregateObj :=
  {| ao_name := ao_name a; ao_entities := ao_entities a;
     ao_valueObjects := ao_valueObjects a; ao_enums := ao_enums a ++ [n] |}.

Definition pushEntityProperty (p : CMLProperty) (e : CMLEntity) : CMLEntity :=
  {| ent_name := ent_name e; ent_isAggregateRoot := ent_isAggregateRoot e;
     ent_properties := ent_properties e ++ [p] |}.

Definition setAggregateRoot (e : CMLEntity) : CMLEntity :=
  {| ent_name := ent_name e; ent_isAggregateRoot := true;
     ent_properties := ent_properties e |}.

Definition pushValueObjectProperty (p : CMLProperty) (v : CMLValueObject)
  : CMLValueObject :=
  {| vo_name := vo_name v; vo_properties := vo_properties v ++ [p] |}.

Definition pushValues (vs : list string) (n : CMLEnum) : CMLEnum :=
  {| enum_name := enum_name n; enum_values := enum_values n ++ vs |}.

(** The update of the object a cursor points to; nothing when it is null. *)
Definition updateAt {A} (cursor : option ref) (f : A -> A) (heap : list A)
  : list A :=
  match cursor with
  | Some r => alter f r heap
  | None => heap
  end.

(** *** One iteration of the loop, branch by branch *)

(** Lines 59-67. *)
Definition openBoundedContext (line : string) (st : ParserState)
  : ParserState :=
  let name := declaredName "BoundedContext" line in
  {| st_boundedContexts :=
       st_boundedContexts st ++ [{| co_name := name; co_aggregates := [] |}];
     heapAggregates := heapAggregates st;
     heapEntities := heapEntities st;
     heapValueObjects := heapValueObjects st;
     heapEnums := heapEnums st;
     currentBoundedContext := Some (List.length (st_boundedContexts st));
     currentAggregate := currentAggregate st;
     currentEntity := currentEntity st;
     currentValueObject := currentValueObject st;
     currentEnum := currentEnum st |}.

(** Lines 70-82. *)
Definition openAggregate (line : string) (st : ParserState) : ParserState :=
  let name := declaredName "Aggregate" line in
  let a := List.length (heapAggregates st) in
  {| st_boundedContexts :=
       updateAt (currentBoundedContext st) (pushAggregate a)
         (st_boundedContexts st);
     heapAggregates :=
       heapAggregates st ++
       [{| ao_name := name; ao_entities := []; ao_valueObjects := [];
           ao_enums := [] |}];
     heapEntities := heapEntities st;
     heapValueObjects := heapValueObjects st;
     heapEnums := heapEnums st;
     currentBoundedContext := currentBoundedContext st;
     currentAggregate := Some a;
     currentEntity := currentEntity st;
     currentValueObject := currentValueObject st;
     currentEnum := currentEnum st |}.

(** Lines 85-96. *)
Definition openEntity (line : string) (st : ParserState) : ParserState :=
  let name := declaredName "Entity" line in
  let e := List.length (heapEntities st) in
  {| st_boundedContexts := st_boundedContexts st;
     heapAggregates :=
       updateAt (currentAggregate st) (pushEntity e) (heapAggregates st);
     heapEntities :=
       heapEntities st ++
       [{| ent_name := name; ent_isAggregateRoot := false;
           ent_properties := [] |}];
     heapValueObjects := heapValueObjects st;
     heapEnums := heapEnums st;
     currentBoundedContext := currentBoundedContext st;
     currentAggregate := currentAggregate st;
     currentEntity := Some e;
     currentValueObject := currentValueObject st;
     currentEnum := currentEnum st |}.

(** Lines 99-109. *)
Definition openValueObject (line : string) (st : ParserState) : ParserState :=
  let name := declaredName "ValueObject" line in
  let v := List.length (heapValueObjects st) in
  {| st_boundedContexts := st_boundedContexts st;
     heapAggregates :=
       updateAt (currentAggregate st) (pushValueObject v) (heapAggregates st);
     heapEntities := heapEntities st;
     heapValueObjects :=
       heapValueObjects st ++ [{| vo_name := name; vo_properties := [] |}];
     heapEnums := heapEnums st;
     currentBoundedContext := currentBoundedContext st;
     currentAggregate := currentAggregate st;
     currentEntity := currentEntity st;
     currentValueObject := Some v;
     currentEnum := currentEnum st |}.

(** Lines 112-122. *)
Definition openEnum (line : string) (st : ParserState) : ParserState :=
  let name := declaredName "enum" line in
  let n := List.length (heapEnums st) in
  {| st_boundedContexts := st_boundedContexts st;
     heapAggregates :=
       updateAt (currentAggregate st) (pushEnum n) (heapAggregates st);
     heapEntities := heapEntities st;
     heapValueObjects := heapValueObjects st;
     heapEnums := heapEnums st ++ [{| enum_name := name; enum_values := [] |}];
     currentBoundedContext := currentBoundedContext st;
     currentAggregate := currentAggregate st;
     currentEntity := currentEntity st;
     currentValueObject := currentValueObject st;
     currentEnum := Some n |}.

(** Lines 125-141: three independent [if]s, each resetting one cursor.  The
    look-ahead that follows them has an empty body and changes nothing. *)
Definition closeBrace (st : ParserState) : ParserState :=
  {| st_boundedContexts := st_boundedContexts st;
     heapAggregates := heapAggregates st;
     heapEntities := heapEntities st;
     heapValueObjects := heapValueObjects st;
     heapEnums := heapEnums st;
     currentBoundedContext := currentBoundedContext st;
     currentAggregate := currentAggregate st;
     currentEntity := match currentEntity st with Some _ => None | None => None end;
     currentValueObject :=
       match currentValueObject st with Some _ => None | None => None end;
     currentEnum := match currentEnum st with Some _ => None | None => None end |}.

(** Lines 146-159: the labels a line contributes to the open enumeration. *)
Definition enumValuesOfLine (line : string) : list string :=
  let cleanLine := trim (stripComment line) in
  if truthy cleanLine && negb (String.eqb cleanLine "}")
     && negb (startsWith "enum " cleanLine)
  then
    if includes "," cleanLine
    then
      filter (fun v => truthy v && negb (String.eqb v "}") = true)
        (map (fun v => trim (stripSeparatorTail (trim v)))
           (splitChar "," cleanLine))
    else
      let value := trim (stripSeparatorTail cleanLine) in
      if truthy value && negb (String.eqb value "}")
         && negb (includes "enum" value)
      then [value] else []
  else [].

(** Lines 144-161. *)
Definition enumValuesLine (line : string) (st : ParserState) : ParserState :=
  {| st_boundedContexts := st_boundedContexts st;
     heapAggregates := heapAggregates st;
     heapEntities := heapEntities st;
     heapValueObjects := heapValueObjects st;
     heapEnums :=
       updateAt (currentEnum st) (pushValues (enumValuesOfLine line))
         (heapEnums st);
     currentBoundedContext := currentBoundedContext st;
     currentAggregate := currentAggregate st;
     currentEntity := currentEntity st;
     currentValueObject := currentValueObject st;
     currentEnum := currentEnum st |}.

(** Lines 164-167. *)
Definition markAggregateRoot (st : ParserState) : ParserState :=
  {| st_boundedContexts := st_boundedContexts st;
     heapAggregates := heapAggregates st;
     heapEntities := updateAt (currentEntity st) setAggregateRoot (heapEntities st);
     heapValueObjects := heapValueObjects st;
     heapEnums := heapEnums st;
     currentBoundedContext := currentBoundedContext st;
     currentAggregate := currentAggregate st;
     currentEntity := currentEntity st;
     currentValueObject := currentValueObject st;
     currentEnum := currentEnum st |}.

(** Lines 170-182: the line goes to the open entity and, independently, to
    the open value object. *)
Definition propertyLine (line : string) (st : ParserState) : ParserState :=
  let forEntity :=
    if truthy line && bool_decide (is_Some (currentEntity st))
    then parseProperty line else None in
  let forValueObject :=
    if truthy line && bool_decide (is_Some (currentValueObject st))
    then parseProperty line else None in
  {| st_boundedContexts := st_boundedContexts st;
     heapAggregates := heapAggregates st;
     heapEntities :=
       match forEntity with
       | Some p => updateAt (currentEntity st) (pushEntityProperty p)
                     (heapEntities st)
       | None => heapEntities st
       end;
     heapValueObjects :=
       match forValueObject with
       | Some p => updateAt (currentValueObject st) (pushValueObjectProperty p)
                     (heapValueObjects st)
       | None => heapValueObjects st
       end;
     heapEnums := heapEnums st;
     currentBoundedContext := currentBoundedContext st;
     currentAggregate := currentAggregate st;
     currentEntity := currentEntity st;
     currentValueObject := currentValueObject st;
     currentEnum := currentEnum st |}.

(** [line === '}' || line.endsWith('}')]. *)
Definition isClosingLine (line : string) : bool :=
  String.eqb line "}" || endsWithChar "}" line.

(** The body of the [for] loop (lines 56-182): the first test that holds
    decides, in the order of the source. *)
Definition step (st : ParserState) (line : string) : ParserState :=
  if startsWith "BoundedContext " line then openBoundedContext line st
  else if startsWith "Aggregate " line then openAggregate line st
  else if startsWith "Entity " line then openEntity line st
  else if startsWith "ValueObject " line then openValueObject line st
  else if startsWith "enum " line then openEnum line st
  else if isClosingLine line then closeBrace st
  else if truthy line && bool_decide (is_Some (currentEnum st))
       then enumValuesLine line st
  else if String.eqb line "aggregateRoot"
          && bool_decide (is_Some (currentEntity st))
       then markAggregateRoot st
  else propertyLine line st.

(** Line 46: the logical lines. *)
Definition logicalLines (content : string) : list string :=
  filter (fun line => truthy line && negb (startsWith "//" line) = true)
    (map trim (splitChar "010" content)).

Definition run (st : ParserState) (lines : list string) : ParserState :=
  fold_left step lines st.

(** *** The returned tree

    [return { boundedContexts }] hands out the context objects; what the
    caller sees is what can be reached from them. *)
Definition deref {A} (heap : list A) (refs : list ref) : list A :=
  omap (fun r => heap !! r) refs.

Definition freezeAggregate (st : ParserState) (a : AggregateObj)
  : CMLAggregate :=
  {| agg_name := ao_name a;
     agg_entities := deref (heapEntities st) (ao_entities a);
     agg_valueObjects := deref (heapValueObjects st) (ao_valueObjects a);
     agg_enums := deref (heapEnums st) (ao_enums a) |}.

Definition freezeContext (st : ParserState) (c : ContextObj)
  : CMLBoundedContext :=
  {| bc_name := co_name c;
     bc_aggregates :=
       map (freezeAggregate st) (deref (heapAggregates st) (co_aggregates c)) |}.

Definition freeze (st : ParserState) : CMLModel :=
  {| boundedContexts := map (freezeContext st) (st_boundedContexts st) |}.

Definition parseCML (content : string) : CMLModel :=
  freeze (run initialState (logicalLines content)).

End CmlParser.

(** ** The code generator ([php-generator.ts], lines 537-1250) *)

(** User-supplied regular expressions are the one thing the generator runs
    that is not fixed by its source: [new RegExp(p)] either throws a
    [SyntaxError] or yields an object with [test] and, through
    [String.prototype.replace] with the empty replacement, the removal of the
    first match. *)
Class RegExpEngine := {
  RegExp : Type;
  newRegExp : string -> option RegExp;
  regexTest : RegExp -> string -> bool;
  removeFirstMatch : RegExp -> string -> string
}.

Module PhpGenerator.

Import Js.

Inductive Framework := Laravel | Doctrine | Plain.
Inductive ConstructorType := CtNone | CtRequired | CtAll.
Inductive DirectoryStructure := DsFlat | DsBoundedContext | DsAggregate | DsPsr4.
Inductive PhpVersion := V8_1 | V8_2 | V8_3 | V8_4.
Inductive TypeFolder := TfEnum | TfValueObject | TfEntity.
Inductive FileType := FtEnum | FtValueObject | FtEntity.

#[global] Instance Framework_eq_dec : EqDecision Framework.
Proof. solve_decision. Defined.
#[global] Instance ConstructorType_eq_dec : EqDecision ConstructorType.
Proof. solve_decision. Defined.
#[global] Instance DirectoryStructure_eq_dec : EqDecision DirectoryStructure.
Proof. solve_decision. Defined.
#[global] Instance TypeFolder_eq_dec : EqDecision TypeFolder.
Proof. solve_decision. Defined.
#[global] Instance FileType_eq_dec : EqDecision FileType.
Proof. solve_decision. Defined.

Record RegexPatternMapping := {
  pattern : string;
  typeFolder : option TypeFolder;
  subfolder : string;
  nameReplace : option string
}.

(** An optional field is [None] when it is [undefined]. *)
Record GeneratorConfig := {
  framework : Framework;
  publicProperties : bool;
  addGetters : bool;
  addSetters : bool;
  namespace : option string;
  constructorType : ConstructorType;
  constructorPropertyPromotion : bool;
  doctrineCollectionDocstrings : option bool;
  doctrineAttributes : option bool;
  arrayDocstrings : option bool;
  directoryStructure : option DirectoryStructure;
  groupByType : option bool;
  phpVersion : option PhpVersion;
  readonlyValueObjects : option bool;
  regexPatternMappings : option (list RegexPatternMapping)
}.

(** The truthiness of an optional boolean. *)
Definition isTrue (b : option bool) : bool :=
  match b with Some true => true | _ => false end.

(** [b !== false]. *)
Definition notFalse (b : option bool) : bool :=
  match b with Some false => false | _ => true end.

(** *** What the builder of [js-php-generator] is told

    The generator describes each file through the builder objects of the
    library and has the library's [Printer] render them.  The records below
    list what the builder is told, each list in the order of the calls: one
    entry of [cls_properties] for each [addProperty], of [cls_methods] for
    each [addMethod], of [m_params] for each [addParameter] or
    [addPromotedParameter], of [pe_cases] for each [addCase]; a setter is
    recorded in the attribute it sets.  How the library keeps, orders and
    prints what it is told is its own matter and is not recorded. *)

Inductive Visibility := Public | Private.

Record PhpParameter := {
  param_name : string;
  param_promoted : bool;
  param_type : string;
  param_nullable : bool;
  param_visibility : option Visibility;
  param_readOnly : bool;
  param_comments : list string
}.

Record PhpProperty := {
  pp_name : string;
  pp_visibility : Visibility;
  pp_type : string;
  pp_nullable : bool;
  pp_readOnly : bool;
  pp_comments : list string;
  pp_attributes : list (string * list string)
}.

Record PhpMethod := {
  m_name : string;
  m_visibility : Visibility;
  m_params : list PhpParameter;
  m_returnType : option string;
  m_returnNullable : bool;
  m_comments : list string;
  m_body : option string
}.

Record PhpClass := {
  cls_name : string;
  cls_namespace : string;
  cls_final : bool;
  cls_readOnly : bool;
  cls_extends : option string;
  cls_comments : list string;
  cls_attributes : list (string * list string);
  cls_properties : list PhpProperty;
  cls_methods : list PhpMethod
}.

Record PhpEnum := {
  pe_name : string;
  pe_namespace : string;
  pe_type : string;
  pe_cases : list (string * string)
}.

(** The calls made for one file, up to [printer.printFile]. *)
Inductive PhpFile :=
| EnumFile (e : PhpEnum)
| ClassFile (c : PhpClass).

(** *** Calls that throw

    A call of the library may throw instead of returning: [addClass] and
    [addEnum] on a name they do not take, such as the empty name or a
    reserved word, and [addProperty], [addMethod] and [addCase] on a name
    their owner holds already.  The generator catches none of this, so the
    function that makes the call throws as well, and so does its caller. *)
Inductive Outcome (A : Type) :=
| Returns (a : A)
| Throws.

Arguments Returns {A} a.
Arguments Throws {A}.

Definition andThen {A B} (o : Outcome A) (k : A -> Outcome B) : Outcome B :=
  match o with
  | Returns a => k a
  | Throws => Throws
  end.

Notation "x <- o ;; k" := (andThen o (fun x => k))
  (at level 100, o at next level, right associativity).

(** A loop that handles the elements in turn and collects what it gets; it
    throws as soon as one element does. *)
Fixpoint forEach {A B} (f : A -> Outcome B) (l : list A) : Outcome (list B) :=
  match l with
  | [] => Returns []
  | x :: rest => y <- f x ;; ys <- forEach f rest ;; Returns (y :: ys)
  end.

(** What the library accepts is a parameter of the embedding: [builds file]
    says that the library carries out every call recorded in [file] and
    prints the result.  Of the library it is only taken for granted that it
    refuses a class or an enumeration without a name and a second case,
    property or method of one name. *)
Class PhpBuilder := {
  builds : PhpFile -> bool;
  builds_enum_name : forall e,
    builds (EnumFile e) = true -> pe_name e <> "";
  builds_class_name : forall c,
    builds (ClassFile c) = true -> cls_name c <> "";
  builds_cases : forall e,
    builds (EnumFile e) = true -> NoDup (map fst (pe_cases e));
  builds_properties : forall c,
    builds (ClassFile c) = true -> NoDup (map pp_name (cls_properties c));
  builds_methods : forall c,
    builds (ClassFile c) = true -> NoDup (map m_name (cls_methods c))
}.

(** The calls of a file carried out and printed, or the throw of the first
    call the library refuses. *)
Definition printFile `{PhpBuilder} (file : PhpFile) : Outcome PhpFile :=
  if builds file then Returns file else Throws.

Record GeneratedFile := {
  filename : string;
  path : string;
  content : PhpFile;
  type : FileType
}.

Definition nl : string := String "010" EmptyString.
Definition backslash : string := String "092" EmptyString.

(** *** Paths and names (lines 646-734) *)

Definition getDirectoryPath (boundedContextName aggregateName : string)
  (structure : DirectoryStructure) : string :=
  match structure with
  | DsFlat => ""
  | DsBoundedContext => boundedContextName
  | DsAggregate => boundedContextName +:+ "/" +:+ aggregateName
  | DsPsr4 => boundedContextName +:+ "/" +:+ aggregateName
  end.

Record MappingResult := {
  mr_subfolder : string;
  mr_nameReplace : option string
}.

Section WithRegExp.

Context `{RegExpEngine}.

(** Lines 673-704.  A rule is passed over when its kind filter names
    another kind, when its pattern or its subfolder is empty, when its
    pattern does not compile, and when it does not match. *)
Fixpoint getSubfolderForFile (filename : string) (fileType : TypeFolder)
  (mappings : list RegexPatternMapping) : MappingResult :=
  match mappings with
  | [] => {| mr_subfolder := ""; mr_nameReplace := None |}
  | mapping :: rest =>
      if match typeFolder mapping with
         | Some t => negb (bool_decide (t = fileType))
         | None => false
         end
      then getSubfolderForFile filename fileType rest
      else if negb (truthy (pattern mapping)) || negb (truthy (subfolder mapping))
      then getSubfolderForFile filename fileType rest
      else
        match newRegExp (pattern mapping) with
        | Some regex =>
            if regexTest regex filename
            then {| mr_subfolder := subfolder mapping;
                    mr_nameReplace := nameReplace mapping |}
            else getSubfolderForFile filename fileType rest
        | None => getSubfolderForFile filename fileType rest
        end
  end.

(** Lines 706-719. *)
Definition applyNameReplace (filename : string) (nameReplace : option string)
  : string :=
  match nameReplace with
  | None => filename
  | Some nr =>
      if negb (truthy nr) then filename
      else match newRegExp nr with
           | Some regex => removeFirstMatch regex filename
           | None => filename
           end
  end.

End WithRegExp.

(** [/\/+$/] at the head of [s]: slashes up to the end. *)
Definition matchTrailingSlashes (s : string) : option nat :=
  match s with
  | String c _ =>
      if allChars (fun d => Ascii.eqb d "/") s then Some (String.length s)
      else None
  | EmptyString => None
  end.

(** Lines 721-727. *)
Definition buildFilePath (basePath typeFolder subfolder filename : string)
  : string :=
  let cleanTypeFolder := replaceFirst matchTrailingSlashes "" typeFolder in
  let cleanSubfolder := replaceFirst matchTrailingSlashes "" subfolder in
  let parts :=
    filter (fun p => truthy p = true)
      [basePath; cleanTypeFolder; cleanSubfolder; filename] in
  join "/" parts.

(** [str.replace(/([A-Z])/g, '_$1')]. *)
Fixpoint underscoreCapitals (s : string) : string :=
  match s with
  | EmptyString => EmptyString
  | String c s' =>
      let n := nat_of_ascii c in
      if (65 <=? n) && (n <=? 90)
      then String "_" (String c (underscoreCapitals s'))
      else String c (underscoreCapitals s')
  end.

(** Lines 729-734. *)
Definition toSnakeCase (str : string) : string :=
  match toLowerCase (underscoreCapitals str) with
  | String c rest => if Ascii.eqb c "_" then rest else String c rest
  | EmptyString => EmptyString
  end.

(** Lines 1124-1137. *)
Definition buildNamespace (config : GeneratorConfig)
  (boundedContextName aggregateName : string) : string :=
  let ns := orElse (default "" (namespace config)) ("App" +:+ backslash +:+ "Models") in
  let ds := default DsFlat (directoryStructure config) in
  if (bool_decide (ds = DsPsr4) || bool_decide (ds = DsAggregate))
     && truthy boundedContextName && truthy aggregateName
  then ns +:+ backslash +:+ boundedContextName +:+ backslash +:+ aggregateName
  else if bool_decide (ds = DsBoundedContext) && truthy boundedContextName
  then ns +:+ backslash +:+ boundedContextName
  else ns.

(** *** Types (lines 1199-1250) *)

Definition doctrineCollection : string :=
  "Doctrine" +:+ backslash +:+ "Common" +:+ backslash +:+ "Collections"
  +:+ backslash +:+ "Collection".

Definition eloquentCollection : string :=
  "Illuminate" +:+ backslash +:+ "Database" +:+ backslash +:+ "Eloquent"
  +:+ backslash +:+ "Collection".

Definition dateTime : string := backslash +:+ "DateTime".

(** The table of primitive types shared by every version of [mapTypeToPHP]. *)
Definition primitiveType (lowerType : string) : option string :=
  if String.eqb lowerType "string" then Some "string"
  else if String.eqb lowerType "int" || String.eqb lowerType "integer"
  then Some "int"
  else if String.eqb lowerType "bool" || String.eqb lowerType "boolean"
  then Some "bool"
  else if String.eqb lowerType "float" || String.eqb lowerType "double"
  then Some "float"
  else if String.eqb lowerType "datetime" then Some dateTime
  else if String.eqb lowerType "date" then Some dateTime
  else if String.eqb lowerType "clob" then Some "string"
  else None.

(** [!prop.type || prop.type.trim() === '']. *)
Definition isBlank (t : string) : bool :=
  negb (truthy t) || String.eqb (trim t) "".

(** Lines 1199-1230: collections are looked at before the primitives. *)
Definition mapTypeToPHP (config : GeneratorConfig) (prop : CMLProperty)
  : string :=
  if isBlank (prop_type prop) then "mixed"
  else if prop_isCollection prop then
    if prop_isRelation prop then
      match framework config with
      | Doctrine => doctrineCollection
      | Laravel => eloquentCollection
      | Plain => "array"
      end
    else "array"
  else
    match primitiveType (toLowerCase (prop_type prop)) with
    | Some t => t
    | None => prop_type prop
    end.

(** Lines 1232-1242. *)
Definition mapDoctrineType (t : string) : string :=
  let lowerType := toLowerCase t in
  if String.eqb lowerType "string" then "string"
  else if String.eqb lowerType "int" || String.eqb lowerType "integer"
  then "integer"
  else if String.eqb lowerType "bool" || String.eqb lowerType "boolean"
  then "boolean"
  else if String.eqb lowerType "float" || String.eqb lowerType "double"
  then "float"
  else if String.eqb lowerType "datetime" then "datetime"
  else if String.eqb lowerType "date" then "date"
  else if String.eqb lowerType "clob" then "text"
  else "string".

(** Lines 1244-1246: [str.charAt(0).toUpperCase() + str.slice(1)].  The
    upper case of the sharp s (code unit 223) is two letters.  The upper
    case of the code units 181 and 255 lies outside the code units of the
    embedding, which keeps them as they are. *)
Definition capitalize (str : string) : string :=
  match str with
  | String c rest =>
      if Ascii.eqb c "223" then "SS" +:+ rest
      else String (toUpperChar c) rest
  | EmptyString => EmptyString
  end.

Definition getInversePropertyName (entityName : string) : string :=
  toSnakeCase entityName.

(** *** Helpers of the emitters (lines 1139-1197) *)

Inductive DocType := DocVar | DocReturn | DocParam.

(** Lines 1139-1169: the comments [addCollectionDocstring] adds to its
    target, none or one. *)
Definition addCollectionDocstring (prop : CMLProperty) (docType : DocType)
  (config : GeneratorConfig) : list string :=
  if negb (prop_isCollection prop) then []
  else
    let arrayDoc :=
      match docType with
      | DocParam => "@param array<int, " +:+ prop_type prop +:+ "> $"
                    +:+ prop_name prop
      | DocReturn => "@return array<int, " +:+ prop_type prop +:+ ">"
      | DocVar => "@var array<int, " +:+ prop_type prop +:+ ">"
      end in
    match framework config with
    | Doctrine =>
        if prop_isRelation prop && isTrue (doctrineCollectionDocstrings config)
        then
          [match docType with
           | DocParam => "@param " +:+ backslash +:+ doctrineCollection
                         +:+ "<array-key, " +:+ prop_type prop +:+ "> $"
                         +:+ prop_name prop
           | DocReturn => "@return " +:+ backslash +:+ doctrineCollection
                          +:+ "<array-key, " +:+ prop_type prop +:+ ">"
           | DocVar => "@var " +:+ backslash +:+ doctrineCollection
                       +:+ "<array-key, " +:+ prop_type prop +:+ ">"
           end]
        else if negb (prop_isRelation prop) && isTrue (arrayDocstrings config)
        then [arrayDoc]
        else []
    | Plain => if isTrue (arrayDocstrings config) then [arrayDoc] else []
    | Laravel => []
    end.

(** [parseFloat(config.phpVersion) >= 8.2]. *)
Definition atLeast82 (v : PhpVersion) : bool :=
  match v with V8_1 => false | _ => true end.

(** Lines 1181-1188: readonly on each property, for version 8.1 only. *)
Definition shouldApplyReadonlyProperty (config : GeneratorConfig) : bool :=
  bool_decide (readonlyValueObjects config = Some true)
  && match phpVersion config with
     | Some v => negb (atLeast82 v)
     | None => false
     end.

(** Lines 1190-1196. *)
Definition setVisibility (isPublic : bool) : Visibility :=
  if isPublic then Public else Private.

(** [addParameter] or [addPromotedParameter] followed by [setupParameter]
    (lines 1171-1179) and, for a promoted parameter, by what the caller sets
    on it. *)
Definition constructorParameter (config : GeneratorConfig) (readonly : bool)
  (prop : CMLProperty) : PhpParameter :=
  {| param_name := prop_name prop;
     param_promoted := constructorPropertyPromotion config;
     param_type := mapTypeToPHP config prop;
     param_nullable := prop_nullable prop;
     param_visibility :=
       if constructorPropertyPromotion config
       then Some (setVisibility (publicProperties config))
       else None;
     param_readOnly := constructorPropertyPromotion config && readonly;
     param_comments := addCollectionDocstring prop DocVar config |}.

Definition assignment (prop : CMLProperty) : string :=
  "$this->" +:+ prop_name prop +:+ " = $" +:+ prop_name prop +:+ ";" +:+ nl.

(** The getter of a property, as both class emitters build it. *)
Definition getter (config : GeneratorConfig) (prop : CMLProperty) : PhpMethod :=
  {| m_name := "get" +:+ capitalize (prop_name prop);
     m_visibility := Public;
     m_params := [];
     m_returnType := Some (mapTypeToPHP config prop);
     m_returnNullable := prop_nullable prop;
     m_comments := addCollectionDocstring prop DocReturn config;
     m_body := Some ("return $this->" +:+ prop_name prop +:+ ";") |}.

(** The setter of a property, as both class emitters build it. *)
Definition setter (config : GeneratorConfig) (prop : CMLProperty) : PhpMethod :=
  {| m_name := "set" +:+ capitalize (prop_name prop);
     m_visibility := Public;
     m_params :=
       [{| param_name := prop_name prop;
           param_promoted := false;
           param_type := mapTypeToPHP config prop;
           param_nullable := prop_nullable prop;
           param_visibility := None;
           param_readOnly := false;
           param_comments := [] |}];
     m_returnType := Some "self";
     m_returnNullable := false;
     m_comments := addCollectionDocstring prop DocParam config;
     m_body := Some ("$this->" +:+ prop_name prop +:+ " = $" +:+ prop_name prop
                     +:+ ";" +:+ nl +:+ nl +:+ "return $this;") |}.

(** [promotedProperties.has(prop.name)]. *)
Definition hasName (names : list string) (n : string) : bool :=
  existsb (String.eqb n) names.

(** [if (constructorBody) constructor.setBody(constructorBody)]. *)
Definition bodyIfAny (b : string) : option string :=
  if truthy b then Some b else None.

(** *** [generateEnum] (lines 736-776) *)

(** Lines 766-771. *)
Definition enumCase (value : string) : string * string :=
  let cleanValue :=
    toUpperCase (mapChars (fun c => if isWord c then c else "_"%char) value) in
  let stringValue := cleanValue in
  (cleanValue, stringValue).

(** The calls on the enumeration: [addEnum], [setType] and one [addCase]
    for each label in turn. *)
Definition generateEnumType (enumDef : CMLEnum) (config : GeneratorConfig)
  (boundedContextName aggregateName nameOverride : string) : PhpEnum :=
  {| pe_name := orElse nameOverride (enum_name enumDef);
     pe_namespace := buildNamespace config boundedContextName aggregateName;
     pe_type := "string";
     pe_cases := map enumCase (enum_values enumDef) |}.

Definition generateEnum `{PhpBuilder} (enumDef : CMLEnum)
  (config : GeneratorConfig)
  (boundedContextName aggregateName nameOverride : string)
  : Outcome PhpFile :=
  printFile
    (EnumFile
       (generateEnumType enumDef config boundedContextName aggregateName
          nameOverride)).

(** *** [generateValueObject] (lines 778-898) *)

Definition voEffectiveConstructorType (config : GeneratorConfig)
  : ConstructorType :=
  if isTrue (readonlyValueObjects config) then CtAll else constructorType config.

Definition voPropertiesForConstructor (valueObject : CMLValueObject)
  (config : GeneratorConfig) : list CMLProperty :=
  match voEffectiveConstructorType config with
  | CtNone => []
  | CtRequired =>
      filter (fun prop => prop_nullable prop = false) (vo_properties valueObject)
  | CtAll => vo_properties valueObject
  end.

Definition voPromotedProperties (valueObject : CMLValueObject)
  (config : GeneratorConfig) : list string :=
  if constructorPropertyPromotion config
     && negb (bool_decide (voEffectiveConstructorType config = CtNone))
  then map prop_name (voPropertiesForConstructor valueObject config)
  else [].

(** Lines 817-834. *)
Definition voProperty (config : GeneratorConfig) (prop : CMLProperty)
  : PhpProperty :=
  {| pp_name := prop_name prop;
     pp_visibility := setVisibility (publicProperties config);
     pp_type := mapTypeToPHP config prop;
     pp_nullable := prop_nullable prop;
     pp_readOnly := shouldApplyReadonlyProperty config;
     pp_comments := addCollectionDocstring prop DocVar config;
     pp_attributes := [] |}.

(** Lines 836-868. *)
Definition voConstructor (valueObject : CMLValueObject)
  (config : GeneratorConfig) : list PhpMethod :=
  if negb (bool_decide (voEffectiveConstructorType config = CtNone))
     && (0 <? List.length (vo_properties valueObject))
  then
    let props := voPropertiesForConstructor valueObject config in
    let constructorBody :=
      if constructorPropertyPromotion config then ""
      else String.concat "" (map assignment props) in
    [{| m_name := "__construct";
        m_visibility := Public;
        m_params :=
          map (constructorParameter config (shouldApplyReadonlyProperty config))
            props;
        m_returnType := None;
        m_returnNullable := false;
        m_comments := [];
        m_body := bodyIfAny constructorBody |}]
  else [].

(** Lines 870-894: a getter, then a setter, for each property in turn. *)
Definition voAccessors (valueObject : CMLValueObject)
  (config : GeneratorConfig) : list PhpMethod :=
  flat_map
    (fun prop =>
       (if addGetters config then [getter config prop] else [])
       ++ (if addSetters config && negb (isTrue (readonlyValueObjects config))
           then [setter config prop] else []))
    (vo_properties valueObject).

(** The calls on the class of a value object, from [addClass] on. *)
Definition generateValueObjectClass (valueObject : CMLValueObject)
  (config : GeneratorConfig)
  (boundedContextName aggregateName nameOverride : string) : PhpClass :=
  {| cls_name := orElse nameOverride (vo_name valueObject);
     cls_namespace := buildNamespace config boundedContextName aggregateName;
     cls_final := true;
     cls_readOnly :=
       isTrue (readonlyValueObjects config)
       && match phpVersion config with
          | Some v => atLeast82 v
          | None => false
          end;
     cls_extends := None;
     cls_comments := [];
     cls_attributes := [];
     cls_properties :=
       map (voProperty config)
         (filter
            (fun prop =>
               hasName (voPromotedProperties valueObject config)
                 (prop_name prop) = false)
            (vo_properties valueObject));
     cls_methods :=
       voConstructor valueObject config ++ voAccessors valueObject config |}.

Definition generateValueObject `{PhpBuilder} (valueObject : CMLValueObject)
  (config : GeneratorConfig)
  (boundedContextName aggregateName nameOverride : string)
  : Outcome PhpFile :=
  printFile
    (ClassFile
       (generateValueObjectClass valueObject config boundedContextName
          aggregateName nameOverride)).

(** *** [generateEntity] (lines 900-1122) *)

Definition ormMapping (n : string) : string :=
  "Doctrine" +:+ backslash +:+ "ORM" +:+ backslash +:+ "Mapping"
  +:+ backslash +:+ n.

Definition eloquent (n : string) : string :=
  "Illuminate" +:+ backslash +:+ "Database" +:+ backslash +:+ "Eloquent"
  +:+ backslash +:+ n.

Definition isLaravelRelation (config : GeneratorConfig) (prop : CMLProperty)
  : bool :=
  prop_isRelation prop && bool_decide (framework config = Laravel).

(** Lines 926-930. *)
Definition entityPropertiesForConstructor (entity : CMLEntity)
  (config : GeneratorConfig) : list CMLProperty :=
  if negb (bool_decide (constructorType config = CtNone))
  then filter (fun prop => isLaravelRelation config prop = false)
         (ent_properties entity)
  else [].

(** Lines 932-935. *)
Definition entityPropertiesToInclude (entity : CMLEntity)
  (config : GeneratorConfig) : list CMLProperty :=
  if bool_decide (constructorType config = CtRequired)
  then filter (fun prop => prop_nullable prop = false)
         (entityPropertiesForConstructor entity config)
  else entityPropertiesForConstructor entity config.

(** Lines 938-942. *)
Definition entityPromotedProperties (entity : CMLEntity)
  (config : GeneratorConfig) : list string :=
  if constructorPropertyPromotion config
     && negb (bool_decide (constructorType config = CtNone))
  then map prop_name (entityPropertiesToInclude entity config)
  else [].

(** Lines 956-1006: one declared property with its decorations. *)
Definition entityProperty (entity : CMLEntity) (config : GeneratorConfig)
  (prop : CMLProperty) : PhpProperty :=
  let doc := addCollectionDocstring prop DocVar config in
  let base (t : string) (comments : list string)
      (attributes : list (string * list string)) :=
    {| pp_name := prop_name prop;
       pp_visibility := setVisibility (publicProperties config);
       pp_type := t;
       pp_nullable := prop_nullable prop;
       pp_readOnly := false;
       pp_comments := comments;
       pp_attributes := attributes |} in
  let phpType := mapTypeToPHP config prop in
  match framework config with
  | Laravel =>
      base phpType doc
        (if String.eqb (prop_name prop) "id"
         then [(eloquent ("Casts" +:+ backslash +:+ "Attribute"), [])]
         else [])
  | Doctrine =>
      if notFalse (doctrineAttributes config) then
        if prop_isRelation prop then
          if prop_isCollection prop then
            base doctrineCollection (doc ++ doc)
              [(ormMapping "OneToMany",
                ["targetEntity: " +:+ prop_type prop +:+ "::class";
                 "mappedBy: '" +:+ getInversePropertyName (ent_name entity)
                 +:+ "'"])]
          else
            base phpType doc
              [(ormMapping "ManyToOne",
                ["targetEntity: " +:+ prop_type prop +:+ "::class"])]
        else if prop_isCollection prop then
          base phpType doc
            [(ormMapping "Column",
              ["type: 'json'"; "nullable: " +:+ showBool (prop_nullable prop)])]
        else
          base phpType doc
            [(ormMapping "Column",
              ["type: '" +:+ mapDoctrineType (prop_type prop) +:+ "'";
               "nullable: " +:+ showBool (prop_nullable prop)])]
      else if prop_isCollection prop && prop_isRelation prop
      then base doctrineCollection (doc ++ doc) []
      else base phpType doc []
  | Plain => base phpType doc []
  end.

Definition arrayCollectionInit (prop : CMLProperty) : string :=
  "$this->" +:+ prop_name prop +:+ " = new " +:+ backslash +:+ "Doctrine"
  +:+ backslash +:+ "Common" +:+ backslash +:+ "Collections" +:+ backslash
  +:+ "ArrayCollection();" +:+ nl.

Definition arrayInit (prop : CMLProperty) : string :=
  "$this->" +:+ prop_name prop +:+ " = [];" +:+ nl.

(** Lines 1017-1026 and 1057-1063: the initialisation of the collections;
    [skip] names the properties that are constructor parameters anyway. *)
Definition collectionInits (skip : list string) (props : list CMLProperty)
  : string :=
  String.concat ""
    (map (fun prop =>
            if prop_isCollection prop && prop_isRelation prop
            then arrayCollectionInit prop
            else if prop_isCollection prop && negb (prop_isRelation prop)
                    && negb (hasName skip (prop_name prop))
            then arrayInit prop
            else "")
       props).

(** Lines 1010-1066. *)
Definition entityConstructor (entity : CMLEntity) (config : GeneratorConfig)
  : list PhpMethod :=
  if negb (bool_decide (constructorType config = CtNone)) then
    let included := entityPropertiesToInclude entity config in
    let inits :=
      if bool_decide (framework config = Doctrine)
      then collectionInits (map prop_name included) (ent_properties entity)
      else "" in
    let assignments :=
      if constructorPropertyPromotion config then ""
      else String.concat "" (map assignment included) in
    [{| m_name := "__construct";
        m_visibility := Public;
        m_params := map (constructorParameter config false) included;
        m_returnType := None;
        m_returnNullable := false;
        m_comments := [];
        m_body := bodyIfAny (inits +:+ assignments) |}]
  else if bool_decide (framework config = Doctrine)
          && existsb prop_isCollection (ent_properties entity)
  then
    [{| m_name := "__construct";
        m_visibility := Public;
        m_params := [];
        m_returnType := None;
        m_returnNullable := false;
        m_comments := [];
        m_body := Some (collectionInits [] (ent_properties entity)) |}]
  else [].

(** Lines 1068-1096. *)
Definition entityAccessors (entity : CMLEntity) (config : GeneratorConfig)
  : list PhpMethod :=
  flat_map
    (fun prop =>
       if isLaravelRelation config prop then []
       else
         (if addGetters config then [getter config prop] else [])
         ++ (if addSetters config then [setter config prop] else []))
    (ent_properties entity).

(** Lines 1098-1113. *)
Definition relationMethod (prop : CMLProperty) : PhpMethod :=
  {| m_name := prop_name prop;
     m_visibility := Public;
     m_params := [];
     m_returnType :=
       Some (eloquent ("Relations" +:+ backslash +:+
                       (if prop_isCollection prop then "HasMany"
                        else "BelongsTo")));
     m_returnNullable := false;
     m_comments := [];
     m_body :=
       Some ("return $this->" +:+
             (if prop_isCollection prop then "hasMany(" else "belongsTo(")
             +:+ prop_type prop +:+ "::class);") |}.

Definition entityRelationMethods (entity : CMLEntity)
  (config : GeneratorConfig) : list PhpMethod :=
  if bool_decide (framework config = Laravel)
  then map relationMethod
         (filter (fun prop => prop_isRelation prop = true)
            (ent_properties entity))
  else [].

(** The calls on the class of an entity, from [addClass] on. *)
Definition generateEntityClass (entity : CMLEntity) (config : GeneratorConfig)
  (boundedContextName aggregateName nameOverride : string) : PhpClass :=
  {| cls_name := orElse nameOverride (ent_name entity);
     cls_namespace := buildNamespace config boundedContextName aggregateName;
     cls_final := false;
     cls_readOnly := false;
     cls_extends :=
       if bool_decide (framework config = Laravel)
       then Some (eloquent "Model") else None;
     cls_comments :=
       if bool_decide (framework config = Laravel)
       then ["@property-read int $id"] else [];
     cls_attributes :=
       if bool_decide (framework config = Doctrine)
          && notFalse (doctrineAttributes config)
       then [(ormMapping "Entity", []);
             (ormMapping "Table",
              ["name: '" +:+ toSnakeCase (ent_name entity) +:+ "'"])]
       else [];
     cls_properties :=
       map (entityProperty entity config)
         (filter
            (fun prop =>
               isLaravelRelation config prop
               || hasName (entityPromotedProperties entity config)
                    (prop_name prop) = false)
            (ent_properties entity));
     cls_methods :=
       entityConstructor entity config ++ entityAccessors entity config
       ++ entityRelationMethods entity config |}.

Definition generateEntity `{PhpBuilder} (entity : CMLEntity)
  (config : GeneratorConfig)
  (boundedContextName aggregateName nameOverride : string)
  : Outcome PhpFile :=
  printFile
    (ClassFile
       (generateEntityClass entity config boundedContextName aggregateName
          nameOverride)).

(** *** [generatePHP] (lines 574-644) *)

Section Pipeline.

Context `{RegExpEngine} `{PhpBuilder}.

Definition noMapping : MappingResult :=
  {| mr_subfolder := ""; mr_nameReplace := None |}.

(** The rule that applies to a unit, if any (lines 588-590, 606-608,
    624-626). *)
Definition mappingFor (config : GeneratorConfig) (originalName : string)
  (kind : TypeFolder) : MappingResult :=
  match regexPatternMappings config with
  | Some mappings => getSubfolderForFile originalName kind mappings
  | None => noMapping
  end.

(** The record pushed for a unit, given what its emitter returned. *)
Definition fileRecord (config : GeneratorConfig) (directoryPath : string)
  (originalName : string) (kind : TypeFolder) (folder : string)
  (fileType : FileType) (unit : PhpFile) : GeneratedFile :=
  let mappingResult := mappingFor config originalName kind in
  let processedName :=
    applyNameReplace originalName (mr_nameReplace mappingResult) in
  let filename := processedName +:+ ".php" in
  let typeFolder := if default false (groupByType config) then folder else "" in
  let fullPath :=
    buildFilePath directoryPath typeFolder (mr_subfolder mappingResult)
      filename in
  {| filename := filename;
     path := fullPath;
     content := unit;
     type := fileType |}.

(** What the three inner loops share: the rule that applies to a unit, its
    final name, the call of its emitter, which may throw, and the record
    pushed for it. *)
Definition emitUnit (config : GeneratorConfig) (directoryPath : string)
  (originalName : string) (kind : TypeFolder) (folder : string)
  (fileType : FileType) (emit : string -> Outcome PhpFile)
  : Outcome GeneratedFile :=
  let mappingResult := mappingFor config originalName kind in
  let processedName :=
    applyNameReplace originalName (mr_nameReplace mappingResult) in
  unit <- emit processedName ;;
  Returns
    (fileRecord config directoryPath originalName kind folder fileType unit).

(** The body of the loop over the aggregates (lines 581-639). *)
Definition generateAggregate (config : GeneratorConfig)
  (boundedContext : CMLBoundedContext) (aggregate : CMLAggregate)
  : Outcome (list GeneratedFile) :=
  let directoryPath :=
    getDirectoryPath (bc_name boundedContext) (agg_name aggregate)
      (default DsFlat (directoryStructure config)) in
  enums <-
    forEach
      (fun enumDef =>
         emitUnit config directoryPath (enum_name enumDef) TfEnum "Enum/"
           FtEnum
           (generateEnum enumDef config (bc_name boundedContext)
              (agg_name aggregate)))
      (agg_enums aggregate) ;;
  valueObjects <-
    forEach
      (fun valueObject =>
         emitUnit config directoryPath (vo_name valueObject) TfValueObject
           "ValueObject/" FtValueObject
           (generateValueObject valueObject config (bc_name boundedContext)
              (agg_name aggregate)))
      (agg_valueObjects aggregate) ;;
  entities <-
    forEach
      (fun entity =>
         emitUnit config directoryPath (ent_name entity) TfEntity "Entity/"
           FtEntity
           (generateEntity entity config (bc_name boundedContext)
              (agg_name aggregate)))
      (agg_entities aggregate) ;;
  Returns (enums ++ valueObjects ++ entities).

(** Lines 574-644: the files of all aggregates of all contexts, or the throw
    of the first unit the library refuses. *)
Definition generatePHP (model : CMLModel) (config : GeneratorConfig)
  : Outcome (list GeneratedFile) :=
  perContext <-
    forEach
      (fun boundedContext =>
         perAggregate <-
           forEach (generateAggregate config boundedContext)
             (bc_aggregates boundedContext) ;;
         Returns (List.concat perAggregate))
      (boundedContexts model) ;;
  Returns (List.concat perContext).

End Pipeline.

End PhpGenerator.

(** ** The type mapper before the collection fix ([php-generator.ts], lines
    1847-1878)

    The file carries an earlier state of the generator next to the current
    one.  Its [mapTypeToPHP] consults the table of primitives first and only
    then the collection flag, and it does not look at the relation flag. *)

Module EarlierGenerator.

Import Js PhpGenerator.

Definition mapTypeToPHP (config : GeneratorConfig) (prop : CMLProperty)
  : string :=
  if isBlank (prop_type prop) then "mixed"
  else
    match primitiveType (toLowerCase (prop_type prop)) with
    | Some t => t
    | None =>
        if prop_isCollection prop then
          match framework config with
          | Doctrine => doctrineCollection
          | Laravel => eloquentCollection
          | Plain => "array"
          end
        else prop_type prop
    end.

End EarlierGenerator.

(** ** Definitions used to state the properties *)

Module Examples.

Import Js CmlParser PhpGenerator.

Definition lines (ls : list string) : string := join nl ls.

(** Concrete scenario 1 of the design document. *)
Definition scenario1 : string :=
  lines [ "BoundedContext Sales {";
          "  Aggregate Order {";
          "    Entity Order {";
          "      aggregateRoot";
          "      - Set<OrderLine> lines";
          "    }";
          "  }";
          "}" ].

(** Concrete scenario 2 of the design document, in an aggregate. *)
Definition scenario2 : string :=
  lines [ "BoundedContext Sales {";
          "  Aggregate Order {";
          "    enum Status {";
          "      Active, Inactive, pending-review";
          "    }";
          "  }";
          "}" ].

Definition plainConfig : GeneratorConfig :=
  {| framework := Plain; publicProperties := false; addGetters := true;
     addSetters := true; namespace := None; constructorType := CtNone;
     constructorPropertyPromotion := false;
     doctrineCollectionDocstrings := None; doctrineAttributes := None;
     arrayDocstrings := None; directoryStructure := None; groupByType := None;
     phpVersion := None; readonlyValueObjects := None;
     regexPatternMappings := None |}.

Definition doctrineConfig : GeneratorConfig :=
  {| framework := Doctrine; publicProperties := false; addGetters := true;
     addSetters := true; namespace := None; constructorType := CtAll;
     constructorPropertyPromotion := false;
     doctrineCollectionDocstrings := Some true; doctrineAttributes := Some true;
     arrayDocstrings := None; directoryStructure := None; groupByType := None;
     phpVersion := None; readonlyValueObjects := None;
     regexPatternMappings := None |}.

Definition readonlyConfig : GeneratorConfig :=
  {| framework := Plain; publicProperties := false; addGetters := true;
     addSetters := true; namespace := None; constructorType := CtNone;
     constructorPropertyPromotion := false;
     doctrineCollectionDocstrings := None; doctrineAttributes := None;
     arrayDocstrings := None; directoryStructure := None; groupByType := None;
     phpVersion := Some V8_2; readonlyValueObjects := Some true;
     regexPatternMappings := None |}.

Definition property (t n : string) (relation collection : bool) : CMLProperty :=
  {| prop_name := n; prop_type := t; prop_nullable := false;
     prop_isRelation := relation; prop_isCollection := collection;
     prop_isEnum := false |}.

Definition money : CMLValueObject :=
  {| vo_name := "Money";
     vo_properties := [ property "int" "amount" false false;
                        property "String" "currency" false false ] |}.

(** An enumeration written inside an entity, and a property behind it. *)
Definition enumInsideEntity : string :=
  lines [ "BoundedContext Sales {";
          "  Aggregate Order {";
          "    Entity Order {";
          "      enum Status {";
          "        Active";
          "      }";
          "      String name";
          "    }";
          "  }";
          "}" ].

(** The state in which an enumeration and an entity are both open. *)
Definition enumAndEntityOpen : ParserState :=
  run initialState
    [ "BoundedContext Sales {"; "Aggregate Order {"; "Entity Order {";
      "enum Status {" ].

(** An aggregate written before any context: it stays current when the
    context is opened, so the entity that follows lands in it. *)
Definition aggregateBeforeContext : list string :=
  [ "Aggregate Lost {"; "Entity Ghost {"; "String name"; "}"; "}";
    "BoundedContext Sales {"; "Entity Shadow {"; "String x"; "}";
    "Aggregate Order {"; "Entity Order {"; "}"; "}"; "}" ].

(** An entity written directly inside a context. *)
Definition entityBeforeAggregate : list string :=
  [ "BoundedContext Sales {"; "Entity Stray {"; "String name"; "}"; "}" ].

(** A rule without a subfolder that only strips a suffix, and a rule that
    sorts the order classes into a folder. *)
Definition stripEntitySuffix : RegexPatternMapping :=
  {| pattern := "Entity"; typeFolder := None; subfolder := "";
     nameReplace := Some "Entity" |}.

Definition ordersFolder : RegexPatternMapping :=
  {| pattern := "Order"; typeFolder := None; subfolder := "Orders";
     nameReplace := None |}.

(** A rule whose pattern does not compile, a rule whose name-strip pattern
    does not, and a configuration that holds them in front of a sound
    rule. *)
Definition unbalancedRule : RegexPatternMapping :=
  {| pattern := "("; typeFolder := None; subfolder := "Broken";
     nameReplace := None |}.

Definition unbalancedStrip : RegexPatternMapping :=
  {| pattern := "Money"; typeFolder := None; subfolder := "Values";
     nameReplace := Some "(" |}.

Definition malformedRules : list RegexPatternMapping :=
  [unbalancedRule; unbalancedStrip; ordersFolder].

Definition malformedRulesConfig : GeneratorConfig :=
  {| framework := Plain; publicProperties := false; addGetters := true;
     addSetters := true; namespace := None; constructorType := CtNone;
     constructorPropertyPromotion := false;
     doctrineCollectionDocstrings := None; doctrineAttributes := None;
     arrayDocstrings := None; directoryStructure := None; groupByType := None;
     phpVersion := None; readonlyValueObjects := None;
     regexPatternMappings := Some malformedRules |}.

Definition status : CMLEnum :=
  {| enum_name := "Status";
     enum_values := ["Active"; "Inactive"; "pending-review"] |}.

Definition order : CMLEntity :=
  {| ent_name := "Order"; ent_isAggregateRoot := true;
     ent_properties := [ property "OrderLine" "lines" true true ] |}.

Definition orderAggregate : CMLAggregate :=
  {| agg_name := "Order"; agg_entities := [order];
     agg_valueObjects := [money]; agg_enums := [status] |}.

Definition sales : CMLBoundedContext :=
  {| bc_name := "Sales"; bc_aggregates := [orderAggregate] |}.

Definition salesModel : CMLModel := {| boundedContexts := [sales] |}.

(** A builder for the examples.  It takes a class or an enumeration whose
    name begins with a letter or an underscore, goes on in word characters
    and is none of a few reserved words, and whose cases, properties and
    methods have pairwise distinct names. *)
Definition isIdentifier (s : string) : bool :=
  match s with
  | String c rest =>
      isWord c && negb (Nat.leb 48 (nat_of_ascii c) && Nat.leb (nat_of_ascii c) 57)
      && allChars isWord rest
  | EmptyString => false
  end.

Definition reservedWords : list string :=
  ["abstract"; "array"; "class"; "enum"; "final"; "function"; "list";
   "namespace"; "new"; "static"; "string"].

Definition takesUnitName (n : string) : bool :=
  isIdentifier n && negb (existsb (String.eqb (toLowerCase n)) reservedWords).

Definition carefulBuilds (file : PhpFile) : bool :=
  match file with
  | EnumFile e =>
      takesUnitName (pe_name e) && bool_decide (NoDup (map fst (pe_cases e)))
  | ClassFile c =>
      takesUnitName (cls_name c)
      && bool_decide (NoDup (map pp_name (cls_properties c)))
      && bool_decide (NoDup (map m_name (cls_methods c)))
  end.

Definition carefulBuilder : PhpBuilder.
Proof.
  refine {| builds := carefulBuilds |}; cbn [carefulBuilds].
  - intros e He Hn. rewrite Hn in He. discriminate.
  - intros c Hc Hn. rewrite Hn in Hc. discriminate.
  - intros e He. apply andb_prop in He as [_ He].
    exact (bool_decide_eq_true_1 _ He).
  - intros c Hc. apply andb_prop in Hc as [Hc _].
    apply andb_prop in Hc as [_ Hc]. exact (bool_decide_eq_true_1 _ Hc).
  - intros c Hc. apply andb_prop in Hc as [_ Hc].
    exact (bool_decide_eq_true_1 _ Hc).
Defined.

(** A regular-expression engine for the examples.  A pattern made of word
    characters only is a literal: it matches wherever it occurs.  Any other
    pattern is refused, which is what JavaScript does with ["("], the one
    such pattern the examples use. *)
Definition literalEngine : RegExpEngine :=
  {| RegExp := string;
     newRegExp := fun p => if allChars isWord p then Some p else None;
     regexTest := fun r s => includes r s;
     removeFirstMatch := fun r s =>
       replaceFirst
         (fun t => if startsWith r t then Some (String.length r) else None)
         "" s |}.

End Examples.

Module Spec.

Import Js CmlParser PhpGenerator.

(** The number of units of an aggregate and of a model. *)
Definition countAggregate (a : CMLAggregate) : nat :=
  List.length (agg_enums a) + List.length (agg_valueObjects a)
  + List.length (agg_entities a).

Definition countUnits (model : CMLModel) : nat :=
  list_sum
    (map (fun bc => list_sum (map countAggregate (bc_aggregates bc)))
       (boundedContexts model)).

(** Enumerations come first, value objects second, entities last. *)
Definition rank (t : FileType) : nat :=
  match t with FtEnum => 0 | FtValueObject => 1 | FtEntity => 2 end.

(** The normal form of an enumeration label, character by character: a
    character of [[A-Za-z0-9_]] in upper case, an underscore for any other. *)
Definition normalChar (c : ascii) : ascii :=
  if isWord c then toUpperChar c else "_"%char.

Definition normalLabel (label : string) : string := mapChars normalChar label.

(** What a normal form is made of: [[A-Z0-9_]]. *)
Definition isUpperWord (c : ascii) : bool :=
  let n := nat_of_ascii c in
  ((48 <=? n) && (n <=? 57)) || ((65 <=? n) && (n <=? 90)) || (n =? 95).

(** A setter is recognised by its name. *)
Definition isSetter (m : PhpMethod) : bool := startsWith "set" (m_name m).

Definition isConstructor (m : PhpMethod) : bool :=
  String.eqb (m_name m) "__construct".

(** The representation of a collection: it depends on the framework and on
    whether the property is a relation, not on the element type. *)
Definition collectionRepresentation (f : Framework) (isRelation : bool)
  : string :=
  if isRelation then
    match f with
    | Doctrine => doctrineCollection
    | Laravel => eloquentCollection
    | Plain => "array"
    end
  else "array".

(** A line that opens a scope: the five tests the loop makes first. *)
Definition isDeclarationLine (line : string) : bool :=
  startsWith "BoundedContext " line || startsWith "Aggregate " line
  || startsWith "Entity " line || startsWith "ValueObject " line
  || startsWith "enum " line.

(** The three kinds of unit an aggregate owns. *)
Inductive ChildKind := KEntity | KValueObject | KEnum.

#[global] Instance ChildKind_eq_dec : EqDecision ChildKind.
Proof. solve_decision. Defined.

Definition children (k : ChildKind) (a : AggregateObj) : list ref :=
  match k with
  | KEntity => ao_entities a
  | KValueObject => ao_valueObjects a
  | KEnum => ao_enums a
  end.

(** The number of objects of a kind created so far, which is also the
    reference the next one will get. *)
Definition heapSize (k : ChildKind) (st : ParserState) : nat :=
  match k with
  | KEntity => List.length (heapEntities st)
  | KValueObject => List.length (heapValueObjects st)
  | KEnum => List.length (heapEnums st)
  end.

Definition pushChild (k : ChildKind) (r : ref) (a : AggregateObj)
  : AggregateObj :=
  match k with
  | KEntity => pushEntity r a
  | KValueObject => pushValueObject r a
  | KEnum => pushEnum r a
  end.

Definition keyword (k : ChildKind) : string :=
  match k with
  | KEntity => "Entity "
  | KValueObject => "ValueObject "
  | KEnum => "enum "
  end.

(** The line opens a unit of kind [k]. *)
Definition opensChild (k : ChildKind) (line : string) : bool :=
  startsWith (keyword k) line.

Definition opensAggregate (line : string) : bool :=
  startsWith "Aggregate " line.

(** An aggregate object is part of the returned model when a context refers
    to it; a unit when an aggregate that is part of the model refers to it.
    [freeze] follows exactly these references. *)
Definition aggregateAttached (st : ParserState) (a : ref) : Prop :=
  exists c, c ∈ st_boundedContexts st /\ a ∈ co_aggregates c.

Definition childAttached (k : ChildKind) (st : ParserState) (r : ref) : Prop :=
  exists a ao,
    aggregateAttached st a /\ heapAggregates st !! a = Some ao
    /\ r ∈ children k ao.

(** The rule the design document describes: the kind filter, if any, names
    the unit's kind, and the pattern compiles and matches the name. *)
Definition ruleMatches `{RegExpEngine} (name : string) (kind : TypeFolder)
  (m : RegexPatternMapping) : bool :=
  match typeFolder m with
  | Some t => bool_decide (t = kind)
  | None => true
  end
  && match newRegExp (pattern m) with
     | Some regex => regexTest regex name
     | None => false
     end.

(** The rule the source selects: it must also have a non-empty pattern and
    a non-empty subfolder. *)
Definition ruleEligible `{RegExpEngine} (name : string) (kind : TypeFolder)
  (m : RegexPatternMapping) : bool :=
  truthy (pattern m) && truthy (subfolder m) && ruleMatches name kind m.

(** What a selected rule contributes. *)
Definition selected (m : option RegexPatternMapping) : MappingResult :=
  match m with
  | Some r => {| mr_subfolder := subfolder r; mr_nameReplace := nameReplace r |}
  | None => {| mr_subfolder := ""; mr_nameReplace := None |}
  end.

(** No match of [m] starts inside [a] when [a] is followed by [rest]. *)
Fixpoint unmatched (m : string -> option nat) (a rest : string) : bool :=
  match a with
  | EmptyString => true
  | String c a' =>
      match m (a +:+ rest) with
      | Some _ => false
      | None => unmatched m a' rest
      end
  end.



(** The cursor of a kind of unit. *)
Definition cursor (k : ChildKind) (st : ParserState) : option ref :=
  match k with
  | KEntity => currentEntity st
  | KValueObject => currentValueObject st
  | KEnum => currentEnum st
  end.

(** What one iteration does to the contexts, to the aggregate objects and
    to the number of units created: nothing, or one of the four openings. *)
Inductive Effect (st st' : ParserState) : Prop :=
| EffectNone :
    st_boundedContexts st' = st_boundedContexts st ->
    heapAggregates st' = heapAggregates st ->
    (forall k, heapSize k st' = heapSize k st) ->
    Effect st st'
| EffectContext (name : string) :
    st_boundedContexts st'
    = st_boundedContexts st ++ [{| co_name := name; co_aggregates := [] |}] ->
    heapAggregates st' = heapAggregates st ->
    (forall k, heapSize k st' = heapSize k st) ->
    Effect st st'
| EffectAggregate (name : string) :
    st_boundedContexts st'
    = updateAt (currentBoundedContext st)
        (pushAggregate (List.length (heapAggregates st)))
        (st_boundedContexts st) ->
    heapAggregates st'
    = heapAggregates st
      ++ [{| ao_name := name; ao_entities := []; ao_valueObjects := [];
             ao_enums := [] |}] ->
    (forall k, heapSize k st' = heapSize k st) ->
    Effect st st'
| EffectChild (k : ChildKind) :
    st_boundedContexts st' = st_boundedContexts st ->
    heapAggregates st'
    = updateAt (currentAggregate st) (pushChild k (heapSize k st))
        (heapAggregates st) ->
    heapSize k st' = S (heapSize k st) ->
    (forall k', k' <> k -> heapSize k' st' = heapSize k' st) ->
    Effect st st'.

(** Every reference held by a context or by an aggregate object points to
    an object that exists. *)
Definition wellFormed (st : ParserState) : Prop :=
  (forall c a, c ∈ st_boundedContexts st -> a ∈ co_aggregates c ->
               a < List.length (heapAggregates st))
  /\ (forall a ao k r, heapAggregates st !! a = Some ao -> r ∈ children k ao ->
                       r < heapSize k st).

(** A unit is referred to by one aggregate object at most. *)
Definition singleOwner (st : ParserState) : Prop :=
  forall k r a1 a2 ao1 ao2,
    heapAggregates st !! a1 = Some ao1 -> heapAggregates st !! a2 = Some ao2 ->
    r ∈ children k ao1 -> r ∈ children k ao2 -> a1 = a2.

(** An aggregate object that exists and that no context refers to. *)
Definition orphanAggregate (a : ref) (st : ParserState) : Prop :=
  a < List.length (heapAggregates st) /\ ~ aggregateAttached st a.

(** A unit that exists and that no aggregate object refers to. *)
Definition orphanChild (k : ChildKind) (r : ref) (st : ParserState) : Prop :=
  r < heapSize k st
  /\ forall a ao, heapAggregates st !! a = Some ao -> r ∉ children k ao.

(** What the emitters ask of the library, as files. *)
Definition requestedEnum (enumDef : CMLEnum) (config : GeneratorConfig)
  (bc aggregate name : string) : PhpFile :=
  EnumFile (generateEnumType enumDef config bc aggregate name).

Definition requestedValueObject (valueObject : CMLValueObject)
  (config : GeneratorConfig) (bc aggregate name : string) : PhpFile :=
  ClassFile (generateValueObjectClass valueObject config bc aggregate name).

Definition requestedEntity (entity : CMLEntity) (config : GeneratorConfig)
  (bc aggregate name : string) : PhpFile :=
  ClassFile (generateEntityClass entity config bc aggregate name).

Section Planned.

Context `{RegExpEngine}.

(** The record of a unit with what its emitter asks of the library. *)
Definition plannedUnit (config : GeneratorConfig) (directoryPath : string)
  (originalName : string) (kind : TypeFolder) (folder : string)
  (fileType : FileType) (emit : string -> PhpFile) : GeneratedFile :=
  let mappingResult :=
    match regexPatternMappings config with
    | Some mappings => getSubfolderForFile originalName kind mappings
    | None => noMapping
    end in
  let processedName :=
    applyNameReplace originalName (mr_nameReplace mappingResult) in
  let filename := processedName +:+ ".php" in
  let typeFolder := if default false (groupByType config) then folder else "" in
  let fullPath :=
    buildFilePath directoryPath typeFolder (mr_subfolder mappingResult)
      filename in
  {| filename := filename;
     path := fullPath;
     content := emit processedName;
     type := fileType |}.

(** The files of an aggregate and of a model as the generator plans them:
    what it returns when the library refuses none of them. *)
Definition plannedAggregate (config : GeneratorConfig)
  (boundedContext : CMLBoundedContext) (aggregate : CMLAggregate)
  : list GeneratedFile :=
  let directoryPath :=
    getDirectoryPath (bc_name boundedContext) (agg_name aggregate)
      (default DsFlat (directoryStructure config)) in
  map (fun enumDef =>
         plannedUnit config directoryPath (enum_name enumDef) TfEnum "Enum/"
           FtEnum
           (requestedEnum enumDef config (bc_name boundedContext)
              (agg_name aggregate)))
    (agg_enums aggregate)
  ++ map (fun valueObject =>
            plannedUnit config directoryPath (vo_name valueObject)
              TfValueObject "ValueObject/" FtValueObject
              (requestedValueObject valueObject config
                 (bc_name boundedContext) (agg_name aggregate)))
       (agg_valueObjects aggregate)
  ++ map (fun entity =>
            plannedUnit config directoryPath (ent_name entity) TfEntity
              "Entity/" FtEntity
              (requestedEntity entity config (bc_name boundedContext)
                 (agg_name aggregate)))
       (agg_entities aggregate).

Definition plannedFiles (model : CMLModel) (config : GeneratorConfig)
  : list GeneratedFile :=
  flat_map
    (fun boundedContext =>
       flat_map (plannedAggregate config boundedContext)
         (bc_aggregates boundedContext))
    (boundedContexts model).

(** The library builds every file of a list. *)
Definition allBuilt `{PhpBuilder} (files : list GeneratedFile) : bool :=
  forallb (fun f => builds (content f)) files.

End Planned.

(** A configuration with other pattern rules. *)
Definition withMappings (config : GeneratorConfig)
  (rules : option (list RegexPatternMapping)) : GeneratorConfig :=
  {| framework := framework config;
     publicProperties := publicProperties config;
     addGetters := addGetters config;
     addSetters := addSetters config;
     namespace := namespace config;
     constructorType := constructorType config;
     constructorPropertyPromotion := constructorPropertyPromotion config;
     doctrineCollectionDocstrings := doctrineCollectionDocstrings config;
     doctrineAttributes := doctrineAttributes config;
     arrayDocstrings := arrayDocstrings config;
     directoryStructure := directoryStructure config;
     groupByType := groupByType config;
     phpVersion := phpVersion config;
     readonlyValueObjects := readonlyValueObjects config;
     regexPatternMappings := rules |}.

(** A pattern that [new RegExp] takes. *)
Definition compiles `{RegExpEngine} (p : string) : bool :=
  match newRegExp p with Some _ => true | None => false end.

(** A rule without its name-strip pattern when that does not compile, and a
    list of rules without the rules whose pattern does not compile. *)
Definition withoutMalformedStrip `{RegExpEngine} (m : RegexPatternMapping)
  : RegexPatternMapping :=
  {| pattern := pattern m;
     typeFolder := typeFolder m;
     subfolder := subfolder m;
     nameReplace :=
       match nameReplace m with
       | Some nr => if compiles nr then Some nr else None
       | None => None
       end |}.

Definition withoutMalformed `{RegExpEngine} (rules : list RegexPatternMapping)
  : list RegexPatternMapping :=
  map withoutMalformedStrip
    (filter (fun m => compiles (pattern m) = true) rules).

(** A property with another element type. *)
Definition withType (t : string) (p : CMLProperty) : CMLProperty :=
  {| prop_name := prop_name p; prop_type := t;
     prop_nullable := prop_nullable p; prop_isRelation := prop_isRelation p;
     prop_isCollection := prop_isCollection p; prop_isEnum := prop_isEnum p |}.

End Spec.

(** ** The file tree of the explorer (src/components/file-explorer.tsx) *)

Module FileExplorer.

Import Js PhpGenerator.

(** [FileNode] (lines 8-14): a file node carries its file and no children,
    a folder node its children. *)
#[warnings="-register-all"]
Inductive FileNode :=
| FileLeaf (name path : string) (file : GeneratedFile)
| Folder (name path : string) (children : list FileNode).

Definition node_name (node : FileNode) : string :=
  match node with FileLeaf n _ _ => n | Folder n _ _ => n end.

Definition node_path (node : FileNode) : string :=
  match node with FileLeaf _ p _ => p | Folder _ p _ => p end.

Definition node_children (node : FileNode) : list FileNode :=
  match node with FileLeaf _ _ _ => [] | Folder _ _ cs => cs end.

(** Line 32: [file.path.split('/').filter((part) => part.length > 0)]. *)
Definition pathParts (file : GeneratedFile) : list string :=
  filter (fun part => (0 <? String.length part) = true)
    (splitChar "/" (path file)).

(** [child.name === part && child.type === 'folder'] (line 60). *)
Definition isFolderNamed (part : string) (child : FileNode) : bool :=
  match child with
  | Folder n _ _ => String.eqb n part
  | FileLeaf _ _ _ => false
  end.

(** [children.find(...)] (line 60), as the position of the child found. *)
Fixpoint findFolder (part : string) (children : list FileNode) : option nat :=
  match children with
  | [] => None
  | child :: rest =>
      if isFolderNamed part child then Some 0 else S <$> findFolder part rest
  end.

(** What the loop does to a folder it has moved into: it changes the
    children of that very object. *)
Definition withChildren (f : list FileNode -> list FileNode) (node : FileNode)
  : FileNode :=
  match node with
  | Folder n p cs => Folder n p (f cs)
  | FileLeaf _ _ _ => node
  end.

(** [p && p.trim() !== ''] (line 67). *)
Definition notBlank (part : string) : Prop := isBlank part = false.

(** Lines 35-76 for one file, from index [length seen] on, [current] being
    the folder whose children are given; [seen] are the parts before that
    index.  The last part becomes a file node; a blank part before it is
    skipped; any other part is the folder to move into, the first folder of
    that name among the children or else a new one, pushed behind them. *)
Fixpoint addFile (file : GeneratedFile) (seen parts : list string)
  (children : list FileNode) : list FileNode :=
  match parts with
  | [] => children
  | part :: rest =>
      match rest with
      | [] => children ++ [FileLeaf part (path file) file]
      | _ :: _ =>
          if isBlank part then addFile file (seen ++ [part]) rest children
          else
            match findFolder part children with
            | Some i =>
                alter (withChildren (addFile file (seen ++ [part]) rest)) i
                  children
            | None =>
                children
                ++ [Folder part (join "/" (filter notBlank (seen ++ [part])))
                      (addFile file (seen ++ [part]) rest [])]
            end
      end
  end.

(** Lines 22-80. *)
Definition buildFileTree (files : list GeneratedFile) : FileNode :=
  Folder "" ""
    (fold_left (fun children file => addFile file [] (pathParts file) children)
       files []).

(** Lines 201-222. *)
Fixpoint filterEmptyFolders (node : FileNode) : option FileNode :=
  match node with
  | FileLeaf _ _ _ => Some node
  | Folder n p children =>
      match children with
      | [] => None
      | _ :: _ =>
          match omap filterEmptyFolders children with
          | [] => None
          | filteredChildren => Some (Folder n p filteredChildren)
          end
      end
  end.

(** Lines 229-231: the nodes shown at the top, before they are sorted. *)
Definition shownNodes (files : list GeneratedFile) : list FileNode :=
  omap filterEmptyFolders (node_children (buildFileTree files)).

(** Lines 184-190: the folders opened at the start; of the set only the
    membership is used. *)
Definition allFolders (files : list GeneratedFile) : list string :=
  flat_map
    (fun file =>
       let parts := pathParts file in
       map (fun i => join "/" (take (S i) parts))
         (seq 0 (List.length parts - 1)))
    files.

End FileExplorer.

(** ** Definitions used to state further properties *)

Module Facts.

Import Js CmlParser PhpGenerator FileExplorer.

(** A character that is no white space. *)
Definition notSpace (c : ascii) : bool := negb (isSpace c).

(** A character other than the slash. *)
Definition notSlash (c : ascii) : bool := negb (Ascii.eqb c "/").

(** A character other than the line feed, at which the input is split. *)
Definition notLineFeed (c : ascii) : bool := negb (Ascii.eqb c "010").

(** The test of line 46 on a trimmed line. *)
Definition isLogicalLine (line : string) : bool :=
  truthy line && negb (startsWith "//" line).

(** A name made of word characters only (possibly empty). *)
Definition wordName (s : string) : Prop := allChars isWord s = true.

(** A label an enumeration may hold: not empty and not a closing brace. *)
Definition properLabel (v : string) : Prop := truthy v = true /\ v <> "}".

(** Every object created so far has a name made of word characters, and
    every label stored so far is a proper one. *)
Definition cleanState (st : ParserState) : Prop :=
  Forall (fun c => wordName (co_name c)) (st_boundedContexts st)
  /\ Forall (fun a => wordName (ao_name a)) (heapAggregates st)
  /\ Forall (fun e => wordName (ent_name e)) (heapEntities st)
  /\ Forall (fun v => wordName (vo_name v)) (heapValueObjects st)
  /\ Forall (fun n => wordName (enum_name n)
                      /\ Forall properLabel (enum_values n)) (heapEnums st).

Definition cleanAggregate (a : CMLAggregate) : Prop :=
  wordName (agg_name a)
  /\ Forall (fun e => wordName (ent_name e)) (agg_entities a)
  /\ Forall (fun v => wordName (vo_name v)) (agg_valueObjects a)
  /\ Forall (fun n => wordName (enum_name n)
                      /\ Forall properLabel (enum_values n)) (agg_enums a).

Definition cleanModel (m : CMLModel) : Prop :=
  Forall (fun bc => wordName (bc_name bc)
                    /\ Forall cleanAggregate (bc_aggregates bc))
    (boundedContexts m).

(** An aggregate with an entity, and no context around them. *)
Definition aggregateBeforeContext_head : list string :=
  [ "Aggregate Lost {"; "Entity Ghost {"; "String name"; "}"; "}" ].

(** The state behind the closing brace of [enumAndEntityOpen]. *)
Definition enumAndEntityClosed : ParserState :=
  step Examples.enumAndEntityOpen "}".

(** One folder by context and aggregate, and one by kind below it. *)
Definition groupedConfig : GeneratorConfig :=
  {| framework := Plain; publicProperties := false; addGetters := true;
     addSetters := true; namespace := None; constructorType := CtNone;
     constructorPropertyPromotion := false;
     doctrineCollectionDocstrings := None; doctrineAttributes := None;
     arrayDocstrings := None; directoryStructure := Some DsAggregate;
     groupByType := Some true; phpVersion := None;
     readonlyValueObjects := None; regexPatternMappings := None |}.

(** The names of the units of an aggregate and of a model, in the order in
    which their files are emitted. *)
Definition aggregateUnitNames (a : CMLAggregate) : list string :=
  map enum_name (agg_enums a) ++ map vo_name (agg_valueObjects a)
  ++ map ent_name (agg_entities a).

Definition unitNames (model : CMLModel) : list string :=
  flat_map (fun bc => flat_map aggregateUnitNames (bc_aggregates bc))
    (boundedContexts model).

(** The name of the enumeration or class a file declares. *)
Definition declaredUnit (f : PhpFile) : string :=
  match f with
  | EnumFile e => pe_name e
  | ClassFile c => cls_name c
  end.

(** The namespace a file declares. *)
Definition declaredNamespace (f : PhpFile) : string :=
  match f with
  | EnumFile e => pe_namespace e
  | ClassFile c => cls_namespace c
  end.

(** A capital letter of the basic alphabet. *)
Definition isCapital (c : ascii) : bool :=
  let n := nat_of_ascii c in (65 <=? n) && (n <=? 90).


(** The ORM-mapped framework without a constructor policy. *)
Definition doctrineNoConstructor : GeneratorConfig :=
  {| framework := Doctrine; publicProperties := false; addGetters := true;
     addSetters := true; namespace := None; constructorType := CtNone;
     constructorPropertyPromotion := false;
     doctrineCollectionDocstrings := None; doctrineAttributes := None;
     arrayDocstrings := None; directoryStructure := None; groupByType := None;
     phpVersion := None; readonlyValueObjects := None;
     regexPatternMappings := None |}.

(** An entity without a name, and a value object with two properties of
    one name. *)
Definition namelessEntity : string :=
  Examples.lines [ "BoundedContext Sales {"; "  Aggregate Order {";
                   "    Entity {"; "      String name"; "    }"; "  }"; "}" ].

Definition repeatedProperty : string :=
  Examples.lines [ "BoundedContext Sales {"; "  Aggregate Order {";
                   "    ValueObject Range {"; "      int bound";
                   "      nullable int bound"; "    }"; "  }"; "}" ].

(** Every property promoted into the constructor. *)
Definition promotingConfig : GeneratorConfig :=
  {| framework := Plain; publicProperties := false; addGetters := true;
     addSetters := true; namespace := None; constructorType := CtAll;
     constructorPropertyPromotion := true;
     doctrineCollectionDocstrings := None; doctrineAttributes := None;
     arrayDocstrings := None; directoryStructure := None; groupByType := None;
     phpVersion := None; readonlyValueObjects := None;
     regexPatternMappings := None |}.

(** The active-record framework. *)
Definition laravelConfig : GeneratorConfig :=
  {| framework := Laravel; publicProperties := false; addGetters := true;
     addSetters := true; namespace := None; constructorType := CtAll;
     constructorPropertyPromotion := false;
     doctrineCollectionDocstrings := None; doctrineAttributes := None;
     arrayDocstrings := None; directoryStructure := None; groupByType := None;
     phpVersion := None; readonlyValueObjects := None;
     regexPatternMappings := None |}.

(** The file nodes below a node, each with the names of the folders that
    lead to it from that node on. *)
Fixpoint entries (node : FileNode) : list (list string * FileNode) :=
  match node with
  | FileLeaf _ _ _ => [([], node)]
  | Folder n _ cs =>
      map (fun e => (n :: fst e, snd e)) (flat_map entries cs)
  end.

(** Where a file belongs: below the folders named by the parts of its path
    before the last that are not blank, as a node named by the last part. *)
Definition placed (file : GeneratedFile) : list string * FileNode :=
  (filter notBlank (removelast (pathParts file)),
   FileLeaf (List.last (pathParts file) "") (path file) file).

(** A path with at least one part. *)
Definition hasParts (file : GeneratedFile) : bool :=
  match pathParts file with [] => false | _ :: _ => true end.

(** A folder holds something, and so does every folder below it. *)
Fixpoint inhabited (node : FileNode) : bool :=
  match node with
  | FileLeaf _ _ _ => true
  | Folder _ _ cs =>
      match cs with [] => false | _ :: _ => forallb inhabited cs end
  end.

(** The names of the folders among some nodes. *)
Definition folderNames (cs : list FileNode) : list string :=
  omap (fun c => match c with
                 | Folder n _ _ => Some n
                 | FileLeaf _ _ _ => None
                 end) cs.

(** No two folders with the same parent share a name, at any depth. *)
Fixpoint distinctFolders (node : FileNode) : Prop :=
  match node with
  | FileLeaf _ _ _ => True
  | Folder _ _ cs =>
      NoDup (folderNames cs)
      /\ fold_right (fun c rest => distinctFolders c /\ rest) True cs
  end.

(** The folders below some nodes, each with the names that lead to it, its
    own included, and with its path. *)
Fixpoint folders (node : FileNode) : list (list string * string) :=
  match node with
  | FileLeaf _ _ _ => []
  | Folder n p cs =>
      ([n], p) :: map (fun e => (n :: fst e, snd e)) (flat_map folders cs)
  end.

(** A file handed to the explorer with a path that is a slash only. *)
Definition slashOnly : GeneratedFile :=
  {| filename := "Status.php"; path := "/";
     content := Spec.requestedEnum Examples.status Examples.plainConfig
                  "Sales" "Order" "";
     type := FtEnum |}.

(** The folders of a forest entered with the parts [seen] behind have the
    names that lead to them, joined, as their path. *)
Definition rooted (seen : list string) (cs : list FileNode) : Prop :=
  forall t p, In (t, p) (flat_map folders cs) -> p = join "/" (seen ++ t).

(** The folders a path with the given parts asks for, entered with [seen]
    behind: one for each part but the last. *)
Definition wanted (seen parts : list string) (e : list string * string)
  : Prop :=
  exists k, S k < List.length parts
            /\ e = (take (S k) parts, join "/" (seen ++ take (S k) parts)).

(** The namespace before anything is added for the directory structure
    (line 1125). *)
Definition baseNamespace (config : GeneratorConfig) : string :=
  orElse (default "" (namespace config)) ("App" +:+ backslash +:+ "Models").

(** A directory separator read as a namespace separator. *)
Definition slashToBackslash (c : ascii) : ascii :=
  if Ascii.eqb c "/" then "092"%char else c.

(** A file whose path begins with a blank part. *)
Definition blankFolderFile : GeneratedFile :=
  {| filename := "Status.php"; path := " /Sales/Status.php";
     content := Spec.requestedEnum Examples.status Examples.plainConfig
                  "Sales" "Order" "";
     type := FtEnum |}.

End Facts.

(** * Properties *)

Import Js CmlParser PhpGenerator Examples Spec.

(** ** The parser on the first scenario *)

(** C1.  Parsing scenario 1 yields exactly one bounded context "Sales" with
    exactly one aggregate "Order" with exactly one entity "Order", which is
    the aggregate root and has exactly one property: name "lines", type
    "OrderLine", a relation and a collection. *)
Theorem parseCML_scenario1 :
  parseCML scenario1 =
  {| boundedContexts :=
       [{| bc_name := "Sales";
           bc_aggregates :=
             [{| agg_name := "Order";
                 agg_entities :=
                   [{| ent_name := "Order";
                       ent_isAggregateRoot := true;
                       ent_properties :=
                         [{| prop_name := "lines";
                             prop_type := "OrderLine";
                             prop_nullable := false;
                             prop_isRelation := true;
                             prop_isCollection := true;
                             prop_isEnum := false |}] |}];
                 agg_valueObjects := [];
                 agg_enums := [] |}] |}] |}.
Proof. vm_compute. reflexivity. Qed.

(** ** Counting and ordering the emitted files *)

Section PipelineFacts.

Context `{RegExpEngine}.

Lemma plannedAggregate_length config bc a :
  List.length (plannedAggregate config bc a) = countAggregate a.
Proof.
  unfold plannedAggregate, countAggregate.
  rewrite !length_app, !length_map. lia.
Qed.

Lemma length_flat_map_sum {A B} (f : A -> list B) (l : list A) :
  List.length (flat_map f l) = list_sum (map (fun x => List.length (f x)) l).
Proof.
  induction l as [|x l IH]; simpl; [reflexivity|].
  rewrite length_app, IH. reflexivity.
Qed.

Lemma plannedFiles_length model config :
  List.length (plannedFiles model config) = countUnits model.
Proof.
  unfold plannedFiles, countUnits.
  rewrite length_flat_map_sum. f_equal.
  apply map_ext. intros bc.
  rewrite length_flat_map_sum. f_equal.
  apply map_ext. intros a. apply plannedAggregate_length.
Qed.

Lemma map_const_replicate {A B} (b : B) (l : list A) :
  map (fun _ => b) l = replicate (List.length l) b.
Proof. induction l; simpl; congruence. Qed.

(** The kinds of an aggregate's files, in order. *)
Lemma plannedAggregate_ranks config bc a :
  map (fun f => rank (type f)) (plannedAggregate config bc a) =
  replicate (List.length (agg_enums a)) 0
  ++ replicate (List.length (agg_valueObjects a)) 1
  ++ replicate (List.length (agg_entities a)) 2.
Proof.
  unfold plannedAggregate.
  rewrite !map_app, !map_map. simpl.
  rewrite !map_const_replicate. reflexivity.
Qed.

Lemma blocks_sorted (a b c i j x y : nat) :
  (replicate a 0 ++ replicate b 1 ++ replicate c 2) !! i = Some x ->
  (replicate a 0 ++ replicate b 1 ++ replicate c 2) !! j = Some y ->
  x < y -> i < j.
Proof.
  rewrite !lookup_app_Some, !lookup_replicate, !length_replicate.
  intros Hi Hj Hlt.
  destruct Hi as [[-> ?]|[? [[-> ?]|[? [-> ?]]]]];
    destruct Hj as [[-> ?]|[? [[-> ?]|[? [-> ?]]]]]; lia.
Qed.

Lemma plannedAggregate_sorted config bc a i j fi fj :
  plannedAggregate config bc a !! i = Some fi ->
  plannedAggregate config bc a !! j = Some fj ->
  rank (type fi) < rank (type fj) -> i < j.
Proof.
  intros Hi Hj.
  apply (blocks_sorted (List.length (agg_enums a))
           (List.length (agg_valueObjects a)) (List.length (agg_entities a)));
    rewrite <- (plannedAggregate_ranks config bc a).
  - change (map ?f ?l) with (f <$> l). rewrite list_lookup_fmap, Hi. reflexivity.
  - change (map ?f ?l) with (f <$> l). rewrite list_lookup_fmap, Hj. reflexivity.
Qed.

(** An aggregate's files are one contiguous part of the returned list. *)
Lemma flat_map_portion {A B} (f : A -> list B) (l : list A) (x : A) :
  x ∈ l -> exists pre post, flat_map f l = pre ++ f x ++ post.
Proof.
  intros Hx. apply list_elem_of_split in Hx as (l1 & l2 & ->).
  exists (flat_map f l1), (flat_map f l2).
  rewrite flat_map_app. reflexivity.
Qed.

Lemma plannedFiles_portion model config bc a :
  bc ∈ boundedContexts model -> a ∈ bc_aggregates bc ->
  exists pre post,
    plannedFiles model config = pre ++ plannedAggregate config bc a ++ post.
Proof.
  intros Hbc Ha. unfold plannedFiles.
  destruct (flat_map_portion
              (fun b => flat_map (plannedAggregate config b) (bc_aggregates b))
              _ bc Hbc) as (p1 & q1 & ->).
  destruct (flat_map_portion (plannedAggregate config bc) _ a Ha)
    as (p2 & q2 & ->).
  exists (p1 ++ p2), (q2 ++ q1). rewrite <- !app_assoc. reflexivity.
Qed.

End PipelineFacts.

(** ** Returning and throwing *)

Lemma forEach_outcome {A B} (f : A -> Outcome B) (g : A -> B) (ok : A -> bool)
  (l : list A) :
  (forall x, f x = if ok x then Returns (g x) else Throws) ->
  forEach f l = if forallb ok l then Returns (map g l) else Throws.
Proof.
  intros Hf. induction l as [|x l IH]; [reflexivity|].
  cbn [forEach forallb map]. rewrite Hf, IH.
  destruct (ok x); [|reflexivity]. destruct (forallb ok l); reflexivity.
Qed.

Lemma forallb_flat_map {A B} (p : B -> bool) (f : A -> list B) (l : list A) :
  forallb p (flat_map f l) = forallb (fun x => forallb p (f x)) l.
Proof.
  induction l as [|x l IH]; [reflexivity|].
  cbn [flat_map forallb]. rewrite forallb_app, IH. reflexivity.
Qed.

Lemma forallb_map {A B} (p : B -> bool) (f : A -> B) (l : list A) :
  forallb p (map f l) = forallb (fun x => p (f x)) l.
Proof. induction l as [|x l IH]; [reflexivity|]. cbn. rewrite IH. reflexivity. Qed.

Section OutcomeFacts.

Context `{RegExpEngine} `{PhpBuilder}.

Lemma printFile_Returns file printed :
  printFile file = Returns printed <-> printed = file /\ builds file = true.
Proof.
  unfold printFile. destruct (builds file).
  - split; [intros [= <-]; auto|intros [-> _]; reflexivity].
  - split; [discriminate|intros [_ Hb]; discriminate].
Qed.

(** The record of a unit is pushed when the library builds what its emitter
    asks for; otherwise the loop throws. *)
Lemma emitUnit_outcome config dir name kind folder ft (req : string -> PhpFile) :
  emitUnit config dir name kind folder ft (fun n => printFile (req n))
  = if builds (content (plannedUnit config dir name kind folder ft req))
    then Returns (plannedUnit config dir name kind folder ft req)
    else Throws.
Proof.
  unfold emitUnit, plannedUnit, printFile, fileRecord, mappingFor.
  cbn [content andThen].
  destruct (builds _); reflexivity.
Qed.

Lemma generateAggregate_outcome config bc a :
  generateAggregate config bc a
  = if allBuilt (plannedAggregate config bc a)
    then Returns (plannedAggregate config bc a)
    else Throws.
Proof.
  unfold generateAggregate, plannedAggregate, allBuilt.
  rewrite !forallb_app, !forallb_map.
  rewrite (forEach_outcome _ _ _ (agg_enums a)
             (fun e => emitUnit_outcome config _ (enum_name e) TfEnum "Enum/"
                         FtEnum (requestedEnum e config (bc_name bc) (agg_name a)))).
  rewrite (forEach_outcome _ _ _ (agg_valueObjects a)
             (fun v => emitUnit_outcome config _ (vo_name v) TfValueObject
                         "ValueObject/" FtValueObject
                         (requestedValueObject v config (bc_name bc) (agg_name a)))).
  rewrite (forEach_outcome _ _ _ (agg_entities a)
             (fun e => emitUnit_outcome config _ (ent_name e) TfEntity "Entity/"
                         FtEntity (requestedEntity e config (bc_name bc) (agg_name a)))).
  destruct (forallb _ (agg_enums a)); [|reflexivity].
  destruct (forallb _ (agg_valueObjects a)); [|reflexivity].
  destruct (forallb _ (agg_entities a)); reflexivity.
Qed.

Lemma generatePHP_outcome model config :
  generatePHP model config
  = if allBuilt (plannedFiles model config)
    then Returns (plannedFiles model config)
    else Throws.
Proof.
  unfold generatePHP, plannedFiles, allBuilt.
  rewrite (forEach_outcome _
             (fun bc => flat_map (plannedAggregate config bc) (bc_aggregates bc))
             (fun bc => forallb (fun f => builds (content f))
                          (flat_map (plannedAggregate config bc)
                             (bc_aggregates bc)))).
  - rewrite forallb_flat_map. destruct (forallb _ (boundedContexts model));
      [|reflexivity].
    cbn [andThen]. rewrite <- flat_map_concat_map. reflexivity.
  - intros bc.
    rewrite (forEach_outcome _ (plannedAggregate config bc)
               (fun a => allBuilt (plannedAggregate config bc a))
               _ (generateAggregate_outcome config bc)).
    rewrite forallb_flat_map. unfold allBuilt.
    destruct (forallb _ (bc_aggregates bc)); [|reflexivity].
    cbn [andThen]. rewrite <- flat_map_concat_map. reflexivity.
Qed.

(** [generatePHP] returns exactly when the library builds every file the
    generator plans, and then it returns those files. *)
Lemma generatePHP_Returns model config files :
  generatePHP model config = Returns files
  <-> files = plannedFiles model config /\ allBuilt files = true.
Proof.
  rewrite generatePHP_outcome.
  destruct (allBuilt (plannedFiles model config)) eqn:Hall.
  - split; [intros [= <-]; auto|intros [-> _]; reflexivity].
  - split; [discriminate|]. intros [-> Hb]. congruence.
Qed.

Lemma generateAggregate_Returns config bc a part :
  generateAggregate config bc a = Returns part
  <-> part = plannedAggregate config bc a /\ allBuilt part = true.
Proof.
  rewrite generateAggregate_outcome.
  destruct (allBuilt (plannedAggregate config bc a)) eqn:Hall.
  - split; [intros [= <-]; auto|intros [-> _]; reflexivity].
  - split; [discriminate|]. intros [-> Hb]. congruence.
Qed.

End OutcomeFacts.

(** *** What the library refuses

    A unit without a name, a second case, property or method of one name:
    the emitter throws, and so does [generatePHP], whatever else the
    library accepts. *)

Lemma generateEntity_nameless `{PhpBuilder} entity config bc aggregate name :
  orElse name (ent_name entity) = "" ->
  generateEntity entity config bc aggregate name = Throws.
Proof.
  intros Hname. unfold generateEntity, printFile.
  destruct (builds _) eqn:Hb; [|reflexivity].
  apply builds_class_name in Hb. contradiction.
Qed.

Lemma generateValueObject_repeated `{PhpBuilder} vo config bc aggregate name :
  ~ NoDup (map pp_name
             (cls_properties
                (generateValueObjectClass vo config bc aggregate name)))
  \/ ~ NoDup (map m_name
                (cls_methods
                   (generateValueObjectClass vo config bc aggregate name))) ->
  generateValueObject vo config bc aggregate name = Throws.
Proof.
  intros Hdup. unfold generateValueObject, printFile.
  destruct (builds _) eqn:Hb; [|reflexivity].
  destruct Hdup as [Hdup|Hdup]; exfalso; apply Hdup.
  - apply builds_properties, Hb.
  - apply builds_methods, Hb.
Qed.

Example nameless_entity_throws (B : PhpBuilder) :
  @generatePHP literalEngine B (parseCML Facts.namelessEntity) plainConfig = Throws.
Proof.
  rewrite generatePHP_outcome.
  set (files := plannedFiles _ _). vm_compute in files. subst files.
  unfold allBuilt. cbn [forallb content]. rewrite andb_true_r.
  destruct (builds _) eqn:Hb; [|reflexivity].
  apply builds_class_name in Hb. contradiction.
Qed.

Example repeated_property_throws (B : PhpBuilder) :
  @generatePHP literalEngine B (parseCML Facts.repeatedProperty) plainConfig
  = Throws.
Proof.
  rewrite generatePHP_outcome.
  set (files := plannedFiles _ _). vm_compute in files. subst files.
  unfold allBuilt. cbn [forallb content]. rewrite andb_true_r.
  destruct (builds _) eqn:Hb; [|reflexivity].
  apply builds_properties in Hb. cbn [cls_properties map pp_name] in Hb.
  inversion Hb as [|x l Hx _]. exfalso. apply Hx, list_elem_of_here.
Qed.

(** C5.  Whatever the model, the configuration, the regular-expression
    engine and the library: a list [generatePHP] returns has as many files
    as the model has enumerations, value objects and entities in all its
    aggregates.  It returns such a list when the library builds every file
    the generator plans, and throws when the library refuses one. *)
Theorem generatePHP_count (E : RegExpEngine) (B : PhpBuilder)
  (model : CMLModel) (config : GeneratorConfig) :
  (forall files,
      generatePHP model config = Returns files ->
      List.length files = countUnits model)
  /\ (allBuilt (plannedFiles model config) = true ->
      exists files,
        generatePHP model config = Returns files
        /\ List.length files = countUnits model)
  /\ (allBuilt (plannedFiles model config) = false ->
      generatePHP model config = Throws).
Proof.
  rewrite generatePHP_outcome. split; [|split].
  - intros files Hfiles.
    destruct (allBuilt (plannedFiles model config)); [|discriminate].
    injection Hfiles as <-. apply plannedFiles_length.
  - intros ->. eexists. split; [reflexivity|]. apply plannedFiles_length.
  - intros ->. reflexivity.
Qed.

Lemma generatePHP_count_witness :
  exists files,
    @generatePHP literalEngine carefulBuilder salesModel plainConfig
    = Returns files
    /\ List.length files = 3.
Proof.
  apply (proj1 (proj2 (generatePHP_count literalEngine carefulBuilder
                         salesModel plainConfig))).
  reflexivity.
Defined.

Section OrderFacts.

Context `{RegExpEngine} `{PhpBuilder}.

Lemma generateAggregate_sorted config bc a part i j fi fj :
  generateAggregate config bc a = Returns part ->
  part !! i = Some fi -> part !! j = Some fj ->
  rank (type fi) < rank (type fj) -> i < j.
Proof.
  intros Hpart. apply generateAggregate_Returns in Hpart as [-> _].
  apply plannedAggregate_sorted.
Qed.

Lemma generatePHP_portion model config bc a files :
  bc ∈ boundedContexts model -> a ∈ bc_aggregates bc ->
  generatePHP model config = Returns files ->
  exists pre part post,
    files = pre ++ part ++ post
    /\ generateAggregate config bc a = Returns part.
Proof.
  intros Hbc Ha Hfiles.
  apply generatePHP_Returns in Hfiles as [-> Hall].
  destruct (plannedFiles_portion model config bc a Hbc Ha)
    as (pre & post & Hsplit).
  exists pre, (plannedAggregate config bc a), post.
  split; [exact Hsplit|].
  apply generateAggregate_Returns. split; [reflexivity|].
  unfold allBuilt in *. rewrite Hsplit, !forallb_app in Hall.
  apply andb_prop in Hall as [_ Hall]. apply andb_prop in Hall as [Hall _].
  exact Hall.
Qed.

End OrderFacts.

(** C4.  When [generatePHP] returns a list, the files of an aggregate of the
    model form one contiguous part of it, which is what the loop body
    returns for that aggregate; and inside what the loop body returns for an
    aggregate a file of a kind that ranks lower stands before every file of
    a kind that ranks higher: enumerations before value objects before
    entities. *)
Theorem generatePHP_aggregate_order (E : RegExpEngine) (B : PhpBuilder)
  (model : CMLModel) (config : GeneratorConfig) (bc : CMLBoundedContext)
  (a : CMLAggregate) :
  bc ∈ boundedContexts model -> a ∈ bc_aggregates bc ->
  (forall files,
      generatePHP model config = Returns files ->
      exists pre part post,
        files = pre ++ part ++ post
        /\ generateAggregate config bc a = Returns part)
  /\ (forall part i j fi fj,
         generateAggregate config bc a = Returns part ->
         part !! i = Some fi -> part !! j = Some fj ->
         rank (type fi) < rank (type fj) -> i < j).
Proof.
  intros Hbc Ha. split.
  - intros files. apply generatePHP_portion; assumption.
  - intros part i j fi fj. apply generateAggregate_sorted.
Qed.

Lemma generatePHP_aggregate_order_witness :
  (forall files,
      @generatePHP literalEngine carefulBuilder salesModel plainConfig
      = Returns files ->
      exists pre part post,
        files = pre ++ part ++ post
        /\ @generateAggregate literalEngine carefulBuilder plainConfig sales
             orderAggregate = Returns part)
  /\ (forall part i j fi fj,
         @generateAggregate literalEngine carefulBuilder plainConfig sales
           orderAggregate = Returns part ->
         part !! i = Some fi -> part !! j = Some fj ->
         rank (type fi) < rank (type fj) -> i < j).
Proof.
  apply (generatePHP_aggregate_order literalEngine carefulBuilder salesModel
           plainConfig sales orderAggregate); apply list_elem_of_here.
Defined.

(** ** Enumeration cases *)

Lemma mapChars_mapChars f g s :
  mapChars f (mapChars g s) = mapChars (fun c => f (g c)) s.
Proof. induction s as [|c s IH]; simpl; congruence. Qed.

Lemma mapChars_ext f g s :
  (forall c, f c = g c) -> mapChars f s = mapChars g s.
Proof. intros Hfg. induction s as [|c s IH]; simpl; congruence. Qed.

Lemma allChars_mapChars p f s :
  (forall c, p (f c) = true) -> allChars p (mapChars f s) = true.
Proof.
  intros Hp. induction s as [|c s IH]; simpl; [reflexivity|].
  rewrite Hp, IH. reflexivity.
Qed.

Lemma forall_ascii (P : ascii -> bool) :
  forallb P (map ascii_of_nat (seq 0 256)) = true -> forall c, P c = true.
Proof.
  intros Hall c. rewrite forallb_forall in Hall. apply Hall.
  apply in_map_iff. exists (nat_of_ascii c). split.
  - apply ascii_nat_embedding.
  - apply in_seq. pose proof (nat_ascii_bounded c). lia.
Qed.

Lemma normalChar_isUpperWord c : isUpperWord (normalChar c) = true.
Proof. revert c. apply forall_ascii. vm_compute. reflexivity. Qed.

Lemma enumCase_normalLabel value :
  enumCase value = (normalLabel value, normalLabel value).
Proof.
  unfold enumCase, normalLabel, toUpperCase.
  rewrite mapChars_mapChars.
  rewrite (mapChars_ext _ normalChar); [reflexivity|].
  intros c. unfold normalChar. destruct (isWord c); reflexivity.
Qed.

(** What [generateEnum] asks of the library, label by label. *)
Lemma generateEnumType_cases enumDef config bc aggregate name :
  pe_cases (generateEnumType enumDef config bc aggregate name)
  = map (fun label => (normalLabel label, normalLabel label))
      (enum_values enumDef).
Proof.
  cbn [generateEnumType pe_cases]. apply map_ext. intros label.
  apply enumCase_normalLabel.
Qed.

(** C3.  In an enumeration [generateEnum] returns, every label of the
    source has its case and every case comes from a label: identifier and
    backing value are both the normal form of the label, that is the label
    in upper case with every character outside [[A-Za-z0-9_]] replaced by an
    underscore, hence made of [[A-Z0-9_]] only.  (When two labels have one
    normal form the library refuses the second case and [generateEnum]
    throws.)  The body [Active, Inactive, pending-review] parses to its
    three labels; generation returns for it, and what it returns holds the
    cases ACTIVE, INACTIVE, PENDING_REVIEW with the same backing strings. *)
Theorem generateEnum_cases :
  (forall (B : PhpBuilder) enumDef config bc aggregate name file,
      generateEnum enumDef config bc aggregate name = Returns file ->
      exists e,
        file = EnumFile e
        /\ pe_type e = "string"
        /\ (forall label, label ∈ enum_values enumDef ->
              (normalLabel label, normalLabel label) ∈ pe_cases e)
        /\ (forall c, c ∈ pe_cases e ->
              exists label,
                label ∈ enum_values enumDef
                /\ c = (normalLabel label, normalLabel label)))
  /\ (forall (B : PhpBuilder) enumDef config bc aggregate name,
         ~ NoDup (map normalLabel (enum_values enumDef)) ->
         generateEnum enumDef config bc aggregate name = Throws)
  /\ (forall label, allChars isUpperWord (normalLabel label) = true)
  /\ parseCML scenario2 =
     {| boundedContexts :=
          [{| bc_name := "Sales";
              bc_aggregates :=
                [{| agg_name := "Order"; agg_entities := [];
                    agg_valueObjects := [];
                    agg_enums := [status] |}] |}] |}
  /\ map normalLabel (enum_values status)
     = ["ACTIVE"; "INACTIVE"; "PENDING_REVIEW"]
  /\ (forall (B : PhpBuilder) files,
         @generatePHP literalEngine B (parseCML scenario2) plainConfig
         = Returns files ->
         map content files
         = [EnumFile
              {| pe_name := "Status";
                 pe_namespace := "App" +:+ backslash +:+ "Models";
                 pe_type := "string";
                 pe_cases := [("ACTIVE", "ACTIVE"); ("INACTIVE", "INACTIVE");
                              ("PENDING_REVIEW", "PENDING_REVIEW")] |}])
  /\ exists files,
       @generatePHP literalEngine carefulBuilder (parseCML scenario2)
         plainConfig = Returns files.
Proof.
  split; [|split; [|split; [|split; [|split; [|split]]]]].
  - intros B enumDef config bc aggregate name file Hfile.
    apply printFile_Returns in Hfile as [-> _].
    eexists. split; [reflexivity|]. split; [reflexivity|].
    rewrite generateEnumType_cases. split.
    + intros label Hlabel.
      apply list_elem_of_In,
        (in_map (fun l => (normalLabel l, normalLabel l))), list_elem_of_In,
        Hlabel.
    + intros c Hc. apply list_elem_of_In, in_map_iff in Hc as (label & <- & Hl).
      exists label. split; [apply list_elem_of_In, Hl|reflexivity].
  - intros B enumDef config bc aggregate name Hdup.
    unfold generateEnum, printFile.
    destruct (builds _) eqn:Hb; [|reflexivity].
    exfalso. apply Hdup. apply builds_cases in Hb.
    rewrite generateEnumType_cases, map_map in Hb. exact Hb.
  - intros label. apply allChars_mapChars, normalChar_isUpperWord.
  - vm_compute. reflexivity.
  - vm_compute. reflexivity.
  - intros B files Hfiles. apply generatePHP_Returns in Hfiles as [-> _].
    vm_compute. reflexivity.
  - eexists. vm_compute. reflexivity.
Qed.

Lemma generateEnum_cases_witness :
  @generateEnum carefulBuilder
    {| enum_name := "Size"; enum_values := ["s"; "S"] |} plainConfig
    "Sales" "Order" "Size"
  = Throws.
Proof.
  apply (proj1 (proj2 generateEnum_cases)).
  vm_compute. intros Hnd. inversion Hnd as [|x l Hx _]. apply Hx.
  apply list_elem_of_here.
Defined.

(** ** Read-only value objects *)

Lemma isSetter_getter config prop : isSetter (getter config prop) = false.
Proof. reflexivity. Qed.

Lemma voConstructor_not_setter vo config m :
  m ∈ voConstructor vo config -> isSetter m = false.
Proof.
  unfold voConstructor.
  destruct (_ && _); intros Hm.
  - apply list_elem_of_singleton in Hm as ->. reflexivity.
  - inversion Hm.
Qed.

Lemma voAccessors_readonly_not_setter vo config m :
  isTrue (readonlyValueObjects config) = true ->
  m ∈ voAccessors vo config -> isSetter m = false.
Proof.
  intros Hro. unfold voAccessors. rewrite Hro, andb_false_r.
  intros Hm. apply list_elem_of_In, in_flat_map in Hm as (prop & _ & Hm).
  rewrite app_nil_r in Hm.
  destruct (addGetters config); simpl in Hm; [|contradiction].
  destruct Hm as [<-|[]]. apply isSetter_getter.
Qed.

(** Read-only requested: whatever the version, no setter and a constructor
    that takes every declared property, in the order of declaration. *)
Lemma readonly_value_object_class vo config bc aggregate name :
  readonlyValueObjects config = Some true ->
  let cls := generateValueObjectClass vo config bc aggregate name in
  voEffectiveConstructorType config = CtAll
  /\ (forall m, m ∈ cls_methods cls -> isSetter m = false)
  /\ (vo_properties vo <> [] ->
      exists ctor rest,
        cls_methods cls = ctor :: rest
        /\ isConstructor ctor = true
        /\ map param_name (m_params ctor) = map prop_name (vo_properties vo)).
Proof.
  intros Hro cls.
  assert (Heff : voEffectiveConstructorType config = CtAll).
  { unfold voEffectiveConstructorType. rewrite Hro. reflexivity. }
  split; [exact Heff|]. split.
  - intros m Hm. unfold cls in Hm. simpl in Hm.
    apply elem_of_app in Hm as [Hm|Hm].
    + eapply voConstructor_not_setter; eassumption.
    + eapply voAccessors_readonly_not_setter; [|eassumption].
      rewrite Hro. reflexivity.
  - intros Hne. unfold cls. simpl. unfold voConstructor.
    rewrite Heff. simpl.
    destruct (vo_properties vo) as [|p ps] eqn:Hps; [congruence|]. simpl.
    eexists _, _. split; [reflexivity|]. split; [reflexivity|].
    simpl. unfold voPropertiesForConstructor. rewrite Heff, Hps. simpl.
    rewrite map_map. reflexivity.
Qed.

(** C6.  When read-only value objects are requested and a target version is
    configured (each of the four supported versions makes the class or its
    properties read-only), a class [generateValueObject] returns for a value
    object has no setter, whatever the setter option says, the effective
    constructor policy is "all", and every declared property is a parameter
    of the constructor.  [generateValueObject] returns such a class when
    the library builds what it is asked for. *)
Theorem readonly_value_object (B : PhpBuilder) (vo : CMLValueObject)
  (config : GeneratorConfig) (bc aggregate name : string) (v : PhpVersion) :
  readonlyValueObjects config = Some true ->
  phpVersion config = Some v ->
  (forall file,
      generateValueObject vo config bc aggregate name = Returns file ->
      exists cls,
        file = ClassFile cls
        /\ (cls_readOnly cls = true
            \/ shouldApplyReadonlyProperty config = true)
        /\ voEffectiveConstructorType config = CtAll
        /\ (forall m, m ∈ cls_methods cls -> isSetter m = false)
        /\ (forall p, p ∈ vo_properties vo ->
            exists ctor prm,
              ctor ∈ cls_methods cls /\ isConstructor ctor = true
              /\ prm ∈ m_params ctor /\ param_name prm = prop_name p))
  /\ (builds (requestedValueObject vo config bc aggregate name) = true ->
      exists file,
        generateValueObject vo config bc aggregate name = Returns file).
Proof.
  intros Hro Hv. split.
  - intros file Hfile. apply printFile_Returns in Hfile as [-> _].
    eexists. split; [reflexivity|].
    set (cls := generateValueObjectClass vo config bc aggregate name).
    destruct (readonly_value_object_class vo config bc aggregate name Hro)
      as (Heff & Hset & Hctor).
    split; [|split; [exact Heff|split; [exact Hset|]]].
    + unfold cls, shouldApplyReadonlyProperty. simpl. rewrite Hro, Hv. simpl.
      destruct (atLeast82 v); [left|right]; reflexivity.
    + intros p Hp.
      destruct Hctor as (ctor & rest & Hms & Hc & Hnames).
      { intros Hnil. rewrite Hnil in Hp. inversion Hp. }
      assert (Hin : prop_name p ∈ map param_name (m_params ctor)).
      { rewrite Hnames. apply list_elem_of_In, in_map, list_elem_of_In, Hp. }
      apply list_elem_of_In, in_map_iff in Hin as (prm & Hn & Hprm).
      exists ctor, prm. fold cls in Hms. rewrite Hms.
      split; [apply list_elem_of_here|].
      split; [exact Hc|]. split; [apply list_elem_of_In, Hprm|exact Hn].
  - intros Hb. eexists. apply printFile_Returns. split; [reflexivity|exact Hb].
Qed.

Lemma readonly_value_object_witness :
  (exists file,
      @generateValueObject carefulBuilder money readonlyConfig "Sales" "Order"
        "Money" = Returns file)
  /\ exists cls,
       requestedValueObject money readonlyConfig "Sales" "Order" "Money"
       = ClassFile cls
       /\ (cls_readOnly cls = true
           \/ shouldApplyReadonlyProperty readonlyConfig = true)
       /\ voEffectiveConstructorType readonlyConfig = CtAll
       /\ (forall m, m ∈ cls_methods cls -> isSetter m = false)
       /\ (forall p, p ∈ vo_properties money ->
           exists ctor prm,
             ctor ∈ cls_methods cls /\ isConstructor ctor = true
             /\ prm ∈ m_params ctor /\ param_name prm = prop_name p).
Proof.
  destruct (readonly_value_object carefulBuilder money readonlyConfig "Sales"
              "Order" "Money" V8_2 eq_refl eq_refl) as [Hclass Hreturns].
  split; [apply Hreturns; reflexivity|].
  apply Hclass. reflexivity.
Defined.

(** ** Collections in the type mapper *)

(** The current mapper: the type of a collection with a non-blank element
    type is the representation of collections, whatever the element type. *)
Lemma mapTypeToPHP_collection config prop :
  prop_isCollection prop = true ->
  isBlank (prop_type prop) = false ->
  mapTypeToPHP config prop
  = collectionRepresentation (framework config) (prop_isRelation prop).
Proof.
  intros Hc Hb. unfold mapTypeToPHP, collectionRepresentation.
  rewrite Hb, Hc. reflexivity.
Qed.

(** C7.  For a collection property the mapper answers the representation
    of collections that goes with the framework (and with the relation
    flag), whatever the element type: with any two element types that are
    not blank, a primitive such as [string] or [int] or the name of a
    sibling type, the answer is the same.  The collection flag is looked at
    before the table of primitives. *)
Theorem mapTypeToPHP_collection_independent (config : GeneratorConfig)
  (prop : CMLProperty) (t1 t2 : string) :
  prop_isCollection prop = true ->
  isBlank t1 = false -> isBlank t2 = false ->
  mapTypeToPHP config (withType t1 prop) = mapTypeToPHP config (withType t2 prop)
  /\ mapTypeToPHP config (withType t1 prop)
     = collectionRepresentation (framework config) (prop_isRelation prop).
Proof.
  intros Hc H1 H2.
  rewrite !mapTypeToPHP_collection by assumption. split; reflexivity.
Qed.

Lemma mapTypeToPHP_collection_independent_witness :
  mapTypeToPHP doctrineConfig (property "String" "tags" true true)
  = mapTypeToPHP doctrineConfig (property "Tag" "tags" true true)
  /\ mapTypeToPHP doctrineConfig (property "String" "tags" true true)
     = doctrineCollection.
Proof.
  apply (mapTypeToPHP_collection_independent doctrineConfig
           (property "String" "tags" true true) "String" "Tag");
    reflexivity.
Defined.

(** The earlier state of the mapper, which the file carries next to the
    current one, did not have this independence: for the property parsed
    from [- List<String> tags] under the ORM-mapped framework it answers the
    primitive type ["string"], while the same collection of a sibling type
    is mapped to the framework's collection.  The current mapper answers the
    collection in both cases. *)
Example earlier_mapTypeToPHP_primitive_collection :
  parseProperty "- List<String> tags"
  = Some (property "String" "tags" true true)
  /\ EarlierGenerator.mapTypeToPHP doctrineConfig
       (property "String" "tags" true true) = "string"
  /\ EarlierGenerator.mapTypeToPHP doctrineConfig
       (property "Tag" "tags" true true) = doctrineCollection
  /\ mapTypeToPHP doctrineConfig (property "String" "tags" true true)
     = doctrineCollection
  /\ mapTypeToPHP doctrineConfig (property "Tag" "tags" true true)
     = doctrineCollection.
Proof. repeat split; vm_compute; reflexivity. Qed.

(** ** Closing braces *)

(** C2, as stated, fails: with an enumeration and an entity both open, one
    closing-brace line resets the entity cursor together with the
    enumeration cursor, so the property line behind it reaches no entity. *)
Lemma closing_brace_closes_entity_with_enum :
  currentEnum enumAndEntityOpen = Some 0
  /\ currentEntity enumAndEntityOpen = Some 0
  /\ currentEnum (step enumAndEntityOpen "}") = None
  /\ currentEntity (step enumAndEntityOpen "}") <> currentEntity enumAndEntityOpen
  /\ parseCML enumInsideEntity =
     {| boundedContexts :=
          [{| bc_name := "Sales";
              bc_aggregates :=
                [{| agg_name := "Order";
                    agg_entities :=
                      [{| ent_name := "Order"; ent_isAggregateRoot := false;
                          ent_properties := [] |}];
                    agg_valueObjects := [];
                    agg_enums :=
                      [{| enum_name := "Status";
                          enum_values := ["Active"] |}] |}] |}] |}.
Proof. repeat split; vm_compute; congruence. Qed.

(** C2, amended.  A line that is ["}"] or ends with ["}"], and that is not
    one of the five declaration lines, resets the enumeration, value-object
    and entity cursors all at once and changes nothing else: the aggregate
    and context cursors and every object stay as they were. *)
Theorem closing_line_resets_all (st : ParserState) (line : string) :
  isDeclarationLine line = false ->
  isClosingLine line = true ->
  currentEnum (step st line) = None
  /\ currentValueObject (step st line) = None
  /\ currentEntity (step st line) = None
  /\ currentAggregate (step st line) = currentAggregate st
  /\ currentBoundedContext (step st line) = currentBoundedContext st
  /\ st_boundedContexts (step st line) = st_boundedContexts st
  /\ heapAggregates (step st line) = heapAggregates st
  /\ heapEntities (step st line) = heapEntities st
  /\ heapValueObjects (step st line) = heapValueObjects st
  /\ heapEnums (step st line) = heapEnums st.
Proof.
  unfold isDeclarationLine. intros Hdecl Hclose.
  apply orb_false_elim in Hdecl as [Hdecl Hn].
  apply orb_false_elim in Hdecl as [Hdecl Hv].
  apply orb_false_elim in Hdecl as [Hdecl He].
  apply orb_false_elim in Hdecl as [Hb Ha].
  unfold step. rewrite Hb, Ha, He, Hv, Hn, Hclose. unfold closeBrace. simpl.
  destruct (currentEnum st), (currentValueObject st), (currentEntity st);
    repeat split; reflexivity.
Qed.

Lemma closing_line_resets_all_witness :
  currentEnum (step enumAndEntityOpen "}") = None
  /\ currentValueObject (step enumAndEntityOpen "}") = None
  /\ currentEntity (step enumAndEntityOpen "}") = None
  /\ currentAggregate (step enumAndEntityOpen "}")
     = currentAggregate enumAndEntityOpen
  /\ currentBoundedContext (step enumAndEntityOpen "}")
     = currentBoundedContext enumAndEntityOpen
  /\ st_boundedContexts (step enumAndEntityOpen "}")
     = st_boundedContexts enumAndEntityOpen
  /\ heapAggregates (step enumAndEntityOpen "}")
     = heapAggregates enumAndEntityOpen
  /\ heapEntities (step enumAndEntityOpen "}") = heapEntities enumAndEntityOpen
  /\ heapValueObjects (step enumAndEntityOpen "}")
     = heapValueObjects enumAndEntityOpen
  /\ heapEnums (step enumAndEntityOpen "}") = heapEnums enumAndEntityOpen.
Proof.
  apply (closing_line_resets_all enumAndEntityOpen "}"); reflexivity.
Defined.

(** ** Pattern rules *)

Section RuleFacts.

Context `{RegExpEngine}.

Lemma getSubfolderForFile_find name kind rules :
  getSubfolderForFile name kind rules
  = selected (find (ruleEligible name kind) rules).
Proof.
  induction rules as [|m rules IH]; simpl; [reflexivity|].
  unfold ruleEligible, ruleMatches.
  destruct (typeFolder m) as [t|].
  - destruct (bool_decide (t = kind)); simpl.
    + destruct (truthy (pattern m)), (truthy (subfolder m)); simpl;
        try exact IH.
      destruct (newRegExp (pattern m)) as [regex|]; [|exact IH].
      destruct (regexTest regex name); [reflexivity|exact IH].
    + rewrite IH. unfold ruleEligible, ruleMatches.
      rewrite !andb_false_r. reflexivity.
  - simpl. destruct (truthy (pattern m)), (truthy (subfolder m)); simpl;
      try exact IH.
    destruct (newRegExp (pattern m)) as [regex|]; [|exact IH].
    destruct (regexTest regex name); [reflexivity|exact IH].
Qed.

Lemma malformed_pattern_not_eligible name kind m :
  newRegExp (pattern m) = None -> ruleEligible name kind m = false.
Proof.
  intros Hbad. unfold ruleEligible, ruleMatches. rewrite Hbad.
  rewrite !andb_false_r. reflexivity.
Qed.

Lemma malformed_nameReplace name nr :
  newRegExp nr = None -> applyNameReplace name (Some nr) = name.
Proof.
  intros Hbad. unfold applyNameReplace. rewrite Hbad.
  destruct (negb (truthy nr)); reflexivity.
Qed.

Lemma withoutMalformedStrip_name name m :
  applyNameReplace name (nameReplace (withoutMalformedStrip m))
  = applyNameReplace name (nameReplace m).
Proof.
  cbn [withoutMalformedStrip nameReplace].
  destruct (nameReplace m) as [nr|]; [|reflexivity].
  unfold compiles. destruct (newRegExp nr) eqn:Hnr; [reflexivity|].
  rewrite (malformed_nameReplace name nr Hnr). reflexivity.
Qed.

(** Malformed rules and malformed name-strip patterns decide nothing: the
    folder and the final name of a unit are the same without them. *)
Lemma withoutMalformed_unit name kind rules :
  mr_subfolder (getSubfolderForFile name kind (withoutMalformed rules))
  = mr_subfolder (getSubfolderForFile name kind rules)
  /\ applyNameReplace name
       (mr_nameReplace (getSubfolderForFile name kind (withoutMalformed rules)))
     = applyNameReplace name
         (mr_nameReplace (getSubfolderForFile name kind rules)).
Proof.
  unfold withoutMalformed.
  induction rules as [|m rules IH]; [split; reflexivity|].
  destruct (compiles (pattern m)) eqn:Hm.
  - rewrite filter_cons_True by exact Hm.
    cbn [map getSubfolderForFile].
    cbn [withoutMalformedStrip pattern typeFolder subfolder].
    destruct (match typeFolder m with
              | Some t => negb (bool_decide (t = kind))
              | None => false
              end); [exact IH|].
    destruct (negb (truthy (pattern m)) || negb (truthy (subfolder m)));
      [exact IH|].
    destruct (newRegExp (pattern m)) as [regex|]; [|exact IH].
    destruct (regexTest regex name); [|exact IH].
    cbn [mr_subfolder mr_nameReplace]. split; [reflexivity|].
    apply (withoutMalformedStrip_name name m).
  - rewrite filter_cons_False by (rewrite Hm; discriminate).
    cbn [getSubfolderForFile]. unfold compiles in Hm.
    destruct (newRegExp (pattern m)); [discriminate|].
    destruct (match typeFolder m with
              | Some t => negb (bool_decide (t = kind))
              | None => false
              end); [exact IH|].
    destruct (negb (truthy (pattern m)) || negb (truthy (subfolder m)));
      exact IH.
Qed.

Lemma plannedUnit_withoutMalformed config rules dir name kind folder ft
  (emit : string -> PhpFile) :
  regexPatternMappings config = Some rules ->
  plannedUnit (withMappings config (Some (withoutMalformed rules))) dir name
    kind folder ft emit
  = plannedUnit config dir name kind folder ft emit.
Proof.
  intros Hrules. unfold plannedUnit.
  cbn [withMappings regexPatternMappings groupByType]. rewrite Hrules.
  destruct (withoutMalformed_unit name kind rules) as [-> ->]. reflexivity.
Qed.

Lemma plannedFiles_withoutMalformed model config rules :
  regexPatternMappings config = Some rules ->
  plannedFiles model (withMappings config (Some (withoutMalformed rules)))
  = plannedFiles model config.
Proof.
  intros Hrules. unfold plannedFiles.
  apply flat_map_ext. intros bc. apply flat_map_ext. intros a.
  unfold plannedAggregate.
  repeat apply (f_equal2 (@app _)); apply map_ext; intros u;
    apply (plannedUnit_withoutMalformed config rules); exact Hrules.
Qed.

End RuleFacts.

(** C8, as stated, fails: the first rule whose pattern matches the name (and
    that has no kind filter) is passed over when its subfolder is empty, and
    the second rule decides the folder and the name. *)
Lemma first_matching_rule_passed_over :
  @ruleMatches literalEngine "OrderEntity" TfEntity stripEntitySuffix = true
  /\ find (@ruleMatches literalEngine "OrderEntity" TfEntity)
       [stripEntitySuffix; ordersFolder] = Some stripEntitySuffix
  /\ @getSubfolderForFile literalEngine "OrderEntity" TfEntity
       [stripEntitySuffix; ordersFolder]
     = selected (Some ordersFolder)
  /\ @getSubfolderForFile literalEngine "OrderEntity" TfEntity
       [stripEntitySuffix; ordersFolder]
     <> selected
          (find (@ruleMatches literalEngine "OrderEntity" TfEntity)
             [stripEntitySuffix; ordersFolder]).
Proof. repeat split; vm_compute; congruence. Qed.

(** C8, amended.  Path resolution selects the first rule that has a
    non-empty pattern and a non-empty subfolder, whose kind filter, if
    present, names the unit's kind, and whose pattern compiles and matches
    the unit's original name; with no such rule the subfolder is empty and
    the name is kept.  A rule whose pattern is malformed is never selected, a
    malformed name-strip pattern leaves the name unchanged, and generation
    does not abort on their account: [generatePHP] returns, or throws,
    exactly what it does when the malformed rules and the malformed
    name-strip patterns are taken out of the list. *)
Theorem rule_selection (E : RegExpEngine) (B : PhpBuilder) (name bad : string)
  (kind : TypeFolder) (rules : list RegexPatternMapping) (model : CMLModel)
  (config : GeneratorConfig) :
  newRegExp bad = None ->
  getSubfolderForFile name kind rules
  = selected (find (ruleEligible name kind) rules)
  /\ (forall m, pattern m = bad -> ruleEligible name kind m = false)
  /\ applyNameReplace name (Some bad) = name
  /\ (regexPatternMappings config = Some rules ->
      generatePHP model config
      = generatePHP model
          (withMappings config (Some (withoutMalformed rules)))).
Proof.
  intros Hbad. split; [apply getSubfolderForFile_find|].
  split; [|split].
  - intros m Hm. apply malformed_pattern_not_eligible. rewrite Hm. exact Hbad.
  - apply malformed_nameReplace, Hbad.
  - intros Hrules. rewrite !generatePHP_outcome.
    rewrite (plannedFiles_withoutMalformed model config rules Hrules).
    reflexivity.
Qed.

Lemma rule_selection_witness :
  @getSubfolderForFile literalEngine "OrderEntity" TfEntity malformedRules
  = selected
      (find (@ruleEligible literalEngine "OrderEntity" TfEntity)
         malformedRules)
  /\ (forall m, pattern m = "(" ->
                @ruleEligible literalEngine "OrderEntity" TfEntity m = false)
  /\ @applyNameReplace literalEngine "OrderEntity" (Some "(") = "OrderEntity"
  /\ @generatePHP literalEngine carefulBuilder salesModel malformedRulesConfig
     = @generatePHP literalEngine carefulBuilder salesModel
         (withMappings malformedRulesConfig
            (Some (@withoutMalformed literalEngine malformedRules))).
Proof.
  destruct (rule_selection literalEngine carefulBuilder "OrderEntity" "("
              TfEntity malformedRules salesModel malformedRulesConfig
              eq_refl) as (H1 & H2 & H3 & H4).
  split; [exact H1|]. split; [exact H2|]. split; [exact H3|].
  apply H4. reflexivity.
Defined.

(** ** The nullable marker *)

Lemma stripPrefix_startsWith p s rest :
  stripPrefix p s = Some rest -> startsWith p s = true.
Proof.
  revert s. induction p as [|a p IH]; intros s Hs; simpl in *; [reflexivity|].
  destruct s as [|b s]; [discriminate|].
  destruct (Ascii.eqb a b); [|discriminate]. simpl. eauto.
Qed.






Lemma append_cons c x y : String c x +:+ y = String c (x +:+ y).
Proof. reflexivity. Qed.


Lemma append_assoc x y z : (x +:+ y) +:+ z = x +:+ y +:+ z.
Proof.
  induction x as [|c x IH]; [reflexivity|].
  rewrite !append_cons, IH. reflexivity.
Qed.




Lemma dropWhile_all p w s :
  allChars p w = true -> dropWhile p (w +:+ s) = dropWhile p s.
Proof.
  induction w as [|c w IH]; intros Hw; [reflexivity|].
  rewrite append_cons. simpl in *.
  apply andb_prop in Hw as [Hc Hw]. rewrite Hc. apply IH, Hw.
Qed.




(** *** Lines of the shape [T nullableN]

    [T] is a type name and [N] the rest of an identifier that begins with
    the marker.  What is special about a word character. *)
Lemma isWord_facts c :
  isWord c = true ->
  isSpace c = false
  /\ Ascii.eqb c "/" = false /\ Ascii.eqb c "<" = false
  /\ Ascii.eqb c "-" = false /\ Ascii.eqb c "^" = false
  /\ Ascii.eqb c "{" = false /\ Ascii.eqb c "}" = false.
Proof.
  assert (Hall : forall d,
             implb (isWord d)
               (negb (isSpace d) && negb (Ascii.eqb d "/")
                && negb (Ascii.eqb d "<") && negb (Ascii.eqb d "-")
                && negb (Ascii.eqb d "^") && negb (Ascii.eqb d "{")
                && negb (Ascii.eqb d "}")) = true).
  { apply forall_ascii. vm_compute. reflexivity. }
  intros Hw. specialize (Hall c). rewrite Hw in Hall. simpl in Hall.
  repeat (apply andb_prop in Hall as [Hall ?]).
  repeat split; apply negb_true_iff; assumption.
Qed.

Lemma allChars_append p x y :
  allChars p (x +:+ y) = allChars p x && allChars p y.
Proof.
  induction x as [|c x IH]; [reflexivity|].
  rewrite append_cons. simpl. rewrite IH, andb_assoc. reflexivity.
Qed.

Lemma allChars_impl (p q : ascii -> bool) s :
  (forall c, p c = true -> q c = true) ->
  allChars p s = true -> allChars q s = true.
Proof.
  intros Hpq. induction s as [|c s IH]; [reflexivity|]. simpl.
  intros H. apply andb_prop in H as [Hc Hs].
  rewrite (Hpq c Hc), (IH Hs). reflexivity.
Qed.

(** A pattern that never matches inside a class of strings closed under
    taking the tail leaves those strings alone. *)
Lemma replaceFirst_id (p : ascii -> bool) m r s :
  (forall t, allChars p t = true -> m t = None) ->
  allChars p s = true -> replaceFirst m r s = s.
Proof.
  intros Hm. induction s as [|c s IH]; intros Hs.
  - simpl. rewrite (Hm "" eq_refl). reflexivity.
  - cbn [replaceFirst]. rewrite (Hm _ Hs).
    simpl in Hs. apply andb_prop in Hs as [_ Hs]. rewrite (IH Hs). reflexivity.
Qed.



(** A prefix consists of characters of the string. *)
Lemma startsWith_allChars p sub s :
  startsWith sub s = true -> allChars p s = true -> allChars p sub = true.
Proof.
  revert s. induction sub as [|a sub IH]; intros s Hsw Hs; [reflexivity|].
  destruct s as [|b s]; [discriminate|]. simpl in *.
  apply andb_prop in Hsw as [Hab Hsw]. apply andb_prop in Hs as [Hb Hs].
  apply Ascii.eqb_eq in Hab as ->. rewrite Hb. eapply IH; eassumption.
Qed.

Lemma startsWith_foreign p sub s :
  allChars p sub = false -> allChars p s = true -> startsWith sub s = false.
Proof.
  intros Hsub Hs. destruct (startsWith sub s) eqn:Hsw; [|reflexivity].
  rewrite (startsWith_allChars p sub s Hsw Hs) in Hsub. discriminate.
Qed.


Lemma stripPrefix_foreign p sub s :
  allChars p sub = false -> allChars p s = true -> stripPrefix sub s = None.
Proof.
  intros Hsub Hs. destruct (stripPrefix sub s) as [rest|] eqn:Hp; [|reflexivity].
  apply stripPrefix_startsWith in Hp.
  rewrite (startsWith_foreign p sub s Hsub Hs) in Hp. discriminate.
Qed.

(** A string without white space is its own trimmed form and, unless it is
    empty, its only token. *)
Lemma trimEnd_no_space s :
  allChars (fun c => negb (isSpace c)) s = true -> trimEnd s = s.
Proof.
  induction s as [|c s IH]; [reflexivity|]. simpl.
  intros H. apply andb_prop in H as [Hc Hs]. apply negb_true_iff in Hc.
  rewrite (IH Hs), Hc. destruct s; reflexivity.
Qed.

Lemma trim_no_space s :
  allChars (fun c => negb (isSpace c)) s = true -> trim s = s.
Proof.
  intros Hs. unfold trim.
  assert (Hd : dropWhile isSpace s = s).
  { destruct s as [|c s]; [reflexivity|]. simpl in *.
    apply andb_prop in Hs as [Hc _]. apply negb_true_iff in Hc.
    rewrite Hc. reflexivity. }
  rewrite Hd. apply trimEnd_no_space, Hs.
Qed.

Lemma append_empty_r s : s +:+ "" = s.
Proof.
  induction s as [|c s IH]; [reflexivity|]. rewrite append_cons, IH.
  reflexivity.
Qed.












(** ** Units created while their parent is not open *)

Lemma length_updateAt {A} (c : option ref) (f : A -> A) (l : list A) :
  List.length (updateAt c f l) = List.length l.
Proof. destruct c; simpl; [apply length_alter|reflexivity]. Qed.

Lemma lookup_updateAt {A} (c : option ref) (f : A -> A) (l : list A) i x :
  updateAt c f l !! i = Some x ->
  exists y, l !! i = Some y /\ (x = y \/ (c = Some i /\ x = f y)).
Proof.
  destruct c as [r|]; simpl; [|eauto].
  rewrite list_lookup_alter. intros Hx. case_decide as Hri; [|eauto].
  subst r. destruct (l !! i) as [y|]; simpl in Hx; [|discriminate].
  injection Hx as <-. eauto.
Qed.

Lemma elem_of_updateAt {A} (c : option ref) (f : A -> A) (l : list A) x :
  x ∈ updateAt c f l -> exists y, y ∈ l /\ (x = y \/ x = f y).
Proof.
  intros Hx. apply list_elem_of_lookup in Hx as [i Hi].
  apply lookup_updateAt in Hi as (y & Hy & Hxy).
  exists y. split; [eapply list_elem_of_lookup_2, Hy|].
  destruct Hxy as [?|[_ ?]]; auto.
Qed.

Lemma children_pushChild k k' r ao :
  children k (pushChild k' r ao)
  = children k ao ++ (if decide (k = k') then [r] else []).
Proof. destruct k, k'; simpl; rewrite ?app_nil_r; reflexivity. Qed.

Lemma elem_of_children_pushChild k k' r r' ao :
  r ∈ children k (pushChild k' r' ao) ->
  r ∈ children k ao \/ (k = k' /\ r = r').
Proof.
  rewrite children_pushChild, elem_of_app.
  intros [?|Hr]; [auto|]. destruct (decide (k = k')); [|inversion Hr].
  apply list_elem_of_singleton in Hr. auto.
Qed.

(** What an iteration does, whatever the line. *)
Lemma step_effect st line : Effect st (step st line).
Proof.
  unfold step.
  destruct (startsWith "BoundedContext " line).
  { eapply EffectContext; reflexivity. }
  destruct (startsWith "Aggregate " line).
  { eapply EffectAggregate; reflexivity. }
  destruct (startsWith "Entity " line).
  { apply (EffectChild _ _ KEntity); try reflexivity.
    - simpl. rewrite length_app. simpl. lia.
    - intros [] Hk; try reflexivity. congruence. }
  destruct (startsWith "ValueObject " line).
  { apply (EffectChild _ _ KValueObject); try reflexivity.
    - simpl. rewrite length_app. simpl. lia.
    - intros [] Hk; try reflexivity. congruence. }
  destruct (startsWith "enum " line).
  { apply (EffectChild _ _ KEnum); try reflexivity.
    - simpl. rewrite length_app. simpl. lia.
    - intros [] Hk; try reflexivity. congruence. }
  destruct (isClosingLine line).
  { apply EffectNone; reflexivity. }
  destruct (_ && _).
  { apply EffectNone; try reflexivity.
    intros []; simpl; rewrite ?length_updateAt; reflexivity. }
  destruct (_ && _).
  { apply EffectNone; try reflexivity.
    intros []; simpl; rewrite ?length_updateAt; reflexivity. }
  apply EffectNone; try reflexivity.
  intros []; simpl; try reflexivity;
    repeat case_match; rewrite ?length_updateAt; reflexivity.
Qed.

Lemma wellFormed_initial : wellFormed initialState.
Proof.
  split.
  - intros c a Hc. inversion Hc.
  - intros a ao k r Ha. destruct a; discriminate.
Qed.

Lemma singleOwner_initial : singleOwner initialState.
Proof. intros k r a1 a2 ao1 ao2 Ha. destruct a1; discriminate. Qed.

Lemma lookup_snoc_Some {A} (l : list A) (x y : A) i :
  (l ++ [x]) !! i = Some y -> l !! i = Some y \/ y = x.
Proof.
  rewrite lookup_app_Some. intros [?|[_ Hi]]; [auto|].
  apply list_lookup_singleton_Some in Hi as [_ ?]. auto.
Qed.

Lemma heapSize_mono st st' k : Effect st st' -> heapSize k st <= heapSize k st'.
Proof.
  intros [_ _ Hs|? _ _ Hs|? _ _ Hs|k0 _ _ Hk Hs]; try (rewrite Hs; lia).
  destruct (decide (k = k0)) as [->|Hne]; [lia|]. rewrite Hs by exact Hne. lia.
Qed.

Lemma wellFormed_step st st' :
  Effect st st' -> wellFormed st -> wellFormed st'.
Proof.
  intros Heff [Hc Ha]. pose proof (fun k => heapSize_mono st st' k Heff) as Hmono.
  destruct Heff as [Ec Eh Es|name Ec Eh Es|name Ec Eh Es|k0 Ec Eh Ek Es].
  - split.
    + rewrite Ec, Eh. exact Hc.
    + intros a ao k r. rewrite Eh, Es. apply Ha.
  - split.
    + rewrite Ec, Eh. intros c a Hin Hac.
      apply elem_of_app in Hin as [Hin|Hin]; [eauto|].
      apply list_elem_of_singleton in Hin as ->. inversion Hac.
    + intros a ao k r. rewrite Eh, Es. apply Ha.
  - split.
    + rewrite Ec, Eh, length_app. simpl. intros c' a Hin Hac.
      apply elem_of_updateAt in Hin as (c & Hin & [->| ->]).
      * specialize (Hc c a Hin Hac). lia.
      * simpl in Hac. apply elem_of_app in Hac as [Hac|Hac].
        -- specialize (Hc c a Hin Hac). lia.
        -- apply list_elem_of_singleton in Hac as ->. lia.
    + intros a ao k r. rewrite Eh, Es. intros Hl Hr.
      apply lookup_snoc_Some in Hl as [Hl| ->]; [eauto|].
      destruct k; inversion Hr.
  - split.
    + rewrite Ec, Eh, length_updateAt. exact Hc.
    + intros a ao' k r. rewrite Eh. intros Hl Hr.
      apply lookup_updateAt in Hl as (ao & Hl & [->|[_ ->]]).
      * specialize (Ha a ao k r Hl Hr). specialize (Hmono k). lia.
      * apply elem_of_children_pushChild in Hr as [Hr|[-> ->]].
        -- specialize (Ha a ao k r Hl Hr). specialize (Hmono k). lia.
        -- lia.
Qed.

Lemma singleOwner_step st st' :
  Effect st st' -> wellFormed st -> singleOwner st -> singleOwner st'.
Proof.
  intros Heff [_ Ha] Hu.
  destruct Heff as [Ec Eh Es|name Ec Eh Es|name Ec Eh Es|k0 Ec Eh Ek Es];
    intros k r a1 a2 ao1 ao2; rewrite Eh.
  - apply Hu.
  - apply Hu.
  - intros H1 H2 Hr1 Hr2.
    apply lookup_snoc_Some in H1 as [H1| ->]; [|destruct k; inversion Hr1].
    apply lookup_snoc_Some in H2 as [H2| ->]; [|destruct k; inversion Hr2].
    eapply Hu; eassumption.
  - intros H1 H2 Hr1 Hr2.
    apply lookup_updateAt in H1 as (o1 & H1 & E1).
    apply lookup_updateAt in H2 as (o2 & H2 & E2).
    assert (Hold1 : r ∈ children k o1 \/
                    (currentAggregate st = Some a1 /\ k = k0
                     /\ r = heapSize k0 st)).
    { destruct E1 as [->|[Hcur ->]]; [auto|].
      apply elem_of_children_pushChild in Hr1 as [?|[? ?]]; auto. }
    assert (Hold2 : r ∈ children k o2 \/
                    (currentAggregate st = Some a2 /\ k = k0
                     /\ r = heapSize k0 st)).
    { destruct E2 as [->|[Hcur ->]]; [auto|].
      apply elem_of_children_pushChild in Hr2 as [?|[? ?]]; auto. }
    destruct Hold1 as [O1|(C1 & -> & ->)], Hold2 as [O2|(C2 & K2 & R2)].
    + eapply Hu; eassumption.
    + subst. specialize (Ha a1 o1 k0 _ H1 O1). lia.
    + specialize (Ha a2 o2 k0 _ H2 O2). lia.
    + congruence.
Qed.

Lemma orphanAggregate_step a st st' :
  Effect st st' -> orphanAggregate a st -> orphanAggregate a st'.
Proof.
  intros Heff [Hlt Hno]. unfold orphanAggregate, aggregateAttached in *.
  destruct Heff as [Ec Eh Es|name Ec Eh Es|name Ec Eh Es|k0 Ec Eh Ek Es];
    rewrite Ec, Eh.
  - auto.
  - split; [exact Hlt|]. intros (c & Hin & Hac).
    apply elem_of_app in Hin as [Hin|Hin]; [eauto|].
    apply list_elem_of_singleton in Hin as ->. inversion Hac.
  - split; [rewrite length_app; lia|]. intros (c' & Hin & Hac).
    apply elem_of_updateAt in Hin as (c & Hin & [->| ->]); [eauto|].
    simpl in Hac. apply elem_of_app in Hac as [Hac|Hac]; [eauto|].
    apply list_elem_of_singleton in Hac. lia.
  - rewrite length_updateAt. auto.
Qed.

Lemma orphanChild_step k r st st' :
  Effect st st' -> orphanChild k r st -> orphanChild k r st'.
Proof.
  intros Heff [Hlt Hno].
  pose proof (heapSize_mono st st' k Heff) as Hmono.
  split; [lia|].
  destruct Heff as [Ec Eh Es|name Ec Eh Es|name Ec Eh Es|k0 Ec Eh Ek Es];
    rewrite Eh; intros a ao Hl.
  - eauto.
  - eauto.
  - apply lookup_snoc_Some in Hl as [Hl| ->]; [eauto|].
    destruct k; simpl; apply not_elem_of_nil.
  - apply lookup_updateAt in Hl as (o & Hl & [->|[_ ->]]); [eauto|].
    intros Hr. apply elem_of_children_pushChild in Hr as [Hr|[-> ->]].
    + exact (Hno a o Hl Hr).
    + lia.
Qed.

(** What holds at the start and after each iteration holds at the end. *)
Lemma run_invariant (P : ParserState -> Prop) :
  (forall st line, P st -> P (step st line)) ->
  forall lines st, P st -> P (run st lines).
Proof.
  intros Hstep lines. induction lines as [|l lines IH]; intros st Hst;
    [exact Hst|].
  apply IH, Hstep, Hst.
Qed.

Lemma run_app st l1 l2 : run st (l1 ++ l2) = run (run st l1) l2.
Proof. apply fold_left_app. Qed.

Lemma reachable_wellFormed lines :
  wellFormed (run initialState lines) /\ singleOwner (run initialState lines).
Proof.
  apply (run_invariant (fun st => wellFormed st /\ singleOwner st)).
  - intros st line [Hwf Hu]. split.
    + eapply wellFormed_step; [apply step_effect|exact Hwf].
    + eapply singleOwner_step; [apply step_effect|exact Hwf|exact Hu].
  - split; [apply wellFormed_initial|apply singleOwner_initial].
Qed.

(** The five keywords differ in their first letter, so at most one of the
    five tests of the loop holds. *)
Lemma startsWith_head c p s :
  startsWith (String c p) s = true -> exists rest, s = String c rest.
Proof.
  destruct s as [|d rest]; simpl; [discriminate|].
  destruct (Ascii.eqb_spec c d) as [->|]; [eauto|discriminate].
Qed.

Lemma startsWith_head_ne c d p rest :
  c <> d -> startsWith (String c p) (String d rest) = false.
Proof.
  intros Hne. cbn [startsWith].
  destruct (Ascii.eqb_spec c d); [contradiction|reflexivity].
Qed.

Lemma step_opensAggregate st line :
  opensAggregate line = true -> step st line = openAggregate line st.
Proof.
  unfold opensAggregate, step. intros Ho.
  destruct (startsWith_head _ _ _ Ho) as [rest ->].
  rewrite startsWith_head_ne by discriminate.
  rewrite Ho. reflexivity.
Qed.

Lemma step_opensChild k st line :
  opensChild k line = true ->
  step st line = match k with
                 | KEntity => openEntity line st
                 | KValueObject => openValueObject line st
                 | KEnum => openEnum line st
                 end.
Proof.
  unfold opensChild, step. intros Ho.
  destruct k; unfold keyword in Ho;
    destruct (startsWith_head _ _ _ Ho) as [rest ->];
    rewrite !startsWith_head_ne by discriminate;
    rewrite Ho; reflexivity.
Qed.

Lemma openAggregate_orphan st line :
  wellFormed st -> currentBoundedContext st = None ->
  orphanAggregate (List.length (heapAggregates st)) (openAggregate line st).
Proof.
  intros [Hc _] Hcur. split.
  - simpl. rewrite length_app. simpl. lia.
  - intros (c & Hin & Hac). simpl in Hin. rewrite Hcur in Hin. simpl in Hin.
    specialize (Hc c _ Hin Hac). lia.
Qed.

Lemma openChild_orphan k st line :
  wellFormed st -> currentAggregate st = None ->
  orphanChild k (heapSize k st)
    match k with
    | KEntity => openEntity line st
    | KValueObject => openValueObject line st
    | KEnum => openEnum line st
    end.
Proof.
  intros [_ Ha] Hcur. split.
  - destruct k; simpl; rewrite length_app; simpl; lia.
  - intros a ao Hl Hr.
    assert (Hold : heapAggregates st !! a = Some ao).
    { destruct k; simpl in Hl; rewrite Hcur in Hl; exact Hl. }
    specialize (Ha a ao k _ Hold Hr). lia.
Qed.

Lemma elem_of_deref {A} (heap : list A) (refs : list ref) (x : A) :
  x ∈ deref heap refs -> exists r, r ∈ refs /\ heap !! r = Some x.
Proof. unfold deref. rewrite list_elem_of_omap. tauto. Qed.

Lemma deref_length {A} (heap : list A) (refs : list ref) :
  (forall r, r ∈ refs -> r < List.length heap) ->
  List.length (deref heap refs) = List.length refs.
Proof.
  unfold deref. induction refs as [|r refs IH]; intros Hr; [reflexivity|].
  cbn [omap list_omap].
  destruct (lookup_lt_is_Some_2 heap r) as [x Hx].
  { apply Hr, list_elem_of_here. }
  rewrite Hx. cbn. f_equal. apply IH.
  intros r' Hr'. apply Hr, list_elem_of_further, Hr'.
Qed.

(** In a state the parser reaches no reference dangles, so the returned
    tree has one node for each reference followed. *)
Lemma freeze_complete lines :
  let st := run initialState lines in
  (forall c, c ∈ st_boundedContexts st ->
             List.length (bc_aggregates (freezeContext st c))
             = List.length (co_aggregates c))
  /\ (forall a ao, heapAggregates st !! a = Some ao ->
         List.length (agg_entities (freezeAggregate st ao))
         = List.length (ao_entities ao)
         /\ List.length (agg_valueObjects (freezeAggregate st ao))
            = List.length (ao_valueObjects ao)
         /\ List.length (agg_enums (freezeAggregate st ao))
            = List.length (ao_enums ao)).
Proof.
  intros st. destruct (reachable_wellFormed lines) as [[Hc Ha] _].
  fold st in Hc, Ha. split.
  - intros c Hin. simpl. rewrite length_map. apply deref_length.
    intros r Hr. exact (Hc c r Hin Hr).
  - intros a ao Hl. simpl.
    split; [|split]; apply deref_length; intros r Hr.
    + exact (Ha a ao KEntity r Hl Hr).
    + exact (Ha a ao KValueObject r Hl Hr).
    + exact (Ha a ao KEnum r Hl Hr).
Qed.

(** The aggregates of the returned model are the aggregate objects the
    contexts refer to. *)
Lemma freeze_attached st bc agg :
  bc ∈ boundedContexts (freeze st) -> agg ∈ bc_aggregates bc ->
  exists a ao,
    aggregateAttached st a /\ heapAggregates st !! a = Some ao
    /\ agg = freezeAggregate st ao.
Proof.
  intros Hbc Hagg. simpl in Hbc.
  apply list_elem_of_In, in_map_iff in Hbc as (c & <- & Hc).
  simpl in Hagg.
  apply list_elem_of_In, in_map_iff in Hagg as (ao & <- & Hao).
  apply list_elem_of_In, elem_of_deref in Hao as (a & Ha & Hl).
  exists a, ao. split; [|split; [exact Hl|reflexivity]].
  exists c. split; [apply list_elem_of_In, Hc|exact Ha].
Qed.

(** C9.  An aggregate opened while no context is open, and a unit opened
    while no aggregate is open, is created and becomes the cursor, and the
    parser goes on; but at the end of the input no context refers to that
    aggregate, no aggregate of the model refers to a unit that was put into
    it, and no aggregate at all refers to that unit.  The returned model
    holds the aggregate objects the contexts refer to and nothing else. *)
Theorem orphan_units_absent (before after : list string) (line : string) :
  let st := run initialState before in
  let final := run initialState (before ++ line :: after) in
  (opensAggregate line = true -> currentBoundedContext st = None ->
   currentAggregate (step st line) = Some (List.length (heapAggregates st))
   /\ ~ aggregateAttached final (List.length (heapAggregates st))
   /\ forall k r ao,
        heapAggregates final !! List.length (heapAggregates st) = Some ao ->
        r ∈ children k ao -> ~ childAttached k final r)
  /\ (forall k,
         opensChild k line = true -> currentAggregate st = None ->
         cursor k (step st line) = Some (heapSize k st)
         /\ ~ childAttached k final (heapSize k st))
  /\ (forall bc agg,
         bc ∈ boundedContexts (freeze final) -> agg ∈ bc_aggregates bc ->
         exists a ao,
           aggregateAttached final a /\ heapAggregates final !! a = Some ao
           /\ agg = freezeAggregate final ao).
Proof.
  intros st final.
  assert (Hfinal : final = run (step st line) after).
  { unfold final, st. rewrite run_app. reflexivity. }
  destruct (reachable_wellFormed before) as [Hwf _]. fold st in Hwf.
  destruct (reachable_wellFormed (before ++ line :: after)) as [_ Hu].
  fold final in Hu.
  split; [|split].
  - intros Hopen Hcur.
    rewrite (step_opensAggregate st line Hopen) in Hfinal.
    split; [rewrite (step_opensAggregate st line Hopen); reflexivity|].
    assert (Horph : orphanAggregate (List.length (heapAggregates st)) final).
    { rewrite Hfinal.
      apply (run_invariant (orphanAggregate (List.length (heapAggregates st)))).
      - intros s l. apply orphanAggregate_step, step_effect.
      - apply openAggregate_orphan; assumption. }
    destruct Horph as [_ Hno]. split; [exact Hno|].
    intros k r ao Hl Hr (a2 & ao2 & Hatt & Hl2 & Hr2).
    apply Hno. rewrite (Hu k r _ a2 ao ao2 Hl Hl2 Hr Hr2). exact Hatt.
  - intros k Hopen Hcur.
    rewrite (step_opensChild k st line Hopen) in Hfinal.
    split; [rewrite (step_opensChild k st line Hopen); destruct k; reflexivity|].
    assert (Horph : orphanChild k (heapSize k st) final).
    { rewrite Hfinal.
      apply (run_invariant (orphanChild k (heapSize k st))).
      - intros s l. apply orphanChild_step, step_effect.
      - apply openChild_orphan; assumption. }
    destruct Horph as [_ Hno].
    intros (a & ao & _ & Hl & Hr). exact (Hno a ao Hl Hr).
  - apply freeze_attached.
Qed.

Lemma orphan_units_absent_witness :
  ~ aggregateAttached (run initialState aggregateBeforeContext) 0
  /\ parseCML (lines aggregateBeforeContext) =
     {| boundedContexts :=
          [{| bc_name := "Sales";
              bc_aggregates :=
                [{| agg_name := "Order";
                    agg_entities :=
                      [{| ent_name := "Order"; ent_isAggregateRoot := false;
                          ent_properties := [] |}];
                    agg_valueObjects := []; agg_enums := [] |}] |}] |}
  /\ parseCML (lines entityBeforeAggregate) =
     {| boundedContexts :=
          [{| bc_name := "Sales"; bc_aggregates := [] |}] |}.
Proof.
  split; [|split; vm_compute; reflexivity].
  exact (proj1 (proj2
           (proj1 (orphan_units_absent [] (tl aggregateBeforeContext)
                     "Aggregate Lost {")
              eq_refl eq_refl))).
Defined.

(** * Further properties of the parser *)

Import Facts.

(** ** What [parseProperty] returns *)

Lemma allChars_takeWhile p s : allChars p (takeWhile p s) = true.
Proof.
  induction s as [|c s IH]; [reflexivity|]. simpl.
  destruct (p c) eqn:Hc; [|reflexivity]. simpl. rewrite Hc. exact IH.
Qed.

Lemma isWord_notSpace c : isWord c = true -> notSpace c = true.
Proof.
  intros Hc. unfold notSpace. destruct (isWord_facts c Hc) as [-> _].
  reflexivity.
Qed.

Lemma searchGroup_Some m s g :
  searchGroup m s = Some g -> exists t, m t = Some g.
Proof.
  induction s as [|c s IH]; cbn [searchGroup].
  - destruct (m "") eqn:Hm; [|discriminate]. intros [= <-]. eauto.
  - destruct (m (String c s)) eqn:Hm; [intros [= <-]; eauto|]. exact IH.
Qed.

Lemma matchGenericAt_word open s w k :
  matchGenericAt open s = Some (w, k) ->
  truthy w = true /\ allChars isWord w = true.
Proof.
  unfold matchGenericAt. destruct (stripPrefix open s) as [rest|]; [|discriminate].
  intros H.
  destruct (truthy (takeWhile isWord rest)) eqn:Ht; cbn [andb] in H;
    [|discriminate H].
  destruct (startsWith ">" (dropWhile isWord rest)); [|discriminate H].
  injection H as <- _. split; [exact Ht|apply allChars_takeWhile].
Qed.

Lemma matchCollection_word s w :
  matchCollection s = Some w -> truthy w = true /\ allChars isWord w = true.
Proof.
  unfold matchCollection.
  destruct (matchGenericAt "Set<" s) as [[w1 k1]|] eqn:H1.
  - intros [= <-]. eapply matchGenericAt_word, H1.
  - destruct (matchGenericAt "List<" s) as [[w2 k2]|] eqn:H2; [|discriminate].
    intros [= <-]. eapply matchGenericAt_word, H2.
Qed.

(** The tokens are not empty and hold no white space. *)
Lemma wordsAcc_tokens cur s :
  allChars notSpace cur = true ->
  Forall (fun w => truthy w = true /\ allChars notSpace w = true)
    (wordsAcc cur s).
Proof.
  revert cur. induction s as [|c s IH]; intros cur Hcur; cbn [wordsAcc].
  - destruct (truthy cur) eqn:Ht; repeat constructor; assumption.
  - destruct (isSpace c) eqn:Hc.
    + apply Forall_app. split; [|apply IH; reflexivity].
      destruct (truthy cur) eqn:Ht; repeat constructor; assumption.
    + apply IH. rewrite allChars_append, Hcur. simpl.
      unfold notSpace. rewrite Hc. reflexivity.
Qed.

Lemma substring_all s : substring 0 (String.length s) s = s.
Proof. induction s as [|c s IH]; simpl; congruence. Qed.

Lemma removeSemicolonOrComma_allChars p s :
  allChars p s = true ->
  allChars p (replaceFirst matchSemicolonOrComma "" s) = true.
Proof.
  induction s as [|c s IH]; intros Hs; [reflexivity|].
  simpl in Hs. apply andb_prop in Hs as [Hc Hs].
  cbn [replaceFirst matchSemicolonOrComma].
  destruct (Ascii.eqb c ";" || Ascii.eqb c ",").
  - cbn [String.length substring].
    replace (S (String.length s) - 1) with (String.length s) by lia.
    rewrite substring_all. exact Hs.
  - simpl. rewrite Hc. apply IH, Hs.
Qed.

Lemma isBlank_token t :
  truthy t = true -> allChars notSpace t = true -> isBlank t = false.
Proof.
  intros Ht Hs. unfold isBlank. rewrite Ht, (trim_no_space t Hs).
  destruct t; [discriminate|reflexivity].
Qed.

(** X1.  A property [parseProperty] returns has a type that is not blank:
    it is not empty and holds no white space, so the type mapper never
    falls back to its placeholder for want of a type; the name holds no
    white space either. *)
Theorem parseProperty_type_not_blank (line : string) (p : CMLProperty) :
  parseProperty line = Some p ->
  isBlank (prop_type p) = false
  /\ allChars notSpace (prop_type p) = true
  /\ allChars notSpace (prop_name p) = true
  /\ (forall config, prop_isCollection p = false ->
        primitiveType (toLowerCase (prop_type p)) = None ->
        mapTypeToPHP config p = prop_type p).
Proof.
  unfold parseProperty.
  destruct (_ || _); [discriminate|].
  destruct (splitWhitespace _) as [|t [|n rest]] eqn:Hparts; try discriminate.
  match type of Hparts with
  | splitWhitespace ?s = _ => pose proof (wordsAcc_tokens "" s eq_refl) as Htok
  end.
  unfold splitWhitespace in Hparts. rewrite Hparts in Htok.
  apply Forall_cons in Htok as [[Ht Hts] Htok].
  apply Forall_cons in Htok as [[Hn Hns] _].
  set (isColl := includes "Set<" _ || includes "List<" _).
  set (ctype := if isColl then _ else _).
  assert (Hty : truthy (if isColl && truthy ctype then ctype else t) = true
                /\ allChars notSpace
                     (if isColl && truthy ctype then ctype else t) = true).
  { destruct (isColl && truthy ctype) eqn:Hc; [|auto].
    apply andb_prop in Hc as [Hic Htc]. split; [exact Htc|].
    unfold ctype in *. rewrite Hic in *.
    destruct (searchGroup matchCollection _) as [w|] eqn:Hw; [|discriminate].
    apply searchGroup_Some in Hw as [u Hu].
    apply matchCollection_word in Hu as [_ Hu].
    eapply allChars_impl; [apply isWord_notSpace|exact Hu]. }
  destruct Hty as [Hty1 Hty2].
  intros [= <-]. cbn [prop_type prop_name prop_isCollection].
  assert (Hb : isBlank (if isColl && truthy ctype then ctype else t) = false)
    by (apply isBlank_token; assumption).
  split; [exact Hb|]. split; [exact Hty2|].
  split; [apply removeSemicolonOrComma_allChars, Hns|].
  intros config Hcoll Hprim. unfold mapTypeToPHP.
  cbn [prop_type prop_isCollection]. rewrite Hb, Hprim, Hcoll. reflexivity.
Qed.

Lemma parseProperty_type_not_blank_witness :
  isBlank "OrderLine" = false
  /\ allChars notSpace "OrderLine" = true
  /\ allChars notSpace "lines" = true
  /\ (forall config, true = false ->
        primitiveType (toLowerCase "OrderLine") = None ->
        mapTypeToPHP config (property "OrderLine" "lines" true true)
        = "OrderLine").
Proof.
  exact (parseProperty_type_not_blank "- Set<OrderLine> lines"
           (property "OrderLine" "lines" true true) eq_refl).
Defined.

(** ** Comments behind a property *)

Lemma substring_end s : substring (String.length s) 0 s = "".
Proof. induction s as [|c s IH]; [reflexivity|exact IH]. Qed.

Lemma replaceFirst_whole m s :
  m s = Some (String.length s) -> replaceFirst m "" s = "".
Proof.
  intros Hm. destruct s as [|d s]; cbn [replaceFirst]; rewrite Hm;
    rewrite Nat.sub_diag; [reflexivity|].
  exact (substring_end (String d s)).
Qed.

Lemma replaceFirst_unmatched m a rest :
  unmatched m a rest = true -> m rest = Some (String.length rest) ->
  replaceFirst m "" (a +:+ rest) = a.
Proof.
  intros Hu Hm. induction a as [|c a IH].
  - change ("" +:+ rest) with rest. apply replaceFirst_whole, Hm.
  - simpl in Hu. rewrite append_cons in *. cbn [replaceFirst].
    destruct (m (String c (a +:+ rest))); [discriminate|].
    rewrite (IH Hu). reflexivity.
Qed.

Lemma unmatched_comment a rest :
  allChars notSlash a = true -> unmatched matchComment a rest = true.
Proof.
  induction a as [|c a IH]; intros Ha; [reflexivity|].
  simpl in Ha. apply andb_prop in Ha as [Hc Ha].
  cbn [unmatched]. rewrite append_cons. unfold matchComment at 1.
  cbn [stripPrefix]. unfold notSlash in Hc. apply negb_true_iff in Hc.
  rewrite Ascii.eqb_sym, Hc. apply IH, Ha.
Qed.

Lemma stripComment_without_slash a :
  allChars notSlash a = true -> stripComment a = a.
Proof.
  intros Ha. apply (replaceFirst_id notSlash); [|exact Ha].
  intros t Ht. unfold matchComment.
  rewrite (stripPrefix_foreign notSlash "//" t); auto.
Qed.

(** X2.  A comment behind a property declaration is ignored: when the
    declaration holds no slash and the comment no line terminator, the line
    with [//] and the comment appended parses to what the declaration alone
    parses to. *)
Theorem parseProperty_trailing_comment (decl comment : string) :
  allChars notSlash decl = true ->
  anyChar isLineTerminator comment = false ->
  parseProperty (decl +:+ "//" +:+ comment) = parseProperty decl.
Proof.
  intros Hd Hc.
  assert (H1 : stripComment (decl +:+ "//" +:+ comment) = decl).
  { apply replaceFirst_unmatched; [apply unmatched_comment, Hd|].
    unfold matchComment. change (stripPrefix "//" ("//" +:+ comment))
      with (Some comment). cbv beta iota. rewrite Hc. reflexivity. }
  unfold parseProperty. rewrite H1, (stripComment_without_slash decl Hd).
  reflexivity.
Qed.

Lemma parseProperty_trailing_comment_witness :
  parseProperty ("String name; " +:+ "//" +:+ " the nullable name")
  = parseProperty "String name; ".
Proof.
  apply (parseProperty_trailing_comment "String name; " " the nullable name");
    reflexivity.
Defined.

(** ** Lines, blank lines and indentation *)

Lemma splitChar_no_sep sep s :
  allChars (fun c => negb (Ascii.eqb c sep)) s = true ->
  splitChar sep s = [s].
Proof.
  induction s as [|c s IH]; intros Hs; [reflexivity|].
  simpl in Hs. apply andb_prop in Hs as [Hc Hs]. apply negb_true_iff in Hc.
  cbn [splitChar]. rewrite Hc, (IH Hs). reflexivity.
Qed.

Lemma splitChar_app sep x r :
  allChars (fun c => negb (Ascii.eqb c sep)) x = true ->
  splitChar sep (x +:+ String sep r) = x :: splitChar sep r.
Proof.
  induction x as [|c x IH]; intros Hx.
  - change ("" +:+ String sep r) with (String sep r). cbn [splitChar].
    rewrite Ascii.eqb_refl. reflexivity.
  - simpl in Hx. apply andb_prop in Hx as [Hc Hx]. apply negb_true_iff in Hc.
    rewrite append_cons. cbn [splitChar]. rewrite Hc, (IH Hx). reflexivity.
Qed.

Lemma splitChar_lines ls :
  Forall (fun l => allChars notLineFeed l = true) ls -> ls <> [] ->
  splitChar "010" (lines ls) = ls.
Proof.
  unfold lines. induction ls as [|x ls IH]; intros Hls Hne; [congruence|].
  apply Forall_cons in Hls as [Hx Hls].
  destruct ls as [|y ls].
  - simpl. apply splitChar_no_sep, Hx.
  - change (join nl (x :: y :: ls)) with (x +:+ nl +:+ join nl (y :: ls)).
    change (nl +:+ join nl (y :: ls)) with (String "010" (join nl (y :: ls))).
    rewrite splitChar_app by exact Hx. rewrite IH; [reflexivity|exact Hls|].
    discriminate.
Qed.

(** The logical lines of a text given line by line. *)
Lemma logicalLines_lines ls :
  Forall (fun l => allChars notLineFeed l = true) ls ->
  logicalLines (lines ls)
  = filter (fun line => truthy line && negb (startsWith "//" line) = true)
      (map trim ls).
Proof.
  intros Hls. unfold logicalLines. destruct ls as [|x ls]; [reflexivity|].
  rewrite splitChar_lines; [reflexivity|exact Hls|discriminate].
Qed.

(** X3.  Blank lines and lines that begin with [//] never change the
    result: a text and the text with such a line put in anywhere parse to
    the same model. *)
Theorem parseCML_skips_blank_and_comment_lines
  (before after : list string) (c : string) :
  Forall (fun l => allChars notLineFeed l = true) (before ++ c :: after) ->
  isLogicalLine (trim c) = false ->
  parseCML (lines (before ++ c :: after)) = parseCML (lines (before ++ after)).
Proof.
  intros Hall Hc. unfold parseCML.
  assert (Hall' : Forall (fun l => allChars notLineFeed l = true)
                    (before ++ after)).
  { apply Forall_app in Hall as [Hb Ha]. apply Forall_cons in Ha as [_ Ha].
    apply Forall_app; auto. }
  rewrite !logicalLines_lines by assumption.
  rewrite !map_app, !filter_app. cbn [map].
  rewrite filter_cons_False; [reflexivity|].
  unfold isLogicalLine in Hc. rewrite Hc. discriminate.
Qed.

Lemma parseCML_skips_blank_and_comment_lines_witness :
  parseCML (lines (["BoundedContext Sales {"; "  Aggregate Order {"]
                   ++ "   // the order" :: ["  }"; "}"]))
  = parseCML (lines (["BoundedContext Sales {"; "  Aggregate Order {"]
                     ++ ["  }"; "}"])).
Proof.
  apply (parseCML_skips_blank_and_comment_lines
           ["BoundedContext Sales {"; "  Aggregate Order {"] ["  }"; "}"]
           "   // the order");
    [repeat constructor|reflexivity].
Defined.

Lemma trimEnd_all_space w : allChars isSpace w = true -> trimEnd w = "".
Proof.
  induction w as [|c w IH]; intros Hw; [reflexivity|].
  simpl in Hw. apply andb_prop in Hw as [Hc Hw].
  cbn [trimEnd]. rewrite (IH Hw), Hc. reflexivity.
Qed.

Lemma trimEnd_padded s w :
  allChars isSpace w = true -> trimEnd (s +:+ w) = trimEnd s.
Proof.
  intros Hw. induction s as [|c s IH].
  - change ("" +:+ w) with w. apply trimEnd_all_space, Hw.
  - rewrite append_cons. cbn [trimEnd]. rewrite IH. reflexivity.
Qed.

Lemma dropWhile_append_stop p x y c :
  dropWhile p x = String c y ->
  forall z, dropWhile p (x +:+ z) = String c y +:+ z.
Proof.
  induction x as [|d x IH]; intros Hx z; [discriminate|].
  rewrite append_cons. cbn [dropWhile] in *.
  destruct (p d); [apply IH, Hx|].
  injection Hx as -> ->. reflexivity.
Qed.

(** White space around a line is trimmed away. *)
Lemma trim_padded w1 s w2 :
  allChars isSpace w1 = true -> allChars isSpace w2 = true ->
  trim (w1 +:+ s +:+ w2) = trim s.
Proof.
  intros H1 H2. unfold trim. rewrite dropWhile_all by exact H1.
  destruct (dropWhile isSpace s) as [|c y] eqn:Hs.
  - assert (Hall : allChars isSpace s = true).
    { clear -Hs. induction s as [|d s IH]; [reflexivity|].
      cbn [dropWhile] in Hs. simpl. destruct (isSpace d); [|discriminate].
      apply IH, Hs. }
    rewrite <- (append_empty_r (s +:+ w2)).
    rewrite dropWhile_all; [reflexivity|].
    rewrite allChars_append, Hall, H2. reflexivity.
  - rewrite (dropWhile_append_stop _ _ _ _ Hs). apply trimEnd_padded, H2.
Qed.

(** X4.  The parser is insensitive to indentation: white space before and
    behind a line is trimmed, and two texts whose lines agree once trimmed
    parse to the same model. *)
Theorem parseCML_indentation (ls ls' : list string) :
  Forall (fun l => allChars notLineFeed l = true) ls ->
  Forall (fun l => allChars notLineFeed l = true) ls' ->
  Forall2 (fun a b => trim a = trim b) ls ls' ->
  (forall w1 s w2,
      allChars isSpace w1 = true -> allChars isSpace w2 = true ->
      trim (w1 +:+ s +:+ w2) = trim s)
  /\ parseCML (lines ls) = parseCML (lines ls').
Proof.
  intros Hls Hls' H2. split; [exact trim_padded|].
  unfold parseCML. rewrite !logicalLines_lines by assumption.
  f_equal. f_equal. f_equal.
  clear Hls Hls'. induction H2 as [|a b l l' Hab _ IH]; [reflexivity|].
  simpl. rewrite Hab, IH. reflexivity.
Qed.

Lemma parseCML_indentation_witness :
  (forall w1 s w2,
      allChars isSpace w1 = true -> allChars isSpace w2 = true ->
      trim (w1 +:+ s +:+ w2) = trim s)
  /\ parseCML (lines ["BoundedContext Sales {"; "    Aggregate Order {  "])
     = parseCML (lines ["  BoundedContext Sales {"; "Aggregate Order {"]).
Proof.
  apply (parseCML_indentation
           ["BoundedContext Sales {"; "    Aggregate Order {  "]
           ["  BoundedContext Sales {"; "Aggregate Order {"]);
    repeat constructor.
Defined.

(** ** Contexts *)

Lemma map_co_name_updateAt c f cs :
  (forall x, co_name (f x) = co_name x) ->
  map co_name (updateAt c f cs) = map co_name cs.
Proof.
  intros Hf. destruct c as [r|]; [|reflexivity]. simpl.
  revert r. induction cs as [|x cs IH]; intros r; [reflexivity|].
  destruct r as [|r]; simpl; [rewrite Hf; reflexivity|].
  f_equal. apply IH.
Qed.

Lemma step_context_names st line :
  map co_name (st_boundedContexts (step st line))
  = map co_name (st_boundedContexts st)
    ++ (if startsWith "BoundedContext " line
        then [declaredName "BoundedContext" line] else []).
Proof.
  unfold step.
  destruct (startsWith "BoundedContext " line).
  { simpl. rewrite map_app. reflexivity. }
  rewrite app_nil_r.
  destruct (startsWith "Aggregate " line).
  { simpl. apply map_co_name_updateAt. reflexivity. }
  repeat (match goal with
          | |- context [if ?b then _ else _] => destruct b
          end; try reflexivity).
Qed.

Lemma run_context_names ls st :
  map co_name (st_boundedContexts (run st ls))
  = map co_name (st_boundedContexts st)
    ++ map (declaredName "BoundedContext")
         (filter (fun l => startsWith "BoundedContext " l = true) ls).
Proof.
  revert st. induction ls as [|l ls IH]; intros st.
  - simpl. rewrite app_nil_r. reflexivity.
  - change (run st (l :: ls)) with (run (step st l) ls).
    rewrite IH, step_context_names, <- app_assoc. f_equal.
    destruct (startsWith "BoundedContext " l) eqn:Hl.
    + rewrite filter_cons_True by exact Hl. reflexivity.
    + rewrite filter_cons_False; [reflexivity|]. rewrite Hl. discriminate.
Qed.

(** X5.  Each logical line that begins with [BoundedContext ] yields one
    bounded context of the model, in the order of the text, named by the
    word that follows the keyword, or by the empty string when none does;
    nothing else yields a context. *)
Theorem parseCML_context_names (content : string) :
  map bc_name (boundedContexts (parseCML content))
  = map (declaredName "BoundedContext")
      (filter (fun l => startsWith "BoundedContext " l = true)
         (logicalLines content)).
Proof.
  unfold parseCML, freeze. cbn [boundedContexts].
  rewrite map_map. cbn [freezeContext bc_name].
  change (map (fun x => co_name x) ?l) with (map co_name l).
  rewrite run_context_names. reflexivity.
Qed.

Lemma filter_all_False {A} (P : A -> Prop) `{forall x, Decision (P x)}
  (l : list A) :
  (forall x, x ∈ l -> ~ P x) -> filter P l = [].
Proof.
  induction l as [|x l IH]; intros Hl; [reflexivity|].
  rewrite filter_cons_False by (apply Hl, list_elem_of_here).
  apply IH. intros y Hy. apply Hl, list_elem_of_further, Hy.
Qed.

(** X6.  What is declared outside a bounded context generates nothing: a
    text without a line that begins with [BoundedContext ] parses to the
    empty model, and the generator returns the empty list for it, whatever
    the configuration and the library. *)
Theorem no_context_no_files (E : RegExpEngine) (B : PhpBuilder)
  (content : string) (config : GeneratorConfig) :
  (forall l, l ∈ logicalLines content ->
             startsWith "BoundedContext " l = false) ->
  parseCML content = {| boundedContexts := [] |}
  /\ generatePHP (parseCML content) config = Returns [].
Proof.
  intros Hno.
  assert (Hm : parseCML content = {| boundedContexts := [] |}).
  { assert (Hn : map bc_name (boundedContexts (parseCML content))
                 = map (declaredName "BoundedContext")
                     (filter (fun l => startsWith "BoundedContext " l = true)
                        (logicalLines content))).
    { unfold parseCML, freeze. cbn [boundedContexts].
      rewrite map_map. cbn [freezeContext bc_name].
      change (map (fun x => co_name x) ?l) with (map co_name l).
      rewrite run_context_names. reflexivity. }
    rewrite filter_all_False in Hn.
    - destruct (parseCML content) as [bcs]. simpl in Hn.
      destruct bcs; [reflexivity|discriminate].
    - intros l Hl. rewrite (Hno l Hl). discriminate. }
  split; [exact Hm|]. rewrite Hm. reflexivity.
Qed.

Lemma no_context_no_files_witness :
  parseCML (lines aggregateBeforeContext_head)
  = {| boundedContexts := [] |}
  /\ @generatePHP literalEngine carefulBuilder
       (parseCML (lines aggregateBeforeContext_head)) plainConfig
     = Returns [].
Proof.
  apply (no_context_no_files literalEngine carefulBuilder
           (lines aggregateBeforeContext_head) plainConfig).
  intros l Hl. vm_compute in Hl.
  repeat (apply elem_of_cons in Hl as [->|Hl]; [reflexivity|]).
  inversion Hl.
Defined.

(** ** Names and labels *)

Lemma matchKeywordName_word kw s w :
  matchKeywordName kw s = Some w -> wordName w.
Proof.
  unfold matchKeywordName. destruct (stripPrefix kw s) as [rest|]; [|discriminate].
  destruct (_ <? _); [|discriminate].
  destruct (truthy _); [|discriminate].
  intros [= <-]. apply allChars_takeWhile.
Qed.

Lemma declaredName_word kw line : wordName (declaredName kw line).
Proof.
  unfold declaredName.
  destruct (searchGroup (matchKeywordName kw) line) as [w|] eqn:Hw;
    [|reflexivity].
  apply searchGroup_Some in Hw as [t Ht]. apply matchKeywordName_word in Ht.
  unfold orElse. destruct (truthy w); [exact Ht|reflexivity].
Qed.

Lemma Forall_updateAt {A} (P : A -> Prop) c (f : A -> A) l :
  (forall x, P x -> P (f x)) -> Forall P l -> Forall P (updateAt c f l).
Proof.
  intros Hf Hl. apply Forall_forall. intros x Hx.
  apply elem_of_updateAt in Hx as (y & Hy & [->| ->]);
    rewrite Forall_forall in Hl; auto.
Qed.

Lemma enumValuesOfLine_proper line : Forall properLabel (enumValuesOfLine line).
Proof.
  unfold enumValuesOfLine.
  destruct (_ && _); [|constructor].
  destruct (includes "," _).
  - apply Forall_forall. intros v Hv. apply list_elem_of_filter in Hv as [Hv _].
    apply andb_prop in Hv as [Ht Hb]. split; [exact Ht|].
    apply negb_true_iff, String.eqb_neq in Hb. exact Hb.
  - destruct (_ && _) eqn:Hc; [|constructor].
    apply andb_prop in Hc as [Hc _]. apply andb_prop in Hc as [Ht Hb].
    repeat constructor; [exact Ht|].
    apply negb_true_iff, String.eqb_neq in Hb. exact Hb.
Qed.

Lemma cleanState_initial : cleanState initialState.
Proof. repeat split; constructor. Qed.

Lemma cleanState_step st line : cleanState st -> cleanState (step st line).
Proof.
  intros (Hc & Ha & He & Hv & Hn). unfold step.
  destruct (startsWith "BoundedContext " line).
  { repeat split; try assumption. simpl. apply Forall_app. split; [exact Hc|].
    repeat constructor. apply declaredName_word. }
  destruct (startsWith "Aggregate " line).
  { repeat split; try assumption; simpl.
    - apply Forall_updateAt; [auto|exact Hc].
    - apply Forall_app. split; [exact Ha|].
      repeat constructor. apply declaredName_word. }
  destruct (startsWith "Entity " line).
  { repeat split; try assumption; simpl.
    - apply Forall_updateAt; [auto|exact Ha].
    - apply Forall_app. split; [exact He|].
      repeat constructor. apply declaredName_word. }
  destruct (startsWith "ValueObject " line).
  { repeat split; try assumption; simpl.
    - apply Forall_updateAt; [auto|exact Ha].
    - apply Forall_app. split; [exact Hv|].
      repeat constructor. apply declaredName_word. }
  destruct (startsWith "enum " line).
  { repeat split; try assumption; simpl.
    - apply Forall_updateAt; [auto|exact Ha].
    - apply Forall_app. split; [exact Hn|].
      repeat constructor. apply declaredName_word. }
  destruct (isClosingLine line).
  { repeat split; assumption. }
  destruct (_ && _).
  { repeat split; try assumption. simpl.
    apply Forall_updateAt; [|exact Hn].
    intros n [Hname Hvals]. split; [exact Hname|]. simpl.
    apply Forall_app. split; [exact Hvals|apply enumValuesOfLine_proper]. }
  destruct (_ && _).
  { repeat split; try assumption. simpl.
    apply Forall_updateAt; [auto|exact He]. }
  repeat split; try assumption; simpl.
  - destruct (if truthy line && bool_decide (is_Some (currentEntity st))
              then parseProperty line else None); [|exact He].
    apply Forall_updateAt; [auto|exact He].
  - destruct (if truthy line && bool_decide (is_Some (currentValueObject st))
              then parseProperty line else None); [|exact Hv].
    apply Forall_updateAt; [auto|exact Hv].
Qed.

Lemma Forall_deref {A} (P : A -> Prop) heap refs :
  Forall P heap -> Forall P (deref heap refs).
Proof.
  intros Hh. apply Forall_forall. intros x Hx.
  apply elem_of_deref in Hx as (r & _ & Hr).
  rewrite Forall_forall in Hh. eapply Hh, list_elem_of_lookup_2, Hr.
Qed.

Lemma cleanState_freeze st : cleanState st -> cleanModel (freeze st).
Proof.
  intros (Hc & Ha & He & Hv & Hn). unfold cleanModel, freeze.
  cbn [boundedContexts]. change (map ?f ?l) with (f <$> l).
  apply Forall_fmap. eapply Forall_impl; [exact Hc|].
  intros c Hname. split; [exact Hname|]. cbn [freezeContext bc_aggregates].
  change (map ?f ?l) with (f <$> l). apply Forall_fmap.
  eapply Forall_impl; [apply Forall_deref, Ha|].
  intros a Haname. repeat split; try exact Haname; cbn;
    apply Forall_deref; assumption.
Qed.

(** X7.  Whatever the input, every name in the parsed model (of a context,
    an aggregate, an entity, a value object or an enumeration) consists of
    word characters only, and every label of an enumeration is non-empty and
    is not a closing brace. *)
Theorem parseCML_clean (content : string) : cleanModel (parseCML content).
Proof.
  apply cleanState_freeze.
  apply (run_invariant cleanState).
  - intros st line. apply cleanState_step.
  - apply cleanState_initial.
Qed.

(** ** Lines that leave no trace *)

(** X8.  A line that opens nothing, closes nothing and does not parse as a
    property is dropped without a trace when no enumeration is open: the
    whole state of the parser stays as it was.  (The aggregate-root marker
    is such a line when no entity is open.) *)
Theorem unparsable_line_ignored (st : ParserState) (line : string) :
  isDeclarationLine line = false ->
  isClosingLine line = false ->
  currentEnum st = None ->
  line <> "aggregateRoot" \/ currentEntity st = None ->
  parseProperty line = None ->
  step st line = st.
Proof.
  unfold isDeclarationLine. intros Hdecl Hclose Henum Hroot Hprop.
  apply orb_false_elim in Hdecl as [Hdecl Hn].
  apply orb_false_elim in Hdecl as [Hdecl Hv].
  apply orb_false_elim in Hdecl as [Hdecl He].
  apply orb_false_elim in Hdecl as [Hb Ha].
  unfold step. rewrite Hb, Ha, He, Hv, Hn, Hclose, Henum.
  rewrite andb_false_r.
  assert (Hr : String.eqb line "aggregateRoot"
               && bool_decide (is_Some (currentEntity st)) = false).
  { destruct Hroot as [Hne| ->].
    - apply String.eqb_neq in Hne. rewrite Hne. reflexivity.
    - rewrite andb_false_r. reflexivity. }
  rewrite Hr. unfold propertyLine. rewrite Hprop.
  destruct st. simpl.
  destruct (truthy line && _), (truthy line && _); reflexivity.
Qed.

Lemma unparsable_line_ignored_witness :
  step enumAndEntityClosed "@deprecated" = enumAndEntityClosed.
Proof.
  apply (unparsable_line_ignored enumAndEntityClosed "@deprecated");
    try reflexivity.
  left. discriminate.
Defined.

Lemma run_invariant_on (P : ParserState -> Prop) (Q : string -> Prop) :
  (forall st line, Q line -> P st -> P (step st line)) ->
  forall ls st, Forall Q ls -> P st -> P (run st ls).
Proof.
  intros Hstep ls. induction ls as [|l ls IH]; intros st Hls Hst; [exact Hst|].
  apply Forall_cons in Hls as [Hl Hls].
  apply IH; [exact Hls|]. apply Hstep; assumption.
Qed.

Lemma step_no_root st line :
  line <> "aggregateRoot" ->
  Forall (fun e => ent_isAggregateRoot e = false) (heapEntities st) ->
  Forall (fun e => ent_isAggregateRoot e = false) (heapEntities (step st line)).
Proof.
  intros Hne He. apply String.eqb_neq in Hne. unfold step. rewrite Hne.
  cbn [andb].
  repeat (match goal with
          | |- context [if ?b then _ else _] => destruct b
          end; try exact He).
  - simpl. apply Forall_app. split; [exact He|]. repeat constructor.
  - unfold propertyLine. cbn [heapEntities].
    destruct (if truthy line && bool_decide (is_Some (currentEntity st))
              then parseProperty line else None); [|exact He].
    apply Forall_updateAt; [auto|exact He].
Qed.

(** X9.  An entity is an aggregate root only through the marker: when no
    logical line of the text is the word [aggregateRoot], no entity of the
    parsed model is an aggregate root. *)
Theorem no_marker_no_root (content : string)
  (bc : CMLBoundedContext) (a : CMLAggregate) (e : CMLEntity) :
  Forall (fun l => l <> "aggregateRoot") (logicalLines content) ->
  bc ∈ boundedContexts (parseCML content) ->
  a ∈ bc_aggregates bc -> e ∈ agg_entities a ->
  ent_isAggregateRoot e = false.
Proof.
  intros Hno Hbc Ha He. unfold parseCML in Hbc.
  set (st := run initialState (logicalLines content)) in *.
  assert (Hheap : Forall (fun e => ent_isAggregateRoot e = false)
                    (heapEntities st)).
  { apply (run_invariant_on
             (fun s => Forall (fun e => ent_isAggregateRoot e = false)
                         (heapEntities s))
             (fun l => l <> "aggregateRoot")).
    - intros s l. apply step_no_root.
    - exact Hno.
    - constructor. }
  destruct (freeze_attached st bc a Hbc Ha) as (r & ao & _ & _ & ->).
  cbn [freezeAggregate agg_entities] in He.
  apply (Forall_deref _ _ (ao_entities ao)) in Hheap.
  rewrite Forall_forall in Hheap. apply Hheap, He.
Qed.

Lemma no_marker_no_root_witness :
  ent_isAggregateRoot
    {| ent_name := "Order"; ent_isAggregateRoot := false;
       ent_properties := [] |} = false.
Proof.
  apply (no_marker_no_root enumInsideEntity
           {| bc_name := "Sales";
              bc_aggregates :=
                [{| agg_name := "Order";
                    agg_entities :=
                      [{| ent_name := "Order"; ent_isAggregateRoot := false;
                          ent_properties := [] |}];
                    agg_valueObjects := [];
                    agg_enums :=
                      [{| enum_name := "Status";
                          enum_values := ["Active"] |}] |}] |}
           {| agg_name := "Order";
              agg_entities :=
                [{| ent_name := "Order"; ent_isAggregateRoot := false;
                    ent_properties := [] |}];
              agg_valueObjects := [];
              agg_enums :=
                [{| enum_name := "Status"; enum_values := ["Active"] |}] |}).
  - vm_compute. repeat constructor; discriminate.
  - vm_compute. apply list_elem_of_here.
  - apply list_elem_of_here.
  - apply list_elem_of_here.
Defined.

(** * Further properties of the generator *)

(** ** Paths *)

Lemma truthy_append_r x y : truthy y = true -> truthy (x +:+ y) = true.
Proof. intros Hy. destruct x; [exact Hy|reflexivity]. Qed.

Lemma truthy_append_l x y : truthy x = true -> truthy (x +:+ y) = true.
Proof. intros Hx. destruct x; [discriminate|reflexivity]. Qed.

Lemma join_snoc sep l f :
  join sep (l ++ [f])
  = match l with [] => f | _ => join sep l +:+ sep +:+ f end.
Proof.
  induction l as [|x l IH]; [reflexivity|].
  destruct l as [|y l]; [reflexivity|].
  change (join sep ((x :: y :: l) ++ [f]))
    with (x +:+ sep +:+ join sep ((y :: l) ++ [f])).
  rewrite IH.
  change (join sep (x :: y :: l)) with (x +:+ sep +:+ join sep (y :: l)).
  rewrite !append_assoc. reflexivity.
Qed.

Lemma endsWithChar_snoc c x : endsWithChar c (x +:+ String c "") = true.
Proof.
  induction x as [|d x IH]; [simpl; apply Ascii.eqb_refl|].
  rewrite append_cons. cbn [endsWithChar].
  destruct (x +:+ String c "") eqn:Hx; [|exact IH].
  destruct x; discriminate.
Qed.

(** The file name is the last segment of the path. *)
Lemma buildFilePath_filename b t s f :
  truthy f = true ->
  exists dir,
    buildFilePath b t s f = dir +:+ f
    /\ (dir = "" \/ endsWithChar "/" dir = true).
Proof.
  intros Hf. unfold buildFilePath.
  set (t' := replaceFirst matchTrailingSlashes "" t).
  set (s' := replaceFirst matchTrailingSlashes "" s).
  change [b; t'; s'; f] with ([b; t'; s'] ++ [f]).
  rewrite filter_app, (filter_cons_True _ f []) by exact Hf.
  rewrite filter_nil, join_snoc.
  destruct (filter _ [b; t'; s']) as [|x l].
  - exists "". split; [reflexivity|left; reflexivity].
  - exists (join "/" (x :: l) +:+ "/"). split.
    + rewrite append_assoc. reflexivity.
    + right. apply endsWithChar_snoc.
Qed.

(** Each file of an aggregate is emitted for one of its units. *)
Lemma plannedAggregate_units `{RegExpEngine} config bc a f :
  f ∈ plannedAggregate config bc a ->
  exists name kind folder ft emit,
    f = plannedUnit config
          (getDirectoryPath (bc_name bc) (agg_name a)
             (default DsFlat (directoryStructure config)))
          name kind folder ft emit
    /\ ((kind = TfEnum /\ folder = "Enum/" /\ ft = FtEnum
         /\ exists e, e ∈ agg_enums a /\ name = enum_name e
                      /\ emit = requestedEnum e config (bc_name bc) (agg_name a))
        \/ (kind = TfValueObject /\ folder = "ValueObject/"
            /\ ft = FtValueObject
            /\ exists v, v ∈ agg_valueObjects a /\ name = vo_name v
                         /\ emit = requestedValueObject v config (bc_name bc)
                                     (agg_name a))
        \/ (kind = TfEntity /\ folder = "Entity/" /\ ft = FtEntity
            /\ exists e, e ∈ agg_entities a /\ name = ent_name e
                         /\ emit = requestedEntity e config (bc_name bc)
                                     (agg_name a))).
Proof.
  unfold plannedAggregate. rewrite !elem_of_app.
  intros [Hf|[Hf|Hf]];
    apply list_elem_of_In, in_map_iff in Hf as (u & <- & Hu);
    apply list_elem_of_In in Hu;
    eexists _, _, _, _, _; (split; [reflexivity|]).
  - left. eauto 10.
  - right. left. eauto 10.
  - right. right. eauto 10.
Qed.

Lemma plannedFiles_elem `{RegExpEngine} model config f :
  f ∈ plannedFiles model config ->
  exists bc a,
    bc ∈ boundedContexts model /\ a ∈ bc_aggregates bc
    /\ f ∈ plannedAggregate config bc a.
Proof.
  unfold plannedFiles. intros Hf.
  apply list_elem_of_In, in_flat_map in Hf as (bc & Hbc & Hf).
  apply in_flat_map in Hf as (a & Ha & Hf).
  exists bc, a. rewrite !list_elem_of_In. auto.
Qed.

Lemma planned_path_ends_with_filename `{RegExpEngine}
  (model : CMLModel) (config : GeneratorConfig) (f : GeneratedFile) :
  f ∈ plannedFiles model config ->
  exists dir,
    path f = dir +:+ filename f
    /\ (dir = "" \/ endsWithChar "/" dir = true).
Proof.
  intros Hf. apply plannedFiles_elem in Hf as (bc & a & _ & _ & Hf).
  apply plannedAggregate_units in Hf
    as (name & kind & folder & ft & emit & -> & _).
  unfold plannedUnit. cbn [path filename].
  apply buildFilePath_filename, truthy_append_r. reflexivity.
Qed.

(** X10.  The path of every file [generatePHP] returns ends with its file
    name, and what stands before the name is empty or ends with a slash. *)
Theorem generated_path_ends_with_filename (E : RegExpEngine) (B : PhpBuilder)
  (model : CMLModel) (config : GeneratorConfig)
  (files : list GeneratedFile) (f : GeneratedFile) :
  generatePHP model config = Returns files ->
  f ∈ files ->
  exists dir,
    path f = dir +:+ filename f
    /\ (dir = "" \/ endsWithChar "/" dir = true).
Proof.
  intros Hfiles Hf. apply generatePHP_Returns in Hfiles as [-> _].
  apply (planned_path_ends_with_filename model config f Hf).
Qed.

Lemma generated_path_ends_with_filename_witness :
  exists dir,
    "Sales/Order/Entity/Order.php" = dir +:+ "Order.php"
    /\ (dir = "" \/ endsWithChar "/" dir = true).
Proof.
  apply (generated_path_ends_with_filename literalEngine carefulBuilder
           salesModel groupedConfig
           (@plannedFiles literalEngine salesModel groupedConfig)
           {| filename := "Order.php"; path := "Sales/Order/Entity/Order.php";
              content :=
                requestedEntity order groupedConfig "Sales" "Order" "Order";
              type := FtEntity |}).
  - reflexivity.
  - vm_compute. apply list_elem_of_further, list_elem_of_further,
                  list_elem_of_here.
Defined.

Lemma flat_map_map_fusion {A B C} (g : B -> C) (f : A -> list B) l :
  map g (flat_map f l) = flat_map (fun x => map g (f x)) l.
Proof.
  induction l as [|x l IH]; [reflexivity|]. simpl.
  rewrite map_app, IH. reflexivity.
Qed.

Lemma flat_map_ext' {A B} (f g : A -> list B) l :
  (forall x, f x = g x) -> flat_map f l = flat_map g l.
Proof. intros Hfg. induction l as [|x l IH]; simpl; congruence. Qed.

Lemma buildFilePath_bare f : truthy f = true -> buildFilePath "" "" "" f = f.
Proof.
  intros Hf. unfold buildFilePath. cbn [replaceFirst matchTrailingSlashes].
  rewrite !filter_cons_False by discriminate.
  rewrite filter_cons_True by exact Hf. reflexivity.
Qed.

Lemma planned_flat_layout_paths `{RegExpEngine} (model : CMLModel)
  (config : GeneratorConfig) :
  default DsFlat (directoryStructure config) = DsFlat ->
  default false (groupByType config) = false ->
  regexPatternMappings config = None ->
  map path (plannedFiles model config)
  = map (fun n => n +:+ ".php") (unitNames model)
  /\ map filename (plannedFiles model config)
     = map (fun n => n +:+ ".php") (unitNames model).
Proof.
  intros Hds Hg Hm.
  assert (Hu : forall name kind folder ft emit,
             path (plannedUnit config "" name kind folder ft emit)
             = name +:+ ".php"
             /\ filename (plannedUnit config "" name kind folder ft emit)
                = name +:+ ".php").
  { intros. unfold plannedUnit. rewrite Hm, Hg. cbn.
    split; [|reflexivity].
    apply buildFilePath_bare, truthy_append_r. reflexivity. }
  assert (Ha : forall bc a,
             map path (plannedAggregate config bc a)
             = map (fun n => n +:+ ".php") (aggregateUnitNames a)
             /\ map filename (plannedAggregate config bc a)
                = map (fun n => n +:+ ".php") (aggregateUnitNames a)).
  { intros bc a. unfold plannedAggregate, aggregateUnitNames.
    rewrite Hds. cbn [getDirectoryPath].
    rewrite !map_app, !map_map.
    split; repeat apply (f_equal2 (@app _)); apply map_ext; intros u;
      apply Hu. }
  unfold plannedFiles, unitNames. rewrite !flat_map_map_fusion.
  split; apply flat_map_ext'; intros bc; rewrite !flat_map_map_fusion;
    apply flat_map_ext'; intros a; apply Ha.
Qed.

(** X11.  In the flat layout, without grouping by kind and without pattern
    rules, each file of a list [generatePHP] returns lies at the root under
    the name of its unit: the paths (and the file names) are the names of
    the units of the model, in order, with [.php] appended, so two units of
    the same name get the same path. *)
Theorem flat_layout_paths (E : RegExpEngine) (B : PhpBuilder)
  (model : CMLModel) (config : GeneratorConfig)
  (files : list GeneratedFile) :
  default DsFlat (directoryStructure config) = DsFlat ->
  default false (groupByType config) = false ->
  regexPatternMappings config = None ->
  generatePHP model config = Returns files ->
  map path files = map (fun n => n +:+ ".php") (unitNames model)
  /\ map filename files = map (fun n => n +:+ ".php") (unitNames model).
Proof.
  intros Hds Hg Hm Hfiles. apply generatePHP_Returns in Hfiles as [-> _].
  apply planned_flat_layout_paths; assumption.
Qed.

Lemma flat_layout_paths_witness :
  exists files,
    @generatePHP literalEngine carefulBuilder salesModel plainConfig
    = Returns files
    /\ map path files = ["Status.php"; "Money.php"; "Order.php"]
    /\ map filename files = ["Status.php"; "Money.php"; "Order.php"].
Proof.
  exists (@plannedFiles literalEngine salesModel plainConfig).
  split; [reflexivity|].
  apply (flat_layout_paths literalEngine carefulBuilder salesModel plainConfig);
    reflexivity.
Defined.

Lemma buildFilePath_grouped dir kind f :
  truthy dir = true -> truthy kind = true -> truthy f = true ->
  allChars notSlash kind = true ->
  buildFilePath dir (kind +:+ "/") "" f = dir +:+ "/" +:+ kind +:+ "/" +:+ f.
Proof.
  intros Hd Hk Hf Hns. unfold buildFilePath.
  assert (Hstrip : replaceFirst matchTrailingSlashes "" (kind +:+ "/") = kind).
  { apply replaceFirst_unmatched; [|reflexivity].
    clear Hk. induction kind as [|c kind IH]; [reflexivity|].
    simpl in Hns. apply andb_prop in Hns as [Hc Hns].
    cbn [unmatched]. rewrite append_cons. unfold matchTrailingSlashes at 1.
    cbn [allChars]. unfold notSlash in Hc. apply negb_true_iff in Hc.
    rewrite Hc. cbn [andb]. apply IH, Hns. }
  rewrite Hstrip. cbn [replaceFirst matchTrailingSlashes].
  rewrite filter_cons_True by exact Hd.
  rewrite filter_cons_True by exact Hk.
  rewrite filter_cons_False by discriminate.
  rewrite filter_cons_True by exact Hf.
  reflexivity.
Qed.

Lemma planned_grouped_layout_paths `{RegExpEngine} (config : GeneratorConfig)
  (bc : CMLBoundedContext) (a : CMLAggregate) :
  (directoryStructure config = Some DsAggregate
   \/ directoryStructure config = Some DsPsr4) ->
  groupByType config = Some true ->
  regexPatternMappings config = None ->
  let under kind n :=
    bc_name bc +:+ "/" +:+ agg_name a +:+ "/" +:+ kind +:+ "/" +:+ n
    +:+ ".php" in
  map path (plannedAggregate config bc a)
  = map (fun e => under "Enum" (enum_name e)) (agg_enums a)
    ++ map (fun v => under "ValueObject" (vo_name v)) (agg_valueObjects a)
    ++ map (fun e => under "Entity" (ent_name e)) (agg_entities a).
Proof.
  intros Hds Hg Hm under.
  assert (Hdir : getDirectoryPath (bc_name bc) (agg_name a)
                   (default DsFlat (directoryStructure config))
                 = bc_name bc +:+ "/" +:+ agg_name a).
  { destruct Hds as [-> | ->]; reflexivity. }
  assert (Hu : forall name kind kw ft emit,
             truthy kw = true -> allChars notSlash kw = true ->
             path (plannedUnit config (bc_name bc +:+ "/" +:+ agg_name a) name
                     kind (kw +:+ "/") ft emit)
             = under kw name).
  { intros name kind kw ft emit Hk Hs. unfold plannedUnit. rewrite Hm, Hg.
    change (default false (Some true)) with true. cbv beta iota zeta.
    cbn [path mr_subfolder noMapping mr_nameReplace applyNameReplace].
    rewrite buildFilePath_grouped; try assumption.
    - unfold under. rewrite !append_assoc. reflexivity.
    - apply truthy_append_r. reflexivity.
    - apply truthy_append_r. reflexivity. }
  unfold plannedAggregate. rewrite Hdir, !map_app, !map_map.
  repeat apply (f_equal2 (@app _)); apply map_ext; intros u.
  - apply (Hu _ _ "Enum"); reflexivity.
  - apply (Hu _ _ "ValueObject"); reflexivity.
  - apply (Hu _ _ "Entity"); reflexivity.
Qed.

(** X12.  With one folder per aggregate (the aggregate and the
    namespace-derived layouts), grouping by kind and no pattern rules, the
    files the loop body returns for an aggregate lie under
    context/aggregate/kind: its enumerations in [Enum], its value objects
    in [ValueObject], its entities in [Entity]. *)
Theorem grouped_layout_paths (E : RegExpEngine) (B : PhpBuilder)
  (config : GeneratorConfig) (bc : CMLBoundedContext) (a : CMLAggregate)
  (part : list GeneratedFile) :
  (directoryStructure config = Some DsAggregate
   \/ directoryStructure config = Some DsPsr4) ->
  groupByType config = Some true ->
  regexPatternMappings config = None ->
  generateAggregate config bc a = Returns part ->
  let under kind n :=
    bc_name bc +:+ "/" +:+ agg_name a +:+ "/" +:+ kind +:+ "/" +:+ n
    +:+ ".php" in
  map path part
  = map (fun e => under "Enum" (enum_name e)) (agg_enums a)
    ++ map (fun v => under "ValueObject" (vo_name v)) (agg_valueObjects a)
    ++ map (fun e => under "Entity" (ent_name e)) (agg_entities a).
Proof.
  intros Hds Hg Hm Hpart. apply generateAggregate_Returns in Hpart as [-> _].
  apply planned_grouped_layout_paths; assumption.
Qed.

Lemma grouped_layout_paths_witness :
  exists part,
    @generateAggregate literalEngine carefulBuilder groupedConfig sales
      orderAggregate = Returns part
    /\ map path part
       = ["Sales/Order/Enum/Status.php"; "Sales/Order/ValueObject/Money.php";
          "Sales/Order/Entity/Order.php"].
Proof.
  exists (@plannedAggregate literalEngine groupedConfig sales orderAggregate).
  split; [reflexivity|].
  apply (grouped_layout_paths literalEngine carefulBuilder groupedConfig sales
           orderAggregate);
    [left; reflexivity|reflexivity|reflexivity|reflexivity].
Defined.

Lemma planned_names_agree `{RegExpEngine} (model : CMLModel)
  (config : GeneratorConfig) (f : GeneratedFile) :
  f ∈ plannedFiles model config ->
  exists bc a final original,
    bc ∈ boundedContexts model /\ a ∈ bc_aggregates bc
    /\ original ∈ aggregateUnitNames a
    /\ filename f = final +:+ ".php"
    /\ declaredUnit (content f) = (if truthy final then final else original)
    /\ declaredNamespace (content f)
       = buildNamespace config (bc_name bc) (agg_name a).
Proof.
  intros Hf. apply plannedFiles_elem in Hf as (bc & a & Hbc & Ha & Hf).
  apply plannedAggregate_units in Hf
    as (name & kind & folder & ft & emit & -> & Hkind).
  unfold aggregateUnitNames.
  destruct Hkind as [(_ & _ & _ & e & He & -> & ->)
                    |[(_ & _ & _ & v & Hv & -> & ->)
                     |(_ & _ & _ & e & He & -> & ->)]];
    exists bc, a; unfold plannedUnit; cbn [filename content];
    eexists _, _; (split; [exact Hbc|]); (split; [exact Ha|]);
    rewrite !elem_of_app.
  - split; [left; apply list_elem_of_In, in_map, list_elem_of_In, He|].
    repeat split; reflexivity.
  - split; [right; left; apply list_elem_of_In, in_map, list_elem_of_In, Hv|].
    repeat split; reflexivity.
  - split; [right; right; apply list_elem_of_In, in_map, list_elem_of_In, He|].
    repeat split; reflexivity.
Qed.

(** X13.  A file [generatePHP] returns and the unit it declares agree on
    the name: the file name is a name followed by [.php], the enumeration or
    class inside is declared under that name, and its namespace is the
    namespace of its aggregate.  Only when a name-strip pattern has eaten
    the whole name is the unit declared under its original name, in a file
    called [.php]. *)
Theorem file_and_unit_names_agree (E : RegExpEngine) (B : PhpBuilder)
  (model : CMLModel) (config : GeneratorConfig)
  (files : list GeneratedFile) (f : GeneratedFile) :
  generatePHP model config = Returns files ->
  f ∈ files ->
  exists bc a final original,
    bc ∈ boundedContexts model /\ a ∈ bc_aggregates bc
    /\ original ∈ aggregateUnitNames a
    /\ filename f = final +:+ ".php"
    /\ declaredUnit (content f) = (if truthy final then final else original)
    /\ declaredNamespace (content f)
       = buildNamespace config (bc_name bc) (agg_name a).
Proof.
  intros Hfiles Hf. apply generatePHP_Returns in Hfiles as [-> _].
  apply (planned_names_agree model config f Hf).
Qed.

Lemma file_and_unit_names_agree_witness :
  exists bc a final original,
    bc ∈ boundedContexts salesModel /\ a ∈ bc_aggregates bc
    /\ original ∈ aggregateUnitNames a
    /\ "Order.php" = final +:+ ".php"
    /\ declaredUnit (requestedEntity order groupedConfig "Sales" "Order" "Order")
       = (if truthy final then final else original)
    /\ declaredNamespace
         (requestedEntity order groupedConfig "Sales" "Order" "Order")
       = buildNamespace groupedConfig (bc_name bc) (agg_name a).
Proof.
  apply (file_and_unit_names_agree literalEngine carefulBuilder salesModel
           groupedConfig
           (@plannedFiles literalEngine salesModel groupedConfig)
           {| filename := "Order.php"; path := "Sales/Order/Entity/Order.php";
              content :=
                requestedEntity order groupedConfig "Sales" "Order" "Order";
              type := FtEntity |}).
  - reflexivity.
  - vm_compute. apply list_elem_of_further, list_elem_of_further,
                  list_elem_of_here.
Defined.



(** ** Types *)

Lemma primitiveType_truthy t r : primitiveType t = Some r -> truthy r = true.
Proof.
  unfold primitiveType.
  repeat (match goal with
          | |- context [if ?b then _ else _] => destruct b
          end; [intros [= <-]; reflexivity|]).
  discriminate.
Qed.

(** X15.  The type mapper never answers the empty string: a blank type is
    mapped to [mixed]; of the types that are not blank a collection is
    mapped to its representation, a primitive to its counterpart in the
    table, and any other type, which is then not empty, to itself. *)
Theorem mapTypeToPHP_never_empty (config : GeneratorConfig)
  (prop : CMLProperty) :
  truthy (mapTypeToPHP config prop) = true
  /\ (isBlank (prop_type prop) = true -> mapTypeToPHP config prop = "mixed")
  /\ (isBlank (prop_type prop) = false ->
      (prop_isCollection prop = true ->
       mapTypeToPHP config prop
       = collectionRepresentation (framework config) (prop_isRelation prop))
      /\ (prop_isCollection prop = false ->
          forall counterpart,
            primitiveType (toLowerCase (prop_type prop)) = Some counterpart ->
            mapTypeToPHP config prop = counterpart)
      /\ (prop_isCollection prop = false ->
          primitiveType (toLowerCase (prop_type prop)) = None ->
          mapTypeToPHP config prop = prop_type prop
          /\ truthy (prop_type prop) = true)).
Proof.
  unfold mapTypeToPHP, collectionRepresentation.
  destruct (isBlank (prop_type prop)) eqn:Hb.
  { split; [reflexivity|]. split; [reflexivity|discriminate]. }
  assert (Hne : truthy (prop_type prop) = true).
  { unfold isBlank in Hb. apply orb_false_elim in Hb as [Hb _].
    apply negb_false_iff in Hb. exact Hb. }
  split; [|split; [discriminate|intros _]].
  - destruct (prop_isCollection prop).
    { destruct (prop_isRelation prop); [|reflexivity].
      destruct (framework config); reflexivity. }
    destruct (primitiveType _) as [r|] eqn:Hp; [|exact Hne].
    eapply primitiveType_truthy, Hp.
  - destruct (prop_isCollection prop).
    + split; [reflexivity|]. split; discriminate.
    + split; [discriminate|]. split.
      * intros _ counterpart ->. reflexivity.
      * intros _ ->. split; [reflexivity|exact Hne].
Qed.

Lemma mapTypeToPHP_never_empty_witness :
  mapTypeToPHP laravelConfig (property "Integer" "lines" true true)
  = eloquentCollection
  /\ mapTypeToPHP laravelConfig (property "Integer" "count" false false)
     = "int"
  /\ mapTypeToPHP laravelConfig (property "Money" "price" false false)
     = "Money"
  /\ mapTypeToPHP laravelConfig (property "  " "x" false false) = "mixed".
Proof.
  split; [|split; [|split]].
  - apply (proj1 (proj2 (proj2 (mapTypeToPHP_never_empty laravelConfig
                                  (property "Integer" "lines" true true)))
                   eq_refl)).
    reflexivity.
  - apply (proj1 (proj2 (proj2 (proj2 (mapTypeToPHP_never_empty laravelConfig
                                         (property "Integer" "count" false
                                            false))) eq_refl)));
      reflexivity.
  - apply (proj2 (proj2 (proj2 (proj2 (mapTypeToPHP_never_empty laravelConfig
                                         (property "Money" "price" false
                                            false))) eq_refl)));
      reflexivity.
  - apply (proj1 (proj2 (mapTypeToPHP_never_empty laravelConfig
                           (property "  " "x" false false)))).
    reflexivity.
Defined.



Lemma toLowerChar_not_capital c : isCapital (toLowerChar c) = false.
Proof.
  assert (Hall : forall d, negb (isCapital (toLowerChar d)) = true).
  { apply forall_ascii. vm_compute. reflexivity. }
  apply negb_true_iff, Hall.
Qed.

(** X17.  A snake-case name holds no capital letter, so the table name of
    an entity and the [mappedBy] side of a relation are in lower case. *)
Theorem toSnakeCase_lower_case (str : string) :
  allChars (fun c => negb (isCapital c)) (toSnakeCase str) = true.
Proof.
  unfold toSnakeCase, toLowerCase.
  pose proof (allChars_mapChars (fun c => negb (isCapital c)) toLowerChar
                (underscoreCapitals str)) as Hall.
  destruct (mapChars toLowerChar (underscoreCapitals str)) as [|c rest];
    [reflexivity|].
  specialize (Hall (fun d => proj2 (negb_true_iff _) (toLowerChar_not_capital d))).
  destruct (Ascii.eqb c "_"); [|exact Hall].
  simpl in Hall. apply andb_prop in Hall as [_ Hall]. exact Hall.
Qed.

(** ** The order of the pattern rules *)

Lemma find_app_Some {A} (p : A -> bool) l1 l2 x :
  find p l1 = Some x -> find p (l1 ++ l2) = Some x.
Proof.
  induction l1 as [|y l1 IH]; [discriminate|]. simpl.
  destruct (p y); [tauto|exact IH].
Qed.

Lemma find_app_None {A} (p : A -> bool) l1 l2 :
  find p l1 = None -> find p (l1 ++ l2) = find p l2.
Proof.
  induction l1 as [|y l1 IH]; [reflexivity|]. simpl.
  destruct (p y); [discriminate|exact IH].
Qed.

(** X18.  The rules are tried in order and the first eligible one decides:
    once a rule of a list is eligible for a unit, rules added behind the list
    change nothing for that unit; and rules that are not eligible for it
    (another kind, an empty pattern or subfolder, a pattern that does not
    compile or does not match) are transparent, wherever they stand in
    front. *)
Theorem rules_first_eligible_wins (E : RegExpEngine) (name : string)
  (kind : TypeFolder) (front back : list RegexPatternMapping) :
  (forall m, find (ruleEligible name kind) front = Some m ->
     getSubfolderForFile name kind (front ++ back)
     = {| mr_subfolder := subfolder m; mr_nameReplace := nameReplace m |})
  /\ (forallb (fun m => negb (ruleEligible name kind m)) front = true ->
      getSubfolderForFile name kind (front ++ back)
      = getSubfolderForFile name kind back).
Proof.
  split.
  - intros m Hm. rewrite getSubfolderForFile_find.
    rewrite (find_app_Some _ _ _ _ Hm). reflexivity.
  - intros Hnone. rewrite !getSubfolderForFile_find. f_equal.
    apply find_app_None.
    induction front as [|m front IH]; [reflexivity|].
    simpl in *. apply andb_prop in Hnone as [Hm Hnone].
    apply negb_true_iff in Hm. rewrite Hm. apply IH, Hnone.
Qed.

Lemma rules_first_eligible_wins_witness :
  @getSubfolderForFile literalEngine "OrderEntity" TfEntity
    ([stripEntitySuffix; ordersFolder] ++ [ordersFolder; stripEntitySuffix])
  = {| mr_subfolder := "Orders"; mr_nameReplace := None |}
  /\ @getSubfolderForFile literalEngine "OrderEntity" TfEntity
       ([stripEntitySuffix] ++ [ordersFolder])
     = @getSubfolderForFile literalEngine "OrderEntity" TfEntity [ordersFolder].
Proof.
  split.
  - apply (proj1 (rules_first_eligible_wins literalEngine "OrderEntity"
                    TfEntity [stripEntitySuffix; ordersFolder]
                    [ordersFolder; stripEntitySuffix]) ordersFolder).
    reflexivity.
  - apply (proj2 (rules_first_eligible_wins literalEngine "OrderEntity"
                    TfEntity [stripEntitySuffix] [ordersFolder])).
    reflexivity.
Defined.

(** ** Value objects *)

Section EmitterFacts.

Context `{PhpBuilder}.

(** A class [generateValueObject] returns is what it asked of the library,
    and the library has built it. *)
Lemma generateValueObject_Returns vo config bc aggregate name cls :
  generateValueObject vo config bc aggregate name = Returns (ClassFile cls)
  <-> cls = generateValueObjectClass vo config bc aggregate name
      /\ builds (ClassFile cls) = true.
Proof.
  unfold generateValueObject. rewrite printFile_Returns. split.
  - intros [[= ->] Hb]. auto.
  - intros [-> Hb]. auto.
Qed.

Lemma generateEntity_Returns entity config bc aggregate name cls :
  generateEntity entity config bc aggregate name = Returns (ClassFile cls)
  <-> cls = generateEntityClass entity config bc aggregate name
      /\ builds (ClassFile cls) = true.
Proof.
  unfold generateEntity. rewrite printFile_Returns. split.
  - intros [[= ->] Hb]. auto.
  - intros [-> Hb]. auto.
Qed.

End EmitterFacts.

Lemma isConstructor_getter config p : isConstructor (getter config p) = false.
Proof. reflexivity. Qed.

Lemma isConstructor_setter config p : isConstructor (setter config p) = false.
Proof. reflexivity. Qed.

Lemma voAccessors_not_constructor vo config m :
  m ∈ voAccessors vo config -> isConstructor m = false.
Proof.
  unfold voAccessors. intros Hm.
  apply list_elem_of_In, in_flat_map in Hm as (p & _ & Hm).
  apply in_app_or in Hm as [Hm|Hm].
  - destruct (addGetters config); [|contradiction].
    destruct Hm as [<-|[]]. reflexivity.
  - destruct (_ && _); [|contradiction].
    destruct Hm as [<-|[]]. reflexivity.
Qed.

Lemma hasName_elem names n : hasName names n = true <-> n ∈ names.
Proof.
  unfold hasName. rewrite existsb_exists. split.
  - intros (x & Hx & Heq). apply String.eqb_eq in Heq as ->.
    apply list_elem_of_In, Hx.
  - intros Hn. exists n. split; [apply list_elem_of_In, Hn|].
    apply String.eqb_refl.
Qed.

(** What [generateValueObject] asks for: fields and promoted parameters. *)
Lemma value_object_fields_calls (vo : CMLValueObject)
  (config : GeneratorConfig) (bc aggregate name : string) :
  let cls := generateValueObjectClass vo config bc aggregate name in
  let promoted := voPromotedProperties vo config in
  (forall pp, pp ∈ cls_properties cls -> pp_name pp ∉ promoted)
  /\ (forall ctor prm,
         ctor ∈ cls_methods cls -> isConstructor ctor = true ->
         prm ∈ m_params ctor ->
         param_promoted prm = constructorPropertyPromotion config
         /\ (constructorPropertyPromotion config = true ->
             param_name prm ∈ promoted))
  /\ (forall p, p ∈ vo_properties vo ->
        prop_name p ∈ map pp_name (cls_properties cls)
        \/ prop_name p ∈ promoted)
  /\ (constructorPropertyPromotion config = false ->
      map pp_name (cls_properties cls) = map prop_name (vo_properties vo)).
Proof.
  intros cls promoted. unfold cls, generateValueObjectClass.
  cbn [cls_properties cls_methods].
  fold promoted. split; [|split; [|split]].
  - intros pp Hpp.
    apply list_elem_of_In, in_map_iff in Hpp as (p & <- & Hp).
    apply list_elem_of_In, list_elem_of_filter in Hp as [Hp _].
    cbn [voProperty pp_name]. intros Hin.
    apply hasName_elem in Hin. rewrite Hin in Hp. discriminate.
  - intros ctor prm Hctor Hc Hprm.
    apply elem_of_app in Hctor as [Hctor|Hctor];
      [|rewrite (voAccessors_not_constructor _ _ _ Hctor) in Hc; discriminate].
    unfold voConstructor in Hctor.
    destruct (negb (bool_decide (voEffectiveConstructorType config = CtNone))
              && _) eqn:Hex; [|inversion Hctor].
    apply list_elem_of_singleton in Hctor as ->. cbn [m_params] in Hprm.
    apply list_elem_of_In, in_map_iff in Hprm as (p & <- & Hp).
    split; [reflexivity|]. intros Hpromo.
    unfold promoted, voPromotedProperties. rewrite Hpromo.
    apply andb_prop in Hex as [-> _]. cbn [andb constructorParameter param_name].
    apply list_elem_of_In, in_map, Hp.
  - intros p Hp.
    destruct (hasName promoted (prop_name p)) eqn:Hn.
    + right. apply hasName_elem, Hn.
    + left. rewrite map_map. cbn [voProperty pp_name].
      apply list_elem_of_In, in_map_iff. exists p. split; [reflexivity|].
      apply list_elem_of_In, list_elem_of_filter. auto.
  - intros Hno. unfold promoted, voPromotedProperties. rewrite Hno.
    cbn [andb]. rewrite map_map. cbn [voProperty pp_name hasName existsb].
    f_equal. clear. induction (vo_properties vo) as [|p l IH]; [reflexivity|].
    rewrite filter_cons_True by reflexivity. f_equal. exact IH.
Qed.

(** X19.  In a class [generateValueObject] returns a property is declared
    as a field or promoted into the constructor, never both: no field has a
    promoted name, every parameter of a promoting constructor has one, and
    each declared property of the value object is found, by name, among the
    fields or among the promoted names.  No field is declared twice.
    Without promotion the names of the fields are the names of the
    properties. *)
Theorem value_object_fields_and_promotion (B : PhpBuilder)
  (vo : CMLValueObject) (config : GeneratorConfig)
  (bc aggregate name : string) (cls : PhpClass) :
  generateValueObject vo config bc aggregate name = Returns (ClassFile cls) ->
  let promoted := voPromotedProperties vo config in
  (forall pp, pp ∈ cls_properties cls -> pp_name pp ∉ promoted)
  /\ (forall ctor prm,
         ctor ∈ cls_methods cls -> isConstructor ctor = true ->
         prm ∈ m_params ctor ->
         param_promoted prm = constructorPropertyPromotion config
         /\ (constructorPropertyPromotion config = true ->
             param_name prm ∈ promoted))
  /\ (forall p, p ∈ vo_properties vo ->
        prop_name p ∈ map pp_name (cls_properties cls)
        \/ prop_name p ∈ promoted)
  /\ NoDup (map pp_name (cls_properties cls))
  /\ (constructorPropertyPromotion config = false ->
      forall n, n ∈ map pp_name (cls_properties cls)
                <-> n ∈ map prop_name (vo_properties vo)).
Proof.
  intros Hcls promoted.
  apply generateValueObject_Returns in Hcls as [-> Hb].
  destruct (value_object_fields_calls vo config bc aggregate name)
    as (H1 & H2 & H3 & H4).
  split; [exact H1|]. split; [exact H2|]. split; [exact H3|].
  split; [apply builds_properties, Hb|].
  intros Hno n. rewrite (H4 Hno). reflexivity.
Qed.

Lemma value_object_fields_and_promotion_witness :
  cls_properties
    (generateValueObjectClass money promotingConfig "Sales" "Order" "Money")
  = []
  /\ forall p, p ∈ vo_properties money ->
       prop_name p ∈ voPromotedProperties money promotingConfig.
Proof.
  destruct (value_object_fields_and_promotion carefulBuilder money
              promotingConfig "Sales" "Order" "Money"
              (generateValueObjectClass money promotingConfig "Sales" "Order"
                 "Money") eq_refl) as (Hfields & _ & Heach & _ & _).
  split; [reflexivity|].
  intros p Hp. destruct (Heach p Hp) as [Hin|Hin]; [|exact Hin].
  vm_compute in Hin. inversion Hin.
Defined.

(** What [generateValueObject] asks for: the constructor comes first. *)
Lemma value_object_constructor_calls (vo : CMLValueObject)
  (config : GeneratorConfig) (bc aggregate name : string) :
  let cls := generateValueObjectClass vo config bc aggregate name in
  (voEffectiveConstructorType config = CtNone \/ vo_properties vo = [] ->
   Forall (fun m => isConstructor m = false) (cls_methods cls))
  /\ (voEffectiveConstructorType config <> CtNone -> vo_properties vo <> [] ->
      exists ctor,
        cls_methods cls = ctor :: voAccessors vo config
        /\ isConstructor ctor = true
        /\ Forall (fun m => isConstructor m = false) (voAccessors vo config)
        /\ map param_name (m_params ctor)
           = map prop_name (voPropertiesForConstructor vo config))
  /\ (isTrue (readonlyValueObjects config) = false ->
      constructorType config = CtRequired ->
      voPropertiesForConstructor vo config
      = filter (fun p => prop_nullable p = false) (vo_properties vo)).
Proof.
  intros cls. unfold cls, generateValueObjectClass. cbn [cls_methods].
  assert (Hacc : Forall (fun m => isConstructor m = false)
                   (voAccessors vo config)).
  { apply Forall_forall. intros m. apply voAccessors_not_constructor. }
  split; [|split].
  - intros Hnone. unfold voConstructor.
    destruct Hnone as [-> | ->]; [exact Hacc|].
    rewrite andb_false_r. exact Hacc.
  - intros Hsome Hne. unfold voConstructor.
    rewrite bool_decide_eq_false_2 by exact Hsome.
    destruct (vo_properties vo) as [|p ps] eqn:Hps; [congruence|].
    cbn [negb andb List.length Nat.ltb Nat.leb].
    eexists. split; [reflexivity|]. split; [reflexivity|].
    split; [exact Hacc|]. cbn [m_params]. rewrite map_map. reflexivity.
  - intros Hro Hreq. unfold voPropertiesForConstructor,
      voEffectiveConstructorType. rewrite Hro, Hreq. reflexivity.
Qed.

(** X20.  A class [generateValueObject] returns has at most one
    constructor: none when the effective policy is "none" or the value
    object has no property, else exactly one, and its parameters are named
    after the properties the policy selects.  Under the policy "required",
    when read-only is not requested, these are the properties that are not
    nullable. *)
Theorem value_object_constructor (B : PhpBuilder) (vo : CMLValueObject)
  (config : GeneratorConfig) (bc aggregate name : string) (cls : PhpClass) :
  generateValueObject vo config bc aggregate name = Returns (ClassFile cls) ->
  (voEffectiveConstructorType config = CtNone \/ vo_properties vo = [] ->
   forall m, m ∈ cls_methods cls -> isConstructor m = false)
  /\ (voEffectiveConstructorType config <> CtNone -> vo_properties vo <> [] ->
      exists ctor,
        ctor ∈ cls_methods cls
        /\ isConstructor ctor = true
        /\ (forall m, m ∈ cls_methods cls -> isConstructor m = true ->
                      m = ctor)
        /\ (forall n, n ∈ map param_name (m_params ctor)
                      <-> n ∈ map prop_name
                                (voPropertiesForConstructor vo config)))
  /\ (isTrue (readonlyValueObjects config) = false ->
      constructorType config = CtRequired ->
      voPropertiesForConstructor vo config
      = filter (fun p => prop_nullable p = false) (vo_properties vo)).
Proof.
  intros Hcls. apply generateValueObject_Returns in Hcls as [-> _].
  destruct (value_object_constructor_calls vo config bc aggregate name)
    as (H1 & H2 & H3).
  split; [|split; [|exact H3]].
  - intros Hnone m Hm.
    apply (proj1 (Forall_forall _ _) (H1 Hnone) m Hm).
  - intros Hsome Hne.
    destruct (H2 Hsome Hne) as (ctor & Hms & Hc & Hacc & Hnames).
    exists ctor. rewrite Hms.
    split; [apply list_elem_of_here|]. split; [exact Hc|]. split.
    + intros m Hm Hmc. apply elem_of_cons in Hm as [->|Hm]; [reflexivity|].
      rewrite (proj1 (Forall_forall _ _) Hacc m Hm) in Hmc. discriminate.
    + intros n. rewrite Hnames. reflexivity.
Qed.

Lemma value_object_constructor_witness :
  exists ctor,
    ctor ∈ cls_methods
             (generateValueObjectClass money readonlyConfig "Sales" "Order"
                "Money")
    /\ isConstructor ctor = true
    /\ (forall m,
          m ∈ cls_methods
                (generateValueObjectClass money readonlyConfig "Sales" "Order"
                   "Money") ->
          isConstructor m = true -> m = ctor)
    /\ (forall n, n ∈ map param_name (m_params ctor)
                  <-> n ∈ map prop_name
                            (voPropertiesForConstructor money readonlyConfig)).
Proof.
  apply (proj1 (proj2
           (value_object_constructor carefulBuilder money readonlyConfig
              "Sales" "Order" "Money"
              (generateValueObjectClass money readonlyConfig "Sales" "Order"
                 "Money") eq_refl))); discriminate.
Defined.

(** ** Entities *)

Lemma entityAccessors_not_constructor entity config m :
  m ∈ entityAccessors entity config -> isConstructor m = false.
Proof.
  unfold entityAccessors. intros Hm.
  apply list_elem_of_In, in_flat_map in Hm as (p & _ & Hm).
  destruct (isLaravelRelation config p); [contradiction|].
  apply in_app_or in Hm as [Hm|Hm].
  - destruct (addGetters config); [|contradiction].
    destruct Hm as [<-|[]]. reflexivity.
  - destruct (addSetters config); [|contradiction].
    destruct Hm as [<-|[]]. reflexivity.
Qed.

Lemma concat_truthy parts x :
  In x parts -> truthy x = true -> truthy (String.concat "" parts) = true.
Proof.
  induction parts as [|y parts IH]; [contradiction|].
  intros [->|Hin] Hx.
  - destruct parts as [|z parts]; [exact Hx|].
    cbn [String.concat]. apply truthy_append_l, Hx.
  - destruct parts as [|z parts]; [contradiction|].
    cbn [String.concat]. apply truthy_append_r, truthy_append_r.
    apply IH; assumption.
Qed.

(** What [generateEntity] asks for under the ORM-mapped framework when the
    constructor policy is "none". *)
Lemma doctrine_entity_constructor_calls (entity : CMLEntity)
  (config : GeneratorConfig) (bc aggregate name : string) :
  framework config = Doctrine ->
  constructorType config = CtNone ->
  let cls := generateEntityClass entity config bc aggregate name in
  (existsb prop_isCollection (ent_properties entity) = true ->
   exists ctor,
     cls_methods cls = ctor :: entityAccessors entity config
     /\ isConstructor ctor = true /\ m_params ctor = []
     /\ m_body ctor = Some (collectionInits [] (ent_properties entity))
     /\ truthy (collectionInits [] (ent_properties entity)) = true
     /\ Forall (fun m => isConstructor m = false)
          (entityAccessors entity config))
  /\ (existsb prop_isCollection (ent_properties entity) = false ->
      Forall (fun m => isConstructor m = false) (cls_methods cls)).
Proof.
  intros Hf Hc cls. unfold cls, generateEntityClass. cbn [cls_methods].
  unfold entityConstructor, entityRelationMethods. rewrite Hf, Hc.
  change (bool_decide (CtNone = CtNone)) with true.
  change (bool_decide (Doctrine = Doctrine)) with true.
  change (bool_decide (Doctrine = Laravel)) with false.
  cbn [negb andb]. rewrite app_nil_r.
  assert (Hacc : Forall (fun m => isConstructor m = false)
                   (entityAccessors entity config)).
  { apply Forall_forall. intros m. apply entityAccessors_not_constructor. }
  split; intros Hcoll.
  - rewrite Hcoll.
    eexists. split; [reflexivity|]. repeat split; try reflexivity;
      [|exact Hacc].
    apply existsb_exists in Hcoll as (p & Hp & Hpc).
    unfold collectionInits.
    apply (concat_truthy _
             (if prop_isCollection p && prop_isRelation p
              then arrayCollectionInit p
              else if prop_isCollection p && negb (prop_isRelation p)
                      && negb (hasName [] (prop_name p))
              then arrayInit p else "")).
    + apply in_map_iff. exists p. auto.
    + rewrite Hpc. destruct (prop_isRelation p); reflexivity.
  - rewrite Hcoll. exact Hacc.
Qed.

(** X21.  Under the ORM-mapped framework a class [generateEntity] returns
    for an entity with a collection property has a constructor even when
    the constructor policy is "none": exactly one, without parameters, and
    with a body that is not empty and only initialises the collections.
    Without a collection property no constructor is emitted under that
    policy. *)
Theorem doctrine_entity_collection_constructor (B : PhpBuilder)
  (entity : CMLEntity) (config : GeneratorConfig)
  (bc aggregate name : string) (cls : PhpClass) :
  framework config = Doctrine ->
  constructorType config = CtNone ->
  generateEntity entity config bc aggregate name = Returns (ClassFile cls) ->
  (existsb prop_isCollection (ent_properties entity) = true ->
   exists ctor,
     ctor ∈ cls_methods cls
     /\ isConstructor ctor = true /\ m_params ctor = []
     /\ m_body ctor = Some (collectionInits [] (ent_properties entity))
     /\ truthy (collectionInits [] (ent_properties entity)) = true
     /\ (forall m, m ∈ cls_methods cls -> isConstructor m = true -> m = ctor))
  /\ (existsb prop_isCollection (ent_properties entity) = false ->
      forall m, m ∈ cls_methods cls -> isConstructor m = false).
Proof.
  intros Hf Hc Hcls. apply generateEntity_Returns in Hcls as [-> _].
  destruct (doctrine_entity_constructor_calls entity config bc aggregate name
              Hf Hc) as (H1 & H2).
  split.
  - intros Hcoll.
    destruct (H1 Hcoll) as (ctor & Hms & Hctor & Hparams & Hbody & Hne & Hacc).
    exists ctor. rewrite Hms.
    split; [apply list_elem_of_here|]. split; [exact Hctor|].
    split; [exact Hparams|]. split; [exact Hbody|]. split; [exact Hne|].
    intros m Hm Hmc. apply elem_of_cons in Hm as [->|Hm]; [reflexivity|].
    rewrite (proj1 (Forall_forall _ _) Hacc m Hm) in Hmc. discriminate.
  - intros Hcoll m Hm.
    apply (proj1 (Forall_forall _ _) (H2 Hcoll) m Hm).
Qed.

Lemma doctrine_entity_collection_constructor_witness :
  exists ctor,
    ctor ∈ cls_methods (generateEntityClass order doctrineNoConstructor
                          "Sales" "Order" "Order")
    /\ isConstructor ctor = true /\ m_params ctor = []
    /\ m_body ctor = Some (collectionInits [] (ent_properties order))
    /\ truthy (collectionInits [] (ent_properties order)) = true
    /\ (forall m,
          m ∈ cls_methods (generateEntityClass order doctrineNoConstructor
                             "Sales" "Order" "Order") ->
          isConstructor m = true -> m = ctor).
Proof.
  apply (proj1 (doctrine_entity_collection_constructor carefulBuilder order
                  doctrineNoConstructor "Sales" "Order" "Order"
                  (generateEntityClass order doctrineNoConstructor "Sales"
                     "Order" "Order") eq_refl eq_refl eq_refl)).
  reflexivity.
Defined.

(** What [generateEntity] asks for under the active-record framework. *)
Lemma laravel_relations_calls (entity : CMLEntity)
  (config : GeneratorConfig) (bc aggregate name : string) :
  framework config = Laravel ->
  let cls := generateEntityClass entity config bc aggregate name in
  let plain p := p ∈ ent_properties entity /\ prop_isRelation p = false in
  cls_extends cls = Some (eloquent "Model")
  /\ (forall pp, pp ∈ cls_properties cls ->
        exists p, plain p /\ pp_name pp = prop_name p)
  /\ (forall m prm, m ∈ entityConstructor entity config -> prm ∈ m_params m ->
        exists p, plain p /\ param_name prm = prop_name p)
  /\ (forall m, m ∈ entityAccessors entity config ->
        exists p, plain p /\ (m = getter config p \/ m = setter config p))
  /\ cls_methods cls
     = entityConstructor entity config ++ entityAccessors entity config
       ++ map relationMethod
            (filter (fun p => prop_isRelation p = true) (ent_properties entity))
  /\ (forall p,
        m_name (relationMethod p) = prop_name p
        /\ m_returnType (relationMethod p)
           = Some (eloquent ("Relations" +:+ backslash +:+
                             (if prop_isCollection p then "HasMany"
                              else "BelongsTo")))).
Proof.
  intros Hf cls plain. unfold cls, generateEntityClass.
  cbn [cls_extends cls_properties cls_methods].
  unfold entityRelationMethods. rewrite Hf.
  change (bool_decide (Laravel = Laravel)) with true. cbv iota.
  assert (Hrel : forall p, isLaravelRelation config p = prop_isRelation p).
  { intros p. unfold isLaravelRelation. rewrite Hf.
    change (bool_decide (Laravel = Laravel)) with true. apply andb_true_r. }
  split; [reflexivity|]. split; [|split; [|split; [|split]]].
  - intros pp Hpp. apply list_elem_of_In, in_map_iff in Hpp as (p & <- & Hp).
    apply list_elem_of_In, list_elem_of_filter in Hp as [Hp Hin].
    apply orb_false_elim in Hp as [Hp _]. rewrite Hrel in Hp.
    exists p. split; [split; assumption|].
    unfold entityProperty. rewrite Hf. reflexivity.
  - intros m prm Hm Hprm. unfold entityConstructor in Hm.
    destruct (negb (bool_decide (constructorType config = CtNone))) eqn:Hc.
    + apply list_elem_of_singleton in Hm as ->. cbn [m_params] in Hprm.
      apply list_elem_of_In, in_map_iff in Hprm as (p & <- & Hp).
      exists p. split; [|reflexivity].
      unfold entityPropertiesToInclude, entityPropertiesForConstructor in Hp.
      rewrite Hc in Hp. apply list_elem_of_In in Hp.
      destruct (bool_decide (constructorType config = CtRequired)).
      * apply list_elem_of_filter in Hp as [_ Hp].
        apply list_elem_of_filter in Hp as [Hp Hin]. rewrite Hrel in Hp.
        split; assumption.
      * apply list_elem_of_filter in Hp as [Hp Hin]. rewrite Hrel in Hp.
        split; assumption.
    + rewrite Hf in Hm. change (bool_decide (Laravel = Doctrine)) with false in Hm.
      inversion Hm.
  - intros m Hm. unfold entityAccessors in Hm.
    apply list_elem_of_In, in_flat_map in Hm as (p & Hin & Hm).
    rewrite Hrel in Hm. destruct (prop_isRelation p) eqn:Hp; [contradiction|].
    exists p. split; [split; [apply list_elem_of_In, Hin|exact Hp]|].
    apply in_app_or in Hm as [Hm|Hm].
    + destruct (addGetters config); [|contradiction].
      destruct Hm as [<-|[]]. left. reflexivity.
    + destruct (addSetters config); [|contradiction].
      destruct Hm as [<-|[]]. right. reflexivity.
  - reflexivity.
  - intros p. split; reflexivity.
Qed.

(** X22.  Under the active-record framework, in a class [generateEntity]
    returns a relation property of the entity is neither a field nor a
    constructor parameter nor the subject of a getter or setter: each of
    those stems from a property that is no relation.  Instead the class,
    which extends the framework's model, has one method for each relation
    property, named after it, whose return type says "has many" for a
    collection and "belongs to" otherwise; and it has no other method than
    the constructor, the getters and setters, and these. *)
Theorem laravel_relations_are_methods (B : PhpBuilder) (entity : CMLEntity)
  (config : GeneratorConfig) (bc aggregate name : string) (cls : PhpClass) :
  framework config = Laravel ->
  generateEntity entity config bc aggregate name = Returns (ClassFile cls) ->
  let plain p := p ∈ ent_properties entity /\ prop_isRelation p = false in
  let relation p := p ∈ ent_properties entity /\ prop_isRelation p = true in
  cls_extends cls = Some (eloquent "Model")
  /\ (forall pp, pp ∈ cls_properties cls ->
        exists p, plain p /\ pp_name pp = prop_name p)
  /\ (forall m, m ∈ cls_methods cls ->
        (isConstructor m = true
         /\ forall prm, prm ∈ m_params m ->
              exists p, plain p /\ param_name prm = prop_name p)
        \/ (exists p, plain p /\ (m = getter config p \/ m = setter config p))
        \/ (exists p, relation p /\ m = relationMethod p))
  /\ (forall p, relation p -> relationMethod p ∈ cls_methods cls)
  /\ (forall p,
        m_name (relationMethod p) = prop_name p
        /\ m_returnType (relationMethod p)
           = Some (eloquent ("Relations" +:+ backslash +:+
                             (if prop_isCollection p then "HasMany"
                              else "BelongsTo")))).
Proof.
  intros Hf Hcls plain relation.
  apply generateEntity_Returns in Hcls as [-> _].
  destruct (laravel_relations_calls entity config bc aggregate name Hf)
    as (Hext & Hfields & Hctor & Hacc & Hms & Hshape).
  split; [exact Hext|]. split; [exact Hfields|].
  split; [|split; [|exact Hshape]].
  - intros m Hm. rewrite Hms in Hm.
    apply elem_of_app in Hm as [Hm|Hm]; [left|right].
    + split; [|intros prm Hprm; apply (Hctor m prm Hm Hprm)].
      unfold entityConstructor in Hm.
      destruct (negb (bool_decide (constructorType config = CtNone))).
      * apply list_elem_of_singleton in Hm as ->. reflexivity.
      * destruct (_ && _).
        -- apply list_elem_of_singleton in Hm as ->. reflexivity.
        -- inversion Hm.
    + apply elem_of_app in Hm as [Hm|Hm]; [left; apply Hacc, Hm|right].
      apply list_elem_of_In, in_map_iff in Hm as (p & <- & Hp).
      apply list_elem_of_In, list_elem_of_filter in Hp as [Hp Hin].
      exists p. split; [split; assumption|reflexivity].
  - intros p [Hin Hp]. rewrite Hms, !elem_of_app. right. right.
    apply list_elem_of_In, in_map, list_elem_of_In, list_elem_of_filter.
    split; assumption.
Qed.

Lemma laravel_relations_are_methods_witness :
  relationMethod (property "OrderLine" "lines" true true)
  ∈ cls_methods (generateEntityClass order laravelConfig "Sales" "Order"
                   "Order").
Proof.
  apply (proj1 (proj2 (proj2 (proj2
           (laravel_relations_are_methods carefulBuilder order laravelConfig
              "Sales" "Order" "Order"
              (generateEntityClass order laravelConfig "Sales" "Order" "Order")
              eq_refl eq_refl))))).
  split; [apply list_elem_of_here|reflexivity].
Defined.

(** What [generateEntity] asks for under the ORM-mapped framework: the
    attributes. *)
Lemma doctrine_fields_calls (entity : CMLEntity)
  (config : GeneratorConfig) (bc aggregate name : string) :
  framework config = Doctrine ->
  let cls := generateEntityClass entity config bc aggregate name in
  (notFalse (doctrineAttributes config) = true ->
   map fst (cls_attributes cls) = [ormMapping "Entity"; ormMapping "Table"]
   /\ Forall (fun pp =>
                exists kind args,
                  pp_attributes pp = [(ormMapping kind, args)]
                  /\ kind ∈ ["OneToMany"; "ManyToOne"; "Column"])
        (cls_properties cls))
  /\ (notFalse (doctrineAttributes config) = false ->
      cls_attributes cls = []
      /\ Forall (fun pp => pp_attributes pp = []) (cls_properties cls)).
Proof.
  intros Hf cls. unfold cls, generateEntityClass.
  cbn [cls_attributes cls_properties]. rewrite Hf.
  change (bool_decide (Doctrine = Doctrine)) with true. cbn [andb].
  split; intros Hattr; rewrite Hattr; (split; [reflexivity|]);
    change (map ?f ?l) with (f <$> l); apply Forall_fmap, Forall_forall;
    intros p _; unfold compose, entityProperty; rewrite Hf, Hattr.
  - destruct (prop_isRelation p), (prop_isCollection p); cbn [pp_attributes];
      eexists _, _; (split; [reflexivity|]);
      repeat (first [apply list_elem_of_here|apply list_elem_of_further]).
  - destruct (prop_isCollection p && prop_isRelation p); reflexivity.
Qed.

(** X23.  Under the ORM-mapped framework, unless the decorations are
    switched off, every field of a class [generateEntity] returns carries
    exactly one mapping attribute (a to-many or to-one relation, or a
    column) and the class carries the entity and the table attribute and no
    other; with the decorations switched off neither the class nor a field
    carries any attribute. *)
Theorem doctrine_fields_are_mapped (B : PhpBuilder) (entity : CMLEntity)
  (config : GeneratorConfig) (bc aggregate name : string) (cls : PhpClass) :
  framework config = Doctrine ->
  generateEntity entity config bc aggregate name = Returns (ClassFile cls) ->
  (notFalse (doctrineAttributes config) = true ->
   map fst (cls_attributes cls) ≡ₚ [ormMapping "Entity"; ormMapping "Table"]
   /\ Forall (fun pp =>
                exists kind args,
                  pp_attributes pp = [(ormMapping kind, args)]
                  /\ kind ∈ ["OneToMany"; "ManyToOne"; "Column"])
        (cls_properties cls))
  /\ (notFalse (doctrineAttributes config) = false ->
      cls_attributes cls = []
      /\ Forall (fun pp => pp_attributes pp = []) (cls_properties cls)).
Proof.
  intros Hf Hcls. apply generateEntity_Returns in Hcls as [-> _].
  destruct (doctrine_fields_calls entity config bc aggregate name Hf)
    as (H1 & H2).
  split; [|exact H2].
  intros Hattr. destruct (H1 Hattr) as [Hc Hp]. rewrite Hc. auto.
Qed.

Lemma doctrine_fields_are_mapped_witness :
  map fst (cls_attributes
             (generateEntityClass order doctrineConfig "Sales" "Order" "Order"))
  ≡ₚ [ormMapping "Entity"; ormMapping "Table"]
  /\ Forall (fun pp =>
               exists kind args,
                 pp_attributes pp = [(ormMapping kind, args)]
                 /\ kind ∈ ["OneToMany"; "ManyToOne"; "Column"])
       (cls_properties
          (generateEntityClass order doctrineConfig "Sales" "Order" "Order")).
Proof.
  apply (proj1 (doctrine_fields_are_mapped carefulBuilder order doctrineConfig
                  "Sales" "Order" "Order"
                  (generateEntityClass order doctrineConfig "Sales" "Order"
                     "Order") eq_refl eq_refl)).
  reflexivity.
Defined.

(** ** Enumeration cases, again *)

Lemma normalChar_idempotent c : normalChar (normalChar c) = normalChar c.
Proof.
  assert (Hall : forall d,
             Ascii.eqb (normalChar (normalChar d)) (normalChar d) = true).
  { apply forall_ascii. vm_compute. reflexivity. }
  apply Ascii.eqb_eq, Hall.
Qed.

Lemma length_mapChars f s : String.length (mapChars f s) = String.length s.
Proof. induction s as [|c s IH]; simpl; congruence. Qed.

(** X24.  The identifier of an enumeration case is as long as the label it
    comes from, so a label that is not empty never gives an empty
    identifier, and it is a fixed point: an identifier used as a label gives
    itself. *)
Theorem enumCase_stable (value : string) :
  String.length (fst (enumCase value)) = String.length value
  /\ (truthy value = true -> truthy (fst (enumCase value)) = true)
  /\ enumCase (fst (enumCase value)) = enumCase value.
Proof.
  rewrite !enumCase_normalLabel. cbn [fst]. unfold normalLabel.
  split; [apply length_mapChars|]. split.
  - destruct value; [discriminate|reflexivity].
  - rewrite mapChars_mapChars.
    rewrite (mapChars_ext _ normalChar); [reflexivity|].
    apply normalChar_idempotent.
Qed.

Lemma enumCase_stable_witness :
  truthy (fst (enumCase "pending-review")) = true.
Proof.
  apply (proj1 (proj2 (enumCase_stable "pending-review"))). reflexivity.
Defined.

(** * The file tree of the explorer *)

Import FileExplorer.

Lemma alter_middle {A} (f : A -> A) (i : nat) (l : list A) (x : A) :
  l !! i = Some x -> alter f i l = take i l ++ f x :: drop (S i) l.
Proof.
  revert i. induction l as [|y l IH]; intros [|i] Hi; try discriminate.
  - injection Hi as ->. reflexivity.
  - cbn. f_equal. apply IH, Hi.
Qed.

Lemma findFolder_Some part cs i :
  findFolder part cs = Some i ->
  exists p sub, cs !! i = Some (Folder part p sub).
Proof.
  revert i. induction cs as [|c cs IH]; intros i Hi; [discriminate|].
  cbn [findFolder] in Hi. destruct (isFolderNamed part c) eqn:Hc.
  - injection Hi as <-. destruct c as [|n p sub]; [discriminate|].
    apply String.eqb_eq in Hc as ->. exists p, sub. reflexivity.
  - destruct (findFolder part cs) as [j|]; [|discriminate].
    injection Hi as <-. apply (IH j eq_refl).
Qed.

Lemma findFolder_None part cs :
  findFolder part cs = None -> part ∉ folderNames cs.
Proof.
  induction cs as [|c cs IH]; intros Hn; [apply not_elem_of_nil|].
  cbn [findFolder] in Hn. destruct (isFolderNamed part c) eqn:Hc;
    [discriminate|].
  destruct (findFolder part cs); [discriminate|].
  unfold folderNames. destruct c as [|n p sub]; cbn.
  - apply IH. reflexivity.
  - apply not_elem_of_cons. split; [|apply IH; reflexivity].
    intros ->. cbn in Hc. rewrite String.eqb_refl in Hc. discriminate.
Qed.

(** What adding a file does to the file nodes of a forest. *)
Lemma entries_addFile file parts :
  parts <> [] ->
  forall seen cs,
    flat_map entries (addFile file seen parts cs)
    ≡ₚ flat_map entries cs
       ++ [(filter notBlank (removelast parts),
            FileLeaf (List.last parts "") (path file) file)].
Proof.
  induction parts as [|part rest IH]; intros Hne seen cs; [congruence|].
  destruct rest as [|r rest].
  - cbn [addFile]. rewrite flat_map_app. reflexivity.
  - specialize (IH ltac:(discriminate)).
    change (removelast (part :: r :: rest))
      with (part :: removelast (r :: rest)).
    change (List.last (part :: r :: rest) "")
      with (List.last (r :: rest) "").
    change (addFile file seen (part :: r :: rest) cs)
      with (if isBlank part then addFile file (seen ++ [part]) (r :: rest) cs
            else
              match findFolder part cs with
              | Some i =>
                  alter (withChildren (addFile file (seen ++ [part]) (r :: rest)))
                    i cs
              | None =>
                  cs ++ [Folder part (join "/" (filter notBlank (seen ++ [part])))
                           (addFile file (seen ++ [part]) (r :: rest) [])]
              end).
    destruct (isBlank part) eqn:Hb.
    + rewrite filter_cons_False
        by (unfold notBlank; rewrite Hb; discriminate).
      apply IH.
    + rewrite filter_cons_True by exact Hb.
      destruct (findFolder part cs) as [i|] eqn:Hfind.
      * apply findFolder_Some in Hfind as (p & sub & Hi).
        rewrite (alter_middle _ _ _ _ Hi).
        assert (Hcs : flat_map entries cs
                      = flat_map entries
                          (take i cs ++ Folder part p sub :: drop (S i) cs))
          by (rewrite (take_drop_middle cs i _ Hi); reflexivity).
        rewrite Hcs. clear Hcs.
        rewrite !flat_map_app. cbn [flat_map withChildren entries].
        rewrite (IH (seen ++ [part]) sub).
        rewrite !map_app. cbn [map fst snd]. rewrite <- !(assoc_L (++)).
        do 2 apply Permutation_app_head. apply Permutation_app_comm.
      * rewrite flat_map_app. cbn [flat_map entries].
        rewrite (IH (seen ++ [part]) []). cbn [flat_map app map fst snd].
        rewrite ?app_nil_r. reflexivity.
Qed.

Lemma addFile_no_parts file seen cs : addFile file seen [] cs = cs.
Proof. reflexivity. Qed.

Lemma entries_fold files : forall acc,
  flat_map entries
    (fold_left (fun children file => addFile file [] (pathParts file) children)
       files acc)
  ≡ₚ flat_map entries acc ++ map placed (filter (fun f => hasParts f = true) files).
Proof.
  induction files as [|f files IH]; intros acc.
  - cbn. rewrite app_nil_r. reflexivity.
  - cbn [fold_left]. rewrite IH. unfold hasParts at 2.
    destruct (pathParts f) as [|part rest] eqn:Hparts.
    + rewrite filter_cons_False
        by (unfold hasParts; rewrite Hparts; discriminate).
      reflexivity.
    + rewrite filter_cons_True by (unfold hasParts; rewrite Hparts; reflexivity).
      rewrite entries_addFile by discriminate.
      cbn [map]. unfold placed at 2. rewrite Hparts.
      rewrite <- app_assoc. reflexivity.
Qed.

(** X25.  The tree of the explorer holds one file node for every file whose
    path has a part, and nothing else: the node lies below the folders named
    by the parts before the last that are not blank, is named by the last
    part and carries the path and the file. *)
Theorem tree_places_every_file (files : list GeneratedFile) :
  flat_map entries (node_children (buildFileTree files))
  ≡ₚ map placed (filter (fun f => hasParts f = true) files).
Proof.
  unfold buildFileTree. cbn [node_children]. rewrite entries_fold. reflexivity.
Qed.

Lemma anyChar_append_r p x y : anyChar p y = true -> anyChar p (x +:+ y) = true.
Proof.
  intros Hy. induction x as [|c x IH]; [exact Hy|].
  rewrite append_cons. simpl. rewrite IH. apply orb_true_r.
Qed.

Lemma splitChar_not_nil sep s : splitChar sep s <> [].
Proof.
  destruct s as [|c s]; [discriminate|]. cbn [splitChar].
  destruct (Ascii.eqb c sep); [discriminate|].
  destruct (splitChar sep s); discriminate.
Qed.

(** A string with a character other than the separator has a part that is
    not empty. *)
Lemma splitChar_some_part sep s :
  anyChar (fun c => negb (Ascii.eqb c sep)) s = true ->
  filter (fun part => (0 <? String.length part) = true) (splitChar sep s) <> [].
Proof.
  induction s as [|c s IH]; intros Hs; [discriminate|].
  cbn [splitChar]. simpl in Hs. destruct (Ascii.eqb c sep).
  - rewrite filter_cons_False by (cbn; discriminate). apply IH, Hs.
  - destruct (splitChar sep s); rewrite filter_cons_True by reflexivity;
      discriminate.
Qed.

Lemma filter_all_True {A} (P : A -> Prop) `{forall x, Decision (P x)}
  (l : list A) :
  (forall x, x ∈ l -> P x) -> filter P l = l.
Proof.
  induction l as [|x l IH]; intros Hl; [reflexivity|].
  rewrite filter_cons_True by (apply Hl, list_elem_of_here).
  f_equal. apply IH. intros y Hy. apply Hl, list_elem_of_further, Hy.
Qed.

Lemma generated_hasParts `{RegExpEngine} model config f :
  f ∈ plannedFiles model config -> hasParts f = true.
Proof.
  intros Hf. apply plannedFiles_elem in Hf as (bc & a & _ & _ & Hf).
  apply plannedAggregate_units in Hf
    as (name & kind & folder & ft & emit & -> & _).
  unfold plannedUnit, hasParts, pathParts. cbn [path].
  match goal with
  | |- match filter _ (splitChar _ (buildFilePath ?b ?t ?s ?f)) with _ => _ end = _ =>
      destruct (buildFilePath_filename b t s f) as (dir & Hdir & _);
        [apply truthy_append_r; reflexivity|];
        rewrite Hdir;
        pose proof (splitChar_some_part "/" (dir +:+ f)) as Hsome
  end.
  match type of Hsome with
  | _ -> ?l <> [] => destruct l; [|reflexivity]
  end.
  exfalso. apply Hsome; [|reflexivity].
  rewrite <- append_assoc. apply anyChar_append_r. reflexivity.
Qed.

Lemma planned_files_all_in_tree `{RegExpEngine} (model : CMLModel)
  (config : GeneratorConfig) :
  let tree := buildFileTree (plannedFiles model config) in
  flat_map entries (node_children tree) ≡ₚ map placed (plannedFiles model config)
  /\ List.length (flat_map entries (node_children tree))
     = List.length (unitNames model).
Proof.
  cbn zeta.
  assert (Hall : flat_map entries
                   (node_children (buildFileTree (plannedFiles model config)))
                 ≡ₚ map placed (plannedFiles model config)).
  { unfold buildFileTree. cbn [node_children]. rewrite entries_fold.
    rewrite filter_all_True by (intros f; apply generated_hasParts).
    reflexivity. }
  split; [exact Hall|].
  rewrite Hall. rewrite length_map.
  unfold plannedFiles, unitNames.
  induction (boundedContexts model) as [|bc bcs IHb]; [reflexivity|].
  cbn [flat_map]. rewrite !length_app, IHb. f_equal.
  induction (bc_aggregates bc) as [|a ags IHa]; [reflexivity|].
  cbn [flat_map]. rewrite !length_app, IHa. f_equal.
  unfold plannedAggregate, aggregateUnitNames.
  rewrite !length_app, !length_map. reflexivity.
Qed.

(** X26.  Every generated file is shown: the tree built from a list
    [generatePHP] returns holds exactly one file node per file of the list,
    so as many as the model has enumerations, value objects and
    entities. *)
Theorem generated_files_all_in_tree (E : RegExpEngine) (B : PhpBuilder)
  (model : CMLModel) (config : GeneratorConfig)
  (files : list GeneratedFile) :
  generatePHP model config = Returns files ->
  let tree := buildFileTree files in
  flat_map entries (node_children tree) ≡ₚ map placed files
  /\ List.length (flat_map entries (node_children tree))
     = List.length (unitNames model).
Proof.
  intros Hfiles. apply generatePHP_Returns in Hfiles as [-> _].
  apply planned_files_all_in_tree.
Qed.

Lemma generated_files_all_in_tree_witness :
  exists files,
    @generatePHP literalEngine carefulBuilder salesModel groupedConfig
    = Returns files
    /\ flat_map entries (node_children (buildFileTree files))
       ≡ₚ map placed files
    /\ List.length (flat_map entries (node_children (buildFileTree files)))
       = 3.
Proof.
  exists (@plannedFiles literalEngine salesModel groupedConfig).
  split; [reflexivity|].
  apply (generated_files_all_in_tree literalEngine carefulBuilder salesModel
           groupedConfig).
  reflexivity.
Defined.

(** Induction on a tree whose folders hold lists of trees. *)
Lemma FileNode_nested_ind (P : FileNode -> Prop) :
  (forall n p f, P (FileLeaf n p f)) ->
  (forall n p cs, Forall P cs -> P (Folder n p cs)) ->
  forall node, P node.
Proof.
  intros Hleaf Hfolder. fix IH 1. intros [n p f|n p cs].
  - apply Hleaf.
  - apply Hfolder. induction cs as [|c cs IHcs]; constructor.
    + apply IH.
    + apply IHcs.
Qed.

Lemma addFile_not_nil file parts :
  parts <> [] -> forall seen cs, addFile file seen parts cs <> [].
Proof.
  induction parts as [|part rest IH]; intros Hne seen cs; [congruence|].
  destruct rest as [|r rest].
  - cbn [addFile]. destruct cs; discriminate.
  - specialize (IH ltac:(discriminate)).
    change (addFile file seen (part :: r :: rest) cs)
      with (if isBlank part then addFile file (seen ++ [part]) (r :: rest) cs
            else
              match findFolder part cs with
              | Some i =>
                  alter (withChildren (addFile file (seen ++ [part]) (r :: rest)))
                    i cs
              | None =>
                  cs ++ [Folder part (join "/" (filter notBlank (seen ++ [part])))
                           (addFile file (seen ++ [part]) (r :: rest) [])]
              end).
    destruct (isBlank part); [apply IH|].
    destruct (findFolder part cs) as [i|] eqn:Hfind.
    + apply findFolder_Some in Hfind as (p & sub & Hi).
      rewrite (alter_middle _ _ _ _ Hi). destruct (take i cs); discriminate.
    + destruct cs; discriminate.
Qed.

Lemma inhabited_folder n p cs :
  inhabited (Folder n p cs) = true <-> cs <> [] /\ forallb inhabited cs = true.
Proof.
  cbn [inhabited]. destruct cs as [|c cs].
  - split; [discriminate|]. intros [Hne _]. congruence.
  - split; [intros Hc; split; [discriminate|exact Hc]|intros [_ Hc]; exact Hc].
Qed.

(** Adding a file leaves no folder empty. *)
Lemma inhabited_addFile file parts : forall seen cs,
  forallb inhabited cs = true ->
  forallb inhabited (addFile file seen parts cs) = true.
Proof.
  induction parts as [|part rest IH]; intros seen cs Hcs; [exact Hcs|].
  destruct rest as [|r rest].
  - cbn [addFile]. rewrite forallb_app, Hcs. reflexivity.
  - change (addFile file seen (part :: r :: rest) cs)
      with (if isBlank part then addFile file (seen ++ [part]) (r :: rest) cs
            else
              match findFolder part cs with
              | Some i =>
                  alter (withChildren (addFile file (seen ++ [part]) (r :: rest)))
                    i cs
              | None =>
                  cs ++ [Folder part (join "/" (filter notBlank (seen ++ [part])))
                           (addFile file (seen ++ [part]) (r :: rest) [])]
              end).
    destruct (isBlank part); [apply IH, Hcs|].
    destruct (findFolder part cs) as [i|] eqn:Hfind.
    + apply findFolder_Some in Hfind as (p & sub & Hi).
      rewrite (alter_middle _ _ _ _ Hi).
      rewrite <- (take_drop_middle cs i _ Hi) in Hcs.
      rewrite forallb_app in Hcs. apply andb_prop in Hcs as [Htake Hrest].
      cbn [forallb] in Hrest. apply andb_prop in Hrest as [Hsub Hdrop].
      apply inhabited_folder in Hsub as [_ Hsub].
      rewrite forallb_app, Htake. cbn [forallb withChildren andb].
      rewrite Hdrop, andb_true_r. apply inhabited_folder. split.
      * apply addFile_not_nil. discriminate.
      * apply IH, Hsub.
    + rewrite forallb_app, Hcs. cbn [forallb andb]. rewrite andb_true_r.
      apply inhabited_folder. split.
      * apply addFile_not_nil. discriminate.
      * apply IH. reflexivity.
Qed.

Lemma inhabited_fold files : forall acc,
  forallb inhabited acc = true ->
  forallb inhabited
    (fold_left (fun children file => addFile file [] (pathParts file) children)
       files acc) = true.
Proof.
  induction files as [|f files IH]; intros acc Hacc; [exact Hacc|].
  cbn [fold_left]. apply IH, inhabited_addFile, Hacc.
Qed.

Lemma omap_all_Some {A} (f : A -> option A) (l : list A) :
  Forall (fun x => f x = Some x) l -> omap f l = l.
Proof.
  induction 1 as [|x l Hx _ IH]; [reflexivity|].
  cbn. rewrite Hx. f_equal. exact IH.
Qed.

(** The filter keeps a tree without empty folders as it is. *)
Lemma filterEmptyFolders_inhabited node :
  inhabited node = true -> filterEmptyFolders node = Some node.
Proof.
  induction node as [n p f|n p cs IH] using FileNode_nested_ind;
    intros Hin; [reflexivity|].
  apply inhabited_folder in Hin as [Hne Hcs].
  assert (Hkeep : omap filterEmptyFolders cs = cs).
  { apply omap_all_Some. apply Forall_forall. intros c Hc.
    apply (proj1 (Forall_forall _ _) IH c Hc).
    apply (proj1 (forallb_forall _ _) Hcs), list_elem_of_In, Hc. }
  cbn [filterEmptyFolders]. destruct cs as [|c cs]; [congruence|].
  rewrite Hkeep. reflexivity.
Qed.

Lemma fold_no_parts files : forall acc,
  (forall f, f ∈ files -> hasParts f = false) ->
  fold_left (fun children file => addFile file [] (pathParts file) children)
    files acc = acc.
Proof.
  induction files as [|f files IH]; intros acc Hno; [reflexivity|].
  cbn [fold_left]. rewrite IH
    by (intros g Hg; apply Hno, list_elem_of_further, Hg).
  specialize (Hno f (list_elem_of_here _ _)). unfold hasParts in Hno.
  destruct (pathParts f); [reflexivity|discriminate].
Qed.

(** X27.  The tree of the explorer never holds an empty folder: the filter
    of empty folders returns every node at the top as it is, and there is
    nothing to show only when no file has a path with a part. *)
Theorem no_empty_folder_to_filter (files : list GeneratedFile) :
  shownNodes files = node_children (buildFileTree files)
  /\ (shownNodes files = [] <-> forall f, f ∈ files -> hasParts f = false).
Proof.
  assert (Hshown : shownNodes files = node_children (buildFileTree files)).
  { unfold shownNodes. apply omap_all_Some, Forall_forall. intros c Hc.
    apply filterEmptyFolders_inhabited.
    apply (proj1 (forallb_forall inhabited
                    (node_children (buildFileTree files)))).
    - unfold buildFileTree. cbn [node_children]. apply inhabited_fold.
      reflexivity.
    - apply list_elem_of_In, Hc. }
  split; [exact Hshown|]. rewrite Hshown. split.
  - intros Hnil f Hf.
    destruct (hasParts f) eqn:Hparts; [|reflexivity]. exfalso.
    pose proof (entries_fold files []) as Hperm.
    unfold buildFileTree in Hnil. cbn [node_children] in Hnil.
    rewrite Hnil in Hperm. cbn in Hperm.
    apply Permutation_nil_l in Hperm. symmetry in Hperm.
    apply map_eq_nil in Hperm.
    assert (Hin : f ∈ filter (fun f => hasParts f = true) files)
      by (apply list_elem_of_filter; split; assumption).
    rewrite Hperm in Hin. inversion Hin.
  - intros Hno. unfold buildFileTree. cbn [node_children].
    apply fold_no_parts, Hno.
Qed.

Lemma no_empty_folder_to_filter_witness :
  shownNodes [slashOnly] = [].
Proof.
  apply (proj2 (proj2 (no_empty_folder_to_filter [slashOnly]))).
  intros f Hf. apply list_elem_of_singleton in Hf. rewrite Hf. reflexivity.
Defined.

Lemma distinctFolders_folder n p cs :
  distinctFolders (Folder n p cs)
  <-> NoDup (folderNames cs) /\ Forall distinctFolders cs.
Proof.
  cbn [distinctFolders].
  assert (Hall : fold_right (fun c rest => distinctFolders c /\ rest) True cs
                 <-> Forall distinctFolders cs).
  { induction cs as [|c cs IH]; cbn [fold_right].
    - split; [constructor|trivial].
    - rewrite Forall_cons, IH. reflexivity. }
  rewrite Hall. reflexivity.
Qed.

Lemma folderNames_app a b : folderNames (a ++ b) = folderNames a ++ folderNames b.
Proof. apply omap_app. Qed.

Lemma folderNames_alter g i cs :
  folderNames (alter (withChildren g) i cs) = folderNames cs.
Proof.
  revert i. induction cs as [|c cs IH]; intros [|i]; try reflexivity.
  - destruct c; reflexivity.
  - cbn. unfold folderNames in IH. rewrite (IH i). reflexivity.
Qed.

(** Adding a file never gives a folder a sibling of its name. *)
Lemma distinct_addFile file parts : forall seen cs,
  NoDup (folderNames cs) -> Forall distinctFolders cs ->
  NoDup (folderNames (addFile file seen parts cs))
  /\ Forall distinctFolders (addFile file seen parts cs).
Proof.
  induction parts as [|part rest IH]; intros seen cs Hnd Hall;
    [split; assumption|].
  destruct rest as [|r rest].
  - cbn [addFile]. rewrite folderNames_app. cbn. rewrite app_nil_r.
    split; [exact Hnd|]. apply Forall_app. split; [exact Hall|].
    constructor; [exact I|constructor].
  - change (addFile file seen (part :: r :: rest) cs)
      with (if isBlank part then addFile file (seen ++ [part]) (r :: rest) cs
            else
              match findFolder part cs with
              | Some i =>
                  alter (withChildren (addFile file (seen ++ [part]) (r :: rest)))
                    i cs
              | None =>
                  cs ++ [Folder part (join "/" (filter notBlank (seen ++ [part])))
                           (addFile file (seen ++ [part]) (r :: rest) [])]
              end).
    destruct (isBlank part); [apply IH; assumption|].
    destruct (findFolder part cs) as [i|] eqn:Hfind.
    + rewrite folderNames_alter. split; [exact Hnd|].
      apply findFolder_Some in Hfind as (p & sub & Hi).
      rewrite (alter_middle _ _ _ _ Hi).
      rewrite <- (take_drop_middle cs i _ Hi) in Hall.
      apply Forall_app in Hall as [Htake Hrest].
      apply Forall_cons in Hrest as [Hsub Hdrop].
      apply distinctFolders_folder in Hsub as [Hsub1 Hsub2].
      apply Forall_app. split; [exact Htake|].
      apply Forall_cons. split; [|exact Hdrop].
      cbn [withChildren]. apply distinctFolders_folder.
      apply IH; assumption.
    + apply findFolder_None in Hfind.
      rewrite folderNames_app.
      match goal with
      | |- context [folderNames [Folder part ?p ?c]] =>
          change (folderNames [Folder part p c]) with [part]
      end.
      split.
      * apply NoDup_app. split; [exact Hnd|]. split.
        -- intros x Hx Hx'. apply list_elem_of_singleton in Hx' as ->.
           contradiction.
        -- apply NoDup_singleton.
      * apply Forall_app. split; [exact Hall|].
        constructor; [|constructor].
        apply distinctFolders_folder. apply IH; constructor.
Qed.

(** X28.  In the tree of the explorer no two folders with the same parent
    have the same name, at any depth: files whose paths begin alike meet in
    one folder. *)
Theorem folders_are_shared (files : list GeneratedFile) :
  distinctFolders (buildFileTree files).
Proof.
  unfold buildFileTree. apply distinctFolders_folder.
  assert (Hfold : forall acc,
             NoDup (folderNames acc) -> Forall distinctFolders acc ->
             NoDup (folderNames
                      (fold_left (fun children file =>
                                    addFile file [] (pathParts file) children)
                         files acc))
             /\ Forall distinctFolders
                  (fold_left (fun children file =>
                                addFile file [] (pathParts file) children)
                     files acc)).
  { induction files as [|f files IH]; intros acc Hnd Hall;
      [split; assumption|].
    cbn [fold_left].
    destruct (distinct_addFile f (pathParts f) [] acc Hnd Hall) as [Hnd' Hall'].
    apply IH; assumption. }
  apply Hfold; constructor.
Qed.

Lemma addFile_step file seen part r rest cs :
  addFile file seen (part :: r :: rest) cs
  = if isBlank part then addFile file (seen ++ [part]) (r :: rest) cs
    else
      match findFolder part cs with
      | Some i =>
          alter (withChildren (addFile file (seen ++ [part]) (r :: rest))) i cs
      | None =>
          cs ++ [Folder part (join "/" (filter notBlank (seen ++ [part])))
                   (addFile file (seen ++ [part]) (r :: rest) [])]
      end.
Proof. reflexivity. Qed.

Lemma filter_notBlank_all l : Forall notBlank l -> filter notBlank l = l.
Proof.
  intros Hl. apply filter_all_True. apply Forall_forall, Hl.
Qed.

Lemma wanted_cons seen part parts e :
  parts <> [] ->
  wanted seen (part :: parts) e
  <-> e = ([part], join "/" (seen ++ [part]))
      \/ exists e', wanted (seen ++ [part]) parts e'
                    /\ e = (part :: fst e', snd e').
Proof.
  intros Hne. unfold wanted. split.
  - intros ([|k] & Hk & ->).
    + left. reflexivity.
    + right. eexists (_, _). split.
      * exists k. split; [cbn in Hk; lia|reflexivity].
      * cbn [fst snd take]. rewrite <- app_assoc. reflexivity.
  - intros [->|(e' & (k & Hk & ->) & ->)].
    + exists 0. split; [|reflexivity].
      destruct parts; [congruence|cbn; lia].
    + exists (S k). split; [cbn; lia|].
      cbn [fst snd take]. rewrite <- app_assoc. reflexivity.
Qed.

(** The folders of a forest after a file with no blank part has been added:
    those there before and those its path asks for. *)
Lemma folders_addFile file parts : forall seen cs,
  Forall notBlank seen -> Forall notBlank parts -> rooted seen cs ->
  forall e,
    In e (flat_map folders (addFile file seen parts cs))
    <-> In e (flat_map folders cs) \/ wanted seen parts e.
Proof.
  induction parts as [|part rest IH]; intros seen cs Hseen Hparts Hroot e.
  - cbn [addFile]. split; [auto|]. intros [He|(k & Hk & _)]; [exact He|].
    cbn in Hk. lia.
  - destruct rest as [|r rest].
    + cbn [addFile]. rewrite flat_map_app. cbn [flat_map folders app].
      rewrite app_nil_r. split; [auto|]. intros [He|(k & Hk & _)]; [exact He|].
      cbn in Hk. lia.
    + apply Forall_cons in Hparts as [Hpart Hrest].
      assert (Hseen' : Forall notBlank (seen ++ [part]))
        by (apply Forall_app; split; [exact Hseen|constructor; [exact Hpart|constructor]]).
      rewrite addFile_step, Hpart, (filter_notBlank_all _ Hseen').
      rewrite wanted_cons by discriminate.
      destruct (findFolder part cs) as [i|] eqn:Hfind.
      * apply findFolder_Some in Hfind as (p & sub & Hi).
        rewrite (alter_middle _ _ _ _ Hi).
        assert (Hcs : cs = take i cs ++ Folder part p sub :: drop (S i) cs)
          by (symmetry; apply take_drop_middle, Hi).
        assert (Hin : forall x,
                   In x (flat_map folders cs)
                   <-> In x (flat_map folders (take i cs))
                       \/ x = ([part], p)
                       \/ (exists x', In x' (flat_map folders sub)
                                      /\ x = (part :: fst x', snd x'))
                       \/ In x (flat_map folders (drop (S i) cs))).
        { intros x. rewrite Hcs at 1. rewrite flat_map_app, in_app_iff.
          cbn [flat_map folders]. rewrite in_app_iff. cbn [In].
          rewrite in_map_iff. 
          split.
          - intros [H1|[[H2|(x' & <- & H3)]|H4]]; eauto 6.
          - intros [H1|[H2|[(x' & H3 & ->)|H4]]]; eauto 7. }
        assert (Hp : p = join "/" (seen ++ [part])).
        { apply Hroot. apply Hin. right. left. reflexivity. }
        assert (Hsub : rooted (seen ++ [part]) sub).
        { intros t q Hq. rewrite <- app_assoc. cbn [app].
          apply (Hroot (part :: t) q). apply Hin. right. right. left.
          exists (t, q). split; [exact Hq|reflexivity]. }
        rewrite Hin. rewrite flat_map_app, in_app_iff.
        cbn [flat_map withChildren folders]. rewrite in_app_iff. cbn [In].
        rewrite in_map_iff. subst p.
        split.
        -- intros [H1|[[H2|(x' & <- & H3)]|H4]]; [tauto|auto|
             |tauto].
           apply (IH (seen ++ [part]) sub Hseen' Hrest Hsub) in H3
             as [H3|H3].
           ++ left. right. right. left. eauto.
           ++ right. right. eauto.
        -- intros [[H1|[H2|[(x' & H3 & ->)|H4]]]|[H5|(x' & H6 & ->)]];
             [tauto|auto|
             |tauto|auto|].
           ++ right. left. right. exists x'. split; [reflexivity|].
              apply (IH (seen ++ [part]) sub Hseen' Hrest Hsub). left. exact H3.
           ++ right. left. right. exists x'. split; [reflexivity|].
              apply (IH (seen ++ [part]) sub Hseen' Hrest Hsub). right. exact H6.
      * rewrite flat_map_app, in_app_iff. cbn [flat_map folders].
        rewrite app_nil_r. cbn [In]. rewrite in_map_iff.
        assert (Hnone : rooted (seen ++ [part]) [])
          by (intros t q []).
        split.
        -- intros [H1|[H2|(x' & <- & H3)]]; [tauto|auto|].
           apply (IH (seen ++ [part]) [] Hseen' Hrest Hnone) in H3 as [[]|H3].
           right. right. eauto.
        -- intros [H1|[H2|(x' & H3 & ->)]]; [tauto|auto|].
           right. right. exists x'. split; [reflexivity|].
           apply (IH (seen ++ [part]) [] Hseen' Hrest Hnone). right. exact H3.
Qed.

Lemma rooted_addFile file parts seen cs :
  Forall notBlank seen -> Forall notBlank parts -> rooted seen cs ->
  rooted seen (addFile file seen parts cs).
Proof.
  intros Hseen Hparts Hroot t p He.
  apply (folders_addFile file parts seen cs Hseen Hparts Hroot) in He
    as [He|(k & _ & He)].
  - apply Hroot, He.
  - injection He as -> ->. reflexivity.
Qed.

Lemma folders_fold files : forall acc,
  (forall f, f ∈ files -> Forall notBlank (pathParts f)) ->
  rooted [] acc ->
  forall e,
    In e (flat_map folders
            (fold_left (fun children file =>
                          addFile file [] (pathParts file) children)
               files acc))
    <-> In e (flat_map folders acc)
        \/ exists f, f ∈ files /\ wanted [] (pathParts f) e.
Proof.
  induction files as [|f files IH]; intros acc Hfiles Hroot e.
  - cbn [fold_left]. split; [auto|].
    intros [He|(f & Hf & _)]; [exact He|inversion Hf].
  - cbn [fold_left].
    assert (Hf : Forall notBlank (pathParts f))
      by apply Hfiles, list_elem_of_here.
    rewrite IH.
    + rewrite (folders_addFile f (pathParts f) [] acc) by (auto; constructor).
      split.
      * intros [[H1|H2]|(g & Hg & H3)]; [auto| |].
        -- right. exists f. split; [apply list_elem_of_here|exact H2].
        -- right. exists g. split; [apply list_elem_of_further, Hg|exact H3].
      * intros [H1|(g & Hg & H3)]; [auto|].
        apply elem_of_cons in Hg as [->|Hg]; [auto|].
        right. exists g. split; assumption.
    + intros g Hg. apply Hfiles, list_elem_of_further, Hg.
    + apply rooted_addFile; [constructor|exact Hf|exact Hroot].
Qed.

(** X29.  When no part of a path is blank, the path of every folder of the
    tree is the names that lead to it joined by slashes, and the folders
    opened at the start are exactly the folders of the tree: a path is among
    them if and only if a folder of the tree has it. *)
Theorem folders_open_at_start (files : list GeneratedFile) :
  (forall f, f ∈ files -> Forall notBlank (pathParts f)) ->
  let shown := flat_map folders (node_children (buildFileTree files)) in
  (forall t p, (t, p) ∈ shown -> p = join "/" t)
  /\ (forall p, p ∈ map snd shown <-> p ∈ allFolders files).
Proof.
  intros Hfiles shown.
  assert (Hnone : rooted [] []) by (intros t q []).
  assert (Hshown : forall e,
             In e shown <-> exists f, f ∈ files /\ wanted [] (pathParts f) e).
  { intros e. unfold shown, buildFileTree. cbn [node_children].
    rewrite (folders_fold files [] Hfiles Hnone). cbn [flat_map In].
    tauto. }
  split.
  - intros t p He. apply list_elem_of_In, Hshown in He
      as (f & _ & k & _ & He).
    injection He as -> ->. reflexivity.
  - intros p. rewrite !list_elem_of_In. unfold allFolders.
    rewrite in_map_iff, in_flat_map. split.
    + intros (e & <- & He). apply Hshown in He as (f & Hf & k & Hk & ->).
      exists f. split; [apply list_elem_of_In, Hf|].
      cbn zeta. apply in_map_iff. exists k. split; [reflexivity|].
      apply in_seq. lia.
    + intros (f & Hf & Hp). cbn zeta in Hp.
      apply in_map_iff in Hp as (k & <- & Hk). apply in_seq in Hk.
      exists (take (S k) (pathParts f), join "/" (take (S k) (pathParts f))).
      split; [reflexivity|]. apply Hshown. exists f.
      split; [apply list_elem_of_In, Hf|]. exists k. split; [lia|reflexivity].
Qed.

Lemma folders_open_at_start_witness :
  "Sales/Order/Enum"
  ∈ map snd
      (flat_map folders
         (node_children
            (buildFileTree (@plannedFiles literalEngine salesModel groupedConfig)))).
Proof.
  apply (proj2 (folders_open_at_start
                  (@plannedFiles literalEngine salesModel groupedConfig)
                  ltac:(apply Forall_forall; vm_compute; repeat constructor))).
  vm_compute. repeat constructor.
Defined.

(** The condition matters: a folder behind a blank part has a path that is
    not among those opened at the start. *)
Example blank_part_folder_stays_closed :
  map snd (flat_map folders (node_children (buildFileTree [blankFolderFile])))
  = ["Sales"]
  /\ allFolders [blankFolderFile] = [" "; " /Sales"].
Proof. split; vm_compute; reflexivity. Qed.

(** * Namespaces and directories *)

Lemma mapChars_append f x y :
  mapChars f (x +:+ y) = mapChars f x +:+ mapChars f y.
Proof.
  induction x as [|c x IH]; [reflexivity|].
  rewrite append_cons. cbn [mapChars]. rewrite append_cons, IH. reflexivity.
Qed.

Lemma mapChars_no_slash s :
  allChars notSlash s = true -> mapChars slashToBackslash s = s.
Proof.
  induction s as [|c s IH]; intros Hs; [reflexivity|].
  simpl in Hs. apply andb_prop in Hs as [Hc Hs].
  cbn [mapChars]. rewrite (IH Hs). unfold slashToBackslash.
  unfold notSlash in Hc. apply negb_true_iff in Hc. rewrite Hc. reflexivity.
Qed.

(** X30.  The namespace mirrors the directory: for a context and an
    aggregate with names that are not empty and hold no slash, the namespace
    of a unit is the base namespace followed, when the directory of the
    structure is not empty, by a backslash and that directory with its
    slashes read as backslashes. *)
Theorem namespace_mirrors_directory (config : GeneratorConfig)
  (bc aggregate : string) :
  truthy bc = true -> truthy aggregate = true ->
  allChars notSlash bc = true -> allChars notSlash aggregate = true ->
  let dir :=
    getDirectoryPath bc aggregate (default DsFlat (directoryStructure config)) in
  buildNamespace config bc aggregate
  = if truthy dir
    then baseNamespace config +:+ backslash +:+ mapChars slashToBackslash dir
    else baseNamespace config.
Proof.
  intros Hbc Hagg Hbc' Hagg' dir. unfold dir, buildNamespace, baseNamespace.
  cbv zeta. rewrite Hbc, Hagg.
  destruct (default DsFlat (directoryStructure config)); cbn [getDirectoryPath].
  - reflexivity.
  - change (bool_decide (DsBoundedContext = DsPsr4)) with false.
    change (bool_decide (DsBoundedContext = DsAggregate)) with false.
    change (bool_decide (DsBoundedContext = DsBoundedContext)) with true.
    cbn [orb andb]. rewrite Hbc, (mapChars_no_slash _ Hbc'). reflexivity.
  - change (bool_decide (DsAggregate = DsPsr4)) with false.
    change (bool_decide (DsAggregate = DsAggregate)) with true.
    cbn [orb andb]. rewrite (truthy_append_l _ _ Hbc).
    rewrite !mapChars_append, (mapChars_no_slash _ Hbc'),
      (mapChars_no_slash _ Hagg').
    reflexivity.
  - change (bool_decide (DsPsr4 = DsPsr4)) with true.
    cbn [orb andb]. rewrite (truthy_append_l _ _ Hbc).
    rewrite !mapChars_append, (mapChars_no_slash _ Hbc'),
      (mapChars_no_slash _ Hagg').
    reflexivity.
Qed.

Lemma namespace_mirrors_directory_witness :
  buildNamespace groupedConfig "Sales" "Order"
  = "App" +:+ backslash +:+ "Models" +:+ backslash +:+ "Sales" +:+ backslash
    +:+ "Order".
Proof.
  rewrite (namespace_mirrors_directory groupedConfig "Sales" "Order"
             eq_refl eq_refl eq_refl eq_refl).
  reflexivity.
Defined.
